(** * OneClip licensing system: activation codes, license registry and
      device ledger

    A shallow embedding of [licensing-system/enhanced_license_manager.py]
    and of the device and validity endpoints of
    [licensing-system/license_api_server.py], with the properties of the
    design document stated over it.

    Conventions of the embedding.
    - A Python [str] is a [string] whose characters are the code points
      0..255; [len] is [String.length], [s[a:b]] is [py_slice].  Where a
      function is exposed to any [str], as [calculate_checksum] is, it is
      also given on [Unicode.str], the lists of code points.
    - A Python exception is the result [None] of an [option]-valued
      function.
    - An instant is a number of seconds ([Z]); a period of [d] days is
      [d * 86400] seconds.  Instants outside the years 1..9999 do not
      exist, as in [datetime] and in the SQL type DATETIME.
    - The MySQL database is a record of four tables, each a list of rows;
      a statement is a function on that record.  Statements are assumed
      to reach the server (no connection failure). *)

From Stdlib Require Import ZArith List String Ascii Bool Lia Permutation.
Import ListNotations.
Local Open Scope string_scope.
Local Open Scope list_scope.
Local Open Scope Z_scope.

(** ** Python strings *)

Module PyStr.

Definition ord (c : ascii) : Z := Z.of_nat (nat_of_ascii c).

Definition chr (z : Z) : ascii := ascii_of_nat (Z.to_nat z).

(** [s[a:b]] for [0 <= a <= b]; the end of the string clamps the slice. *)
Definition py_slice (a b : nat) (s : string) : string :=
  substring a (b - a) s.

Fixpoint forall_chars (p : ascii -> bool) (s : string) : bool :=
  match s with
  | EmptyString => true
  | String c r => p c && forall_chars p r
  end.

Fixpoint map_chars (f : ascii -> ascii) (s : string) : string :=
  match s with
  | EmptyString => EmptyString
  | String c r => String (f c) (map_chars f r)
  end.

Fixpoint contains_char (c : ascii) (s : string) : bool :=
  match s with
  | EmptyString => false
  | String d r => Ascii.eqb c d || contains_char c r
  end.

Definition between (lo hi : Z) (c : ascii) : bool :=
  (lo <=? ord c) && (ord c <=? hi).

(** [str.lower] on the code points below 256: the ASCII capitals and the
    Latin-1 capitals (all of U+00C0..U+00DE but the multiplication sign)
    move up by 32. *)
Definition lower_char (c : ascii) : ascii :=
  if between 65 90 c then chr (ord c + 32)
  else if between 192 222 c && negb (ord c =? 215) then chr (ord c + 32)
  else c.

Definition lower (s : string) : string := map_chars lower_char s.

(** The characters [str.strip] removes, among the code points below 256. *)
Definition is_space (c : ascii) : bool :=
  between 9 13 c || between 28 32 c || (ord c =? 133) || (ord c =? 160).

Fixpoint lstrip (s : string) : string :=
  match s with
  | EmptyString => EmptyString
  | String c r => if is_space c then lstrip r else s
  end.

Fixpoint rstrip (s : string) : string :=
  match s with
  | EmptyString => EmptyString
  | String c r =>
      match rstrip r with
      | EmptyString => if is_space c then EmptyString else String c EmptyString
      | r' => String c r'
      end
  end.

Definition strip (s : string) : string := rstrip (lstrip s).

(** [s.encode('utf-8')]: one byte below 128, two bytes from 128 to 255. *)
Definition utf8_char (c : ascii) : list Z :=
  if ord c <? 128 then [ord c]
  else [Z.lor 192 (Z.shiftr (ord c) 6); Z.lor 128 (Z.land (ord c) 63)].

Fixpoint encode_utf8 (s : string) : list Z :=
  match s with
  | EmptyString => []
  | String c r => utf8_char c ++ encode_utf8 r
  end.

Definition hex_value (c : ascii) : option Z :=
  if between 48 57 c then Some (ord c - 48)
  else if between 97 102 c then Some (ord c - 87)
  else if between 65 70 c then Some (ord c - 55)
  else None.

Fixpoint int16_acc (acc : Z) (s : string) : option Z :=
  match s with
  | EmptyString => Some acc
  | String c r =>
      match hex_value c with
      | Some v => int16_acc (16 * acc + v) r
      | None => None
      end
  end.

(** [int(s, 16)] on a string of hexadecimal digits; [ValueError] ([None])
    on the empty string and on any other character. *)
Definition int16 (s : string) : option Z :=
  match s with
  | EmptyString => None
  | _ => int16_acc 0 s
  end.

(** [str(n)] for an integer. *)
Fixpoint digits_fuel (fuel : nat) (n : Z) (acc : string) : string :=
  match fuel with
  | O => acc
  | S f =>
      let acc' := String (chr (48 + n mod 10)) acc in
      if n / 10 =? 0 then acc' else digits_fuel f (n / 10) acc'
  end.

Definition str_of_int (n : Z) : string :=
  if n <? 0 then String "-" (digits_fuel (S (Z.to_nat (Z.log2 (- n)))) (- n) "")
  else digits_fuel (S (Z.to_nat (Z.log2 n))) n "".

End PyStr.

(** ** SHA-256 ([hashlib.sha256]) *)

Module Sha256.

Definition w32 (x : Z) : Z := x mod 4294967296.

Definition rotr (n x : Z) : Z :=
  w32 (Z.lor (Z.shiftr x n) (Z.shiftl x (32 - n))).

Definition Ch (x y z : Z) : Z :=
  Z.lxor (Z.land x y) (Z.land (Z.lxor x 4294967295) z).

Definition Maj (x y z : Z) : Z :=
  Z.lxor (Z.lxor (Z.land x y) (Z.land x z)) (Z.land y z).

Definition Sigma0 (x : Z) : Z := Z.lxor (Z.lxor (rotr 2 x) (rotr 13 x)) (rotr 22 x).
Definition Sigma1 (x : Z) : Z := Z.lxor (Z.lxor (rotr 6 x) (rotr 11 x)) (rotr 25 x).
Definition sigma0 (x : Z) : Z := Z.lxor (Z.lxor (rotr 7 x) (rotr 18 x)) (Z.shiftr x 3).
Definition sigma1 (x : Z) : Z := Z.lxor (Z.lxor (rotr 17 x) (rotr 19 x)) (Z.shiftr x 10).

(** The round constants and the initial chaining value are not tables of
    their own: they are the first 32 bits of the fractional parts of the
    cube roots of the first 64 primes, and of the square roots of the
    first 8 primes. *)

Definition is_prime (n : nat) : bool :=
  (2 <=? n)%nat
  && forallb (fun d => negb (Nat.eqb (Nat.modulo n d) 0)) (seq 2 (n - 2)).

Definition primes (count : nat) : list Z :=
  map Z.of_nat (firstn count (filter is_prime (seq 2 320))).

(** The largest [r] with [r ^ k <= n], found bit by bit from bit [bits]. *)
Fixpoint root_bits (k n : Z) (bits : nat) (r : Z) : Z :=
  match bits with
  | O => r
  | S b =>
      let r' := r + 2 ^ Z.of_nat b in
      root_bits k n b (if r' ^ k <=? n then r' else r)
  end.

Definition frac_root (k p : Z) : Z :=
  w32 (root_bits k (p * 2 ^ (32 * k)) 40 0).

Definition K : list Z := Eval vm_compute in map (frac_root 3) (primes 64).

(** The eight chaining words. *)
Record state := mkState {
  ha : Z; hb : Z; hc : Z; hd : Z; he : Z; hf : Z; hg : Z; hh : Z }.

Definition state_of_words (w : list Z) : state :=
  mkState (nth 0 w 0) (nth 1 w 0) (nth 2 w 0) (nth 3 w 0)
          (nth 4 w 0) (nth 5 w 0) (nth 6 w 0) (nth 7 w 0).

Definition H0 : state :=
  Eval vm_compute in state_of_words (map (frac_root 2) (primes 8)).

Definition word_of_bytes (b : list Z) : Z :=
  fold_left (fun acc x => acc * 256 + x) b 0.

Fixpoint words (n : nat) (b : list Z) : list Z :=
  match n with
  | O => []
  | S m => word_of_bytes (firstn 4 b) :: words m (skipn 4 b)
  end.

(** One round: the window holds the sixteen most recent schedule words,
    oldest first. *)
Definition round (acc : state * list Z) (k : Z) : state * list Z :=
  let '(s, win) := acc in
  let w := nth 0 win 0 in
  let t1 := w32 (hh s + Sigma1 (he s) + Ch (he s) (hf s) (hg s) + k + w) in
  let t2 := w32 (Sigma0 (ha s) + Maj (ha s) (hb s) (hc s)) in
  let next := w32 (sigma1 (nth 14 win 0) + nth 9 win 0
                   + sigma0 (nth 1 win 0) + w) in
  (mkState (w32 (t1 + t2)) (ha s) (hb s) (hc s)
           (w32 (hd s + t1)) (he s) (hf s) (hg s),
   tl win ++ [next]).

Definition compress (s : state) (block : list Z) : state :=
  let s' := fst (fold_left round K (s, words 16 block)) in
  mkState (w32 (ha s + ha s')) (w32 (hb s + hb s')) (w32 (hc s + hc s'))
          (w32 (hd s + hd s')) (w32 (he s + he s')) (w32 (hf s + hf s'))
          (w32 (hg s + hg s')) (w32 (hh s + hh s')).

Definition be_bytes (n : nat) (x : Z) : list Z :=
  map (fun i => (x / 2 ^ (8 * Z.of_nat i)) mod 256) (rev (seq 0 n)).

Definition pad (msg : list Z) : list Z :=
  let len := Z.of_nat (List.length msg) in
  let zeros := Z.to_nat ((55 - len) mod 64) in
  msg ++ [128] ++ repeat 0 zeros ++ be_bytes 8 (8 * len).

Fixpoint blocks (n : nat) (s : state) (b : list Z) : state :=
  match n with
  | O => s
  | S m => blocks m (compress s (firstn 64 b)) (skipn 64 b)
  end.

Definition hash (msg : list Z) : state :=
  let p := pad msg in blocks (Nat.div (List.length p) 64) H0 p.

Definition word_bytes (w : Z) : list Z :=
  [ (w / 16777216) mod 256; (w / 65536) mod 256; (w / 256) mod 256; w mod 256 ].

(** [digest()]: the 32 bytes of the final chaining value. *)
Definition digest (msg : list Z) : list Z :=
  let s := hash msg in
  word_bytes (ha s) ++ word_bytes (hb s) ++ word_bytes (hc s) ++
  word_bytes (hd s) ++ word_bytes (he s) ++ word_bytes (hf s) ++
  word_bytes (hg s) ++ word_bytes (hh s).

Definition hex_digit (v : Z) : ascii :=
  if v <? 10 then PyStr.chr (48 + v) else PyStr.chr (87 + v).

Fixpoint hex_of_bytes (b : list Z) : string :=
  match b with
  | [] => EmptyString
  | x :: r => String (hex_digit (x / 16)) (String (hex_digit (x mod 16)) (hex_of_bytes r))
  end.

(** [hexdigest()]. *)
Definition hexdigest (msg : list Z) : string := hex_of_bytes (digest msg).

End Sha256.

(** ** Code generator ([generate_short_id], [calculate_checksum],
       [generate_activation_code]) *)

Module CodeGen.
Import PyStr.

(** The alphabet leaves out the characters that are easy to confuse
    (0, O, 1, I, L). *)
Definition CHARSET : string := "ABCDEFGHJKLMNPQRSTUVWXYZ23456789".

Definition CHARSET_LENGTH : Z := Z.of_nat (String.length CHARSET).

(** [s[i]]: a negative index counts from the end, an index outside the
    string raises [IndexError]. *)
Definition py_index (s : string) (i : Z) : option ascii :=
  let n := Z.of_nat (String.length s) in
  if (0 <=? i) && (i <? n) then String.get (Z.to_nat i) s
  else if (- n <=? i) && (i <? 0) then String.get (Z.to_nat (n + i)) s
  else None.

(** The loop [for _ in range(11)] of [generate_short_id]. *)
Fixpoint short_id_loop (n : nat) (combined : Z) (result : string) : option string :=
  match n with
  | O => Some result
  | S m =>
      match py_index CHARSET (combined mod CHARSET_LENGTH) with
      | Some c => short_id_loop m (combined / CHARSET_LENGTH) (String c result)
      | None => None
      end
  end.

(** [generate_short_id]; [time_ms] is [int(time.time() * 1000)] and
    [uuid_int] is [uuid.uuid4().int]. *)
Definition generate_short_id (time_ms uuid_int : Z) : option string :=
  let timestamp := time_ms mod 36 ^ 6 in
  let random_part := uuid_int mod 36 ^ 5 in
  let combined := timestamp * 36 ^ 5 + random_part in
  short_id_loop 11 combined "".

(** The loop [for i in range(4)] of [calculate_checksum]. *)
Fixpoint checksum_loop (range : list nat) (hash_hex checksum : string) : option string :=
  match range with
  | [] => Some checksum
  | i :: rest =>
      let start_index := (i * 2)%nat in
      let end_index := (start_index + 2)%nat in
      let hex_byte := py_slice start_index end_index hash_hex in
      match int16 hex_byte with
      | None => None
      | Some int_value =>
          let char_index := int_value mod CHARSET_LENGTH in
          match py_index CHARSET char_index with
          | None => None
          | Some c => checksum_loop rest hash_hex (checksum ++ String c "")%string
          end
      end
  end.

(** [calculate_checksum] on the 8-bit strings, which is where the
    generator calls it; there the encoding cannot fail.  The function on
    any [str] is [Unicode.calculate_checksum], which agrees with this one
    on the 8-bit strings (lemma [calculate_checksum_of_string]). *)
Definition calculate_checksum (short_id : string) : option string :=
  if negb (Nat.eqb (String.length short_id) 11) then Some ""
  else
    let hash_hex := Sha256.hexdigest (encode_utf8 short_id) in
    checksum_loop (seq 0 4) hash_hex "".

Definition generate_activation_code (time_ms uuid_int : Z) : option string :=
  match generate_short_id time_ms uuid_int with
  | None => None
  | Some short_id =>
      match calculate_checksum short_id with
      | None => None
      | Some checksum =>
          Some (py_slice 0 5 short_id ++ "-" ++ py_slice 5 10 short_id ++ "-"
                ++ py_slice 10 11 short_id ++ checksum)%string
      end
  end.

(** De-hyphenation of a rendered code ([code.replace('-', '')]). *)
Fixpoint remove_hyphens (s : string) : string :=
  match s with
  | EmptyString => EmptyString
  | String c r => if Ascii.eqb c "-" then remove_hyphens r else String c (remove_hyphens r)
  end.

Definition in_charset (c : ascii) : bool := contains_char c CHARSET.

(** The checksum as the design document words it: each of the first four
    digest bytes, reduced modulo the alphabet size, picks one symbol. *)
Definition symbol_of_byte (b : Z) : ascii :=
  match py_index CHARSET (b mod CHARSET_LENGTH) with
  | Some c => c
  | None => "?"%char
  end.

Definition spec_checksum (short_id : string) : string :=
  string_of_list_ascii
    (map symbol_of_byte (firstn 4 (Sha256.digest (encode_utf8 short_id)))).

End CodeGen.

(** ** Python strings in general *)

Module Unicode.
Import PyStr.

(** A Python [str] in general is a sequence of code points, each in
    0..0x10FFFF; the strings of [PyStr] are the ones whose code points
    are all below 256. *)
Definition str := list Z.

Definition of_string (s : string) : str := map ord (list_ascii_of_string s).

(** The code points U+D800..U+DFFF. *)
Definition is_surrogate (c : Z) : bool := (55296 <=? c) && (c <=? 57343).

(** The UTF-8 bytes of one code point; a surrogate has none, the codec
    raises [UnicodeEncodeError] ([None]). *)
Definition utf8_code_point (c : Z) : option (list Z) :=
  if c <? 128 then Some [c]
  else if c <? 2048 then
    Some [Z.lor 192 (Z.shiftr c 6); Z.lor 128 (Z.land c 63)]
  else if is_surrogate c then None
  else if c <? 65536 then
    Some [Z.lor 224 (Z.shiftr c 12); Z.lor 128 (Z.land (Z.shiftr c 6) 63);
          Z.lor 128 (Z.land c 63)]
  else
    Some [Z.lor 240 (Z.shiftr c 18); Z.lor 128 (Z.land (Z.shiftr c 12) 63);
          Z.lor 128 (Z.land (Z.shiftr c 6) 63); Z.lor 128 (Z.land c 63)].

(** [s.encode('utf-8')]. *)
Fixpoint encode_utf8 (s : str) : option (list Z) :=
  match s with
  | [] => Some []
  | c :: r =>
      match utf8_code_point c, encode_utf8 r with
      | Some b, Some bs => Some (b ++ bs)
      | _, _ => None
      end
  end.

(** [calculate_checksum] on any [str]: [len] counts code points, and
    [None] is the exception of [short_id.encode('utf-8')], which nothing
    in the function catches. *)
Definition calculate_checksum (short_id : str) : option string :=
  if negb (Nat.eqb (List.length short_id) 11) then Some ""
  else
    match encode_utf8 short_id with
    | None => None
    | Some bytes =>
        let hash_hex := Sha256.hexdigest bytes in
        CodeGen.checksum_loop (seq 0 4) hash_hex ""
    end.

End Unicode.

(** ** Instants *)

Module Clock.

(** 0001-01-01 00:00:00 and 9999-12-31 23:59:59, in seconds from the
    Unix epoch. *)
Definition DATETIME_MIN : Z := -62135596800.
Definition DATETIME_MAX : Z := 253402300799.

Definition in_range (t : Z) : bool :=
  (DATETIME_MIN <=? t) && (t <=? DATETIME_MAX).

Definition seconds_of_days (d : Z) : Z := d * 86400.

(** [t + timedelta(days=d)]: [OverflowError] when the period exceeds
    999999999 days or the sum leaves the calendar. *)
Definition py_add_days (t d : Z) : option Z :=
  if (Z.abs d <=? 999999999) && in_range (t + seconds_of_days d)
  then Some (t + seconds_of_days d) else None.

(** SQL [DATE_ADD(t, INTERVAL d DAY)]: NULL for a NULL argument and for a
    sum that leaves the calendar. *)
Definition sql_date_add (t : option Z) (d : Z) : option Z :=
  match t with
  | None => None
  | Some t0 =>
      if in_range (t0 + seconds_of_days d) then Some (t0 + seconds_of_days d)
      else None
  end.

(** SQL [IFNULL(a, b)]: [a] unless [a] is NULL. *)
Definition sql_ifnull (a b : option Z) : option Z :=
  match a with
  | Some _ => a
  | None => b
  end.

End Clock.

(** ** The database *)

Module Db.

Inductive Plan := monthly | yearly | lifetime.

Inductive Status := active | suspended | revoked.

Inductive Action :=
  | activate | heartbeat | deactivate | renew | cancel
  | delete | revoke | suspend | restore.

Definition Plan_eqb (a b : Plan) : bool :=
  match a, b with
  | monthly, monthly | yearly, yearly | lifetime, lifetime => true
  | _, _ => false
  end.

Definition Status_eqb (a b : Status) : bool :=
  match a, b with
  | active, active | suspended, suspended | revoked, revoked => true
  | _, _ => false
  end.

(** Table [licenses]. *)
Record License := mkLicense {
  license_id : string;
  activation_code : string;
  email : string;
  plan : Plan;
  device_limit : Z;
  issued_at : option Z;
  valid_until : option Z;
  user_hint : option string;
  status : Status }.

(** Table [device_activations]. *)
Record DeviceActivation := mkDeviceActivation {
  da_license_id : string;
  da_device_id : string;
  device_name : option string;
  ip_address : option string;
  last_seen_at : option Z;
  is_active : bool }.

(** Table [revoked_licenses]. *)
Record RevokedLicense := mkRevokedLicense {
  rl_license_id : string;
  reason : string;
  revoked_by : option string }.

(** Table [activation_history]; [details] holds the members of the JSON
    object the code serialises, [None] for [null]. *)
Record HistoryEntry := mkHistoryEntry {
  h_license_id : string;
  action : Action;
  h_device_id : option string;
  h_ip_address : option string;
  details : list (string * option string) }.

Record Store := mkStore {
  licenses : list License;
  device_activations : list DeviceActivation;
  revoked_licenses : list RevokedLicense;
  activation_history : list HistoryEntry }.

Definition empty : Store := mkStore [] [] [] [].

Definition with_licenses (st : Store) (l : list License) : Store :=
  mkStore l (device_activations st) (revoked_licenses st) (activation_history st).

Definition with_devices (st : Store) (d : list DeviceActivation) : Store :=
  mkStore (licenses st) d (revoked_licenses st) (activation_history st).

Definition with_revoked (st : Store) (r : list RevokedLicense) : Store :=
  mkStore (licenses st) (device_activations st) r (activation_history st).

(** [INSERT INTO activation_history]. *)
Definition log (st : Store) (h : HistoryEntry) : Store :=
  mkStore (licenses st) (device_activations st) (revoked_licenses st)
          (activation_history st ++ [h]).

(** [WHERE license_id = %s AND device_id = %s]. *)
Definition is_device (lid did : string) (d : DeviceActivation) : bool :=
  String.eqb (da_license_id d) lid && String.eqb (da_device_id d) did.

(** [WHERE license_id = %s AND is_active = 1]. *)
Definition is_active_of (lid : string) (d : DeviceActivation) : bool :=
  String.eqb (da_license_id d) lid && is_active d.

(** [SELECT COUNT FROM device_activations
     WHERE license_id = %s AND is_active = 1]. *)
Definition count_active (st : Store) (lid : string) : Z :=
  Z.of_nat (List.length (filter (is_active_of lid) (device_activations st))).

(** [UPDATE device_activations SET ... WHERE license_id = %s AND device_id = %s]. *)
Definition update_device (f : DeviceActivation -> DeviceActivation)
    (lid did : string) (st : Store) : Store :=
  with_devices st
    (map (fun d => if is_device lid did d then f d else d) (device_activations st)).

(** [DELETE FROM device_activations WHERE license_id = %s AND device_id = %s]. *)
Definition delete_device_rows (lid did : string) (st : Store) : Store :=
  with_devices st
    (filter (fun d => negb (is_device lid did d)) (device_activations st)).

Definition set_active (b : bool) (d : DeviceActivation) : DeviceActivation :=
  mkDeviceActivation (da_license_id d) (da_device_id d) (device_name d)
                     (ip_address d) (last_seen_at d) b.

Definition touch (seen : Z) (name ip : option string) (d : DeviceActivation)
    : DeviceActivation :=
  mkDeviceActivation (da_license_id d) (da_device_id d) name ip (Some seen)
                     (is_active d).

(** The rows an [UPDATE ... SET is_active = b] really changes. *)
Definition changed_rows (b : bool) (lid did : string) (st : Store) : nat :=
  List.length (filter (fun d => is_device lid did d && negb (Bool.eqb (is_active d) b))
                 (device_activations st)).

Definition matched_rows (lid did : string) (st : Store) : nat :=
  List.length (filter (is_device lid did) (device_activations st)).

End Db.

(** ** The license manager ([EnhancedLicenseManager]) *)

Module Manager.
Import PyStr Db.

(** *** Email syntax ([is_valid_email]) *)

Definition is_alpha (c : ascii) : bool := between 65 90 c || between 97 122 c.

Definition is_alnum (c : ascii) : bool := is_alpha c || between 48 57 c.

(** [[a-zA-Z0-9._%+-]] *)
Definition is_local_char (c : ascii) : bool := is_alnum c || contains_char c "._%+-".

(** [[a-zA-Z0-9.-]] *)
Definition is_domain_char (c : ascii) : bool := is_alnum c || contains_char c ".-".

Fixpoint split_first (c : ascii) (s : string) : option (string * string) :=
  match s with
  | EmptyString => None
  | String a r =>
      if Ascii.eqb a c then Some (EmptyString, r)
      else match split_first c r with
           | Some (p, q) => Some (String a p, q)
           | None => None
           end
  end.

Fixpoint split_last (c : ascii) (s : string) : option (string * string) :=
  match s with
  | EmptyString => None
  | String a r =>
      match split_last c r with
      | Some (p, q) => Some (String a p, q)
      | None => if Ascii.eqb a c then Some (EmptyString, r) else None
      end
  end.

(** The end-of-string anchor also matches before one final line feed. *)
Fixpoint drop_final_newline (s : string) : string :=
  match s with
  | EmptyString => EmptyString
  | String c EmptyString => if Ascii.eqb c (chr 10) then EmptyString else s
  | String c r => String c (drop_final_newline r)
  end.

Definition nonempty (s : string) : bool := negb (String.eqb s "").

(** [re.match(r'^[a-zA-Z0-9._%+-]+@[a-zA-Z0-9.-]+\.[a-zA-Z]{2,}$', email)]:
    the local part ends at the first at-sign, the last label starts after
    the last dot. *)
Definition is_valid_email (email : string) : bool :=
  match split_first "@" (drop_final_newline email) with
  | None => false
  | Some (local_part, rest) =>
      match split_last "." rest with
      | None => false
      | Some (domain, tld) =>
          nonempty local_part && forall_chars is_local_char local_part
          && nonempty domain && forall_chars is_domain_char domain
          && (2 <=? String.length tld)%nat && forall_chars is_alpha tld
      end
  end.

(** *** Issuance ([generate_license_with_email]) *)

(** [(plan or '').strip().lower()] and the membership test. *)
Definition normalize_plan (plan : option string) : option Plan :=
  let normalized_plan :=
    lower (strip (match plan with Some p => p | None => "" end)) in
  if String.eqb normalized_plan "monthly" then Some monthly
  else if String.eqb normalized_plan "yearly" then Some yearly
  else if String.eqb normalized_plan "lifetime" then Some lifetime
  else None.

(** Python truth of an optional integer: [None] and [0] are false. *)
Definition truthy_days (days : option Z) : bool :=
  match days with
  | Some d => negb (d =? 0)
  | None => false
  end.

(** The plan defaults: an absent (or zero) [days] becomes 31 for a
    monthly and 365 for a yearly license. *)
Definition resolve_days (p : Plan) (days : option Z) : option Z :=
  let days := if Plan_eqb p monthly && negb (truthy_days days) then Some 31 else days in
  let days := if Plan_eqb p yearly && negb (truthy_days days) then Some 365 else days in
  days.

(** [valid_until]: the outer [None] is the [OverflowError] of the sum. *)
Definition compute_valid_until (now : Z) (p : Plan) (days : option Z)
    : option (option Z) :=
  match days with
  | Some d =>
      if truthy_days days && negb (Plan_eqb p lifetime)
      then match Clock.py_add_days now d with
           | Some t => Some (Some t)
           | None => None
           end
      else Some None
  | None => Some None
  end.

Definition upper_hex (c : ascii) : ascii :=
  if between 97 102 c then chr (ord c - 32) else c.

(** [f"LIC-{uuid.uuid4().hex[:8].upper()}"]: the eight leading hexadecimal
    digits of the 128-bit number. *)
Definition make_license_id (uuid_int : Z) : string :=
  ("LIC-" ++ map_chars upper_hex
     (Sha256.hex_of_bytes (Sha256.be_bytes 4 ((uuid_int / 2 ^ 96) mod 2 ^ 32))))%string.

Inductive IssueResult :=
  | Issued (l : License)
  | IssueError (error : string).

Definition ERR_EMAIL : string := "邮箱格式无效".
Definition ERR_PLAN : string := "未知的套餐类型".
Definition ERR_DATABASE : string := "数据库操作失败".
Definition ERR_GENERATE : string := "生成失败".

(** [f"{prefix}: {str(e)}"], the error of the two handlers. *)
Definition with_exception (prefix text : string) : string :=
  (prefix ++ ": " ++ text)%string.

(** Randomness and time read by one issuance: the clock and the random
    number of the short identifier, the random number of the license
    identifier, the clock read for [valid_until] and the clock read for
    [issued_at]; and [str(e)], the text that the library or the server
    gives the exception, should the issuance raise one. *)
Record Entropy := mkEntropy {
  time_ms : Z;
  uuid_code : Z;
  uuid_license : Z;
  now_valid : Z;
  now_issued : Z;
  exception_text : string }.

(** Modelled from the spec: the schema of table [licenses] is not part of
    the sources; the design document gives it uniqueness constraints on
    [license_id] and [activation_code], and a new row starts in status
    [active]. *)
Definition insert_license (st : Store) (l : License) : option Store :=
  if existsb (fun x => String.eqb (license_id x) (license_id l)
                       || String.eqb (activation_code x) (activation_code l))
             (licenses st)
  then None
  else Some (with_licenses st (licenses st ++ [l])).

Definition generate_license_with_email (st : Store) (e : Entropy)
    (plan : option string) (email : string) (device_cap : Z)
    (days : option Z) (user_hint : option string) : Store * IssueResult :=
  if negb (is_valid_email email) then (st, IssueError ERR_EMAIL)
  else
    match normalize_plan plan with
    | None => (st, IssueError ERR_PLAN)
    | Some normalized_plan =>
        let days := resolve_days normalized_plan days in
        match CodeGen.generate_activation_code (time_ms e) (uuid_code e) with
        | None => (st, IssueError (with_exception ERR_GENERATE (exception_text e)))
        | Some activation_code =>
            let license_id := make_license_id (uuid_license e) in
            match compute_valid_until (now_valid e) normalized_plan days with
            | None =>
                (st, IssueError (with_exception ERR_GENERATE (exception_text e)))
            | Some valid_until =>
                let row := mkLicense license_id activation_code email
                             normalized_plan device_cap (Some (now_issued e))
                             valid_until user_hint active in
                match insert_license st row with
                | None =>
                    (st, IssueError (with_exception ERR_DATABASE (exception_text e)))
                | Some st' => (st', Issued row)
                end
            end
        end
    end.

(** *** Verification and activation ([verify_license_with_email]) *)

Record LicenseInfo := mkLicenseInfo {
  r_license_id : string;
  r_plan : Plan;
  r_device_cap : Z;
  r_issued_at : option Z;
  r_valid_until : option Z;
  r_user_hint : option string;
  r_message : option string }.

Inductive VerifyResult :=
  | Valid (info : LicenseInfo)
  | Invalid (error : string).

Definition is_valid (r : VerifyResult) : bool :=
  match r with
  | Valid _ => true
  | Invalid _ => false
  end.

Definition ERR_CODE_NOT_FOUND : string := "激活码不存在或已停用".
Definition ERR_EMAIL_MISMATCH : string := "邮箱与激活码不匹配".
Definition ERR_EXPIRED : string := "激活码已过期".
Definition ERR_DEVICE_SUSPENDED : string := "设备已被停用，请联系管理员恢复".
Definition MSG_DEVICE_ACTIVE : string := "设备已激活".

(** [f"设备数量已达上限({result['device_limit']}台)"] *)
Definition ERR_QUOTA (device_limit : Z) : string :=
  ("设备数量已达上限(" ++ str_of_int device_limit ++ "台)")%string.

(** [SELECT ... FROM licenses WHERE activation_code = %s AND status = 'active']
    followed by [fetchone]. *)
Definition select_active_license (st : Store) (code : string) : option License :=
  find (fun l => String.eqb (activation_code l) code && Status_eqb (status l) active)
       (licenses st).

Definition info_of (l : License) (message : option string) : LicenseInfo :=
  mkLicenseInfo (license_id l) (plan l) (device_limit l) (issued_at l)
                (valid_until l) (user_hint l) message.

(** [if result['valid_until']: ... if now_utc > valid_until] *)
Definition expired (now : Z) (l : License) : bool :=
  match valid_until l with
  | Some t => t <? now
  | None => false
  end.

(** Python truth of an optional string: [None] and the empty string are
    false. *)
Definition truthy (s : option string) : option string :=
  match s with
  | Some x => if String.eqb x "" then None else Some x
  | None => None
  end.

Definition device_name_details (name : option string) : list (string * option string) :=
  [("device_name", name)].

(** [now] is the reading of [datetime.now(timezone.utc)] during the call. *)
Definition verify_license_with_email (st : Store) (now : Z)
    (activation_code email : string)
    (device_id device_name ip_address : option string) : Store * VerifyResult :=
  match select_active_license st activation_code with
  | None => (st, Invalid ERR_CODE_NOT_FOUND)
  | Some result =>
      if negb (String.eqb (lower (Db.email result)) (lower email))
      then (st, Invalid ERR_EMAIL_MISMATCH)
      else if expired now result then (st, Invalid ERR_EXPIRED)
      else
        match truthy device_id with
        | None => (st, Valid (info_of result None))
        | Some did =>
            let lid := license_id result in
            match find (is_device lid did) (device_activations st) with
            | Some existing_device =>
                if is_active existing_device then
                  let st1 := update_device (touch now device_name ip_address) lid did st in
                  let st2 := log st1 (mkHistoryEntry lid heartbeat (Some did) ip_address
                                        (device_name_details device_name)) in
                  (st2, Valid (info_of result (Some MSG_DEVICE_ACTIVE)))
                else (st, Invalid ERR_DEVICE_SUSPENDED)
            | None =>
                let current_devices := count_active st lid in
                if current_devices >=? device_limit result
                then (st, Invalid (ERR_QUOTA (device_limit result)))
                else
                  let row := mkDeviceActivation lid did device_name ip_address
                               (Some now) true in
                  let st1 := with_devices st (device_activations st ++ [row]) in
                  let st2 := log st1 (mkHistoryEntry lid activate (Some did) ip_address
                                        (device_name_details device_name)) in
                  (st2, Valid (info_of result None))
            end
        end
  end.

(** *** Revocation ([revoke_license]) *)

Definition set_status (s : Status) (l : License) : License :=
  mkLicense (license_id l) (activation_code l) (email l) (plan l) (device_limit l)
            (issued_at l) (valid_until l) (user_hint l) s.

Definition has_license (st : Store) (lid : string) : bool :=
  existsb (fun l => String.eqb (license_id l) lid) (licenses st).

(** [WHERE license_id = %s] on table [revoked_licenses]. *)
Definition has_key (lid : string) (r : RevokedLicense) : bool :=
  String.eqb (rl_license_id r) lid.

(** Modelled from the spec: the schema of table [revoked_licenses] is not
    part of the sources; the design document makes [license_id] its unique
    key, which is the key [ON DUPLICATE KEY UPDATE] reacts to: a row with
    that key has [reason] and [revoked_by] overwritten, otherwise the row
    is inserted. *)
Definition upsert_revoked (st : Store) (lid reason : string)
    (revoked_by : option string) : Store :=
  if existsb (has_key lid) (revoked_licenses st)
  then with_revoked st
         (map (fun r => if has_key lid r
                        then mkRevokedLicense lid reason revoked_by else r)
              (revoked_licenses st))
  else with_revoked st (revoked_licenses st ++ [mkRevokedLicense lid reason revoked_by]).

Definition revoke_license (st : Store) (lid reason : string)
    (revoked_by : option string) : Store * bool :=
  if negb (has_license st lid) then (st, false)
  else
    let st1 := upsert_revoked st lid reason revoked_by in
    let st2 := with_licenses st1
                 (map (fun l => if String.eqb (license_id l) lid
                                then set_status revoked l else l) (licenses st1)) in
    let st3 := log st2 (mkHistoryEntry lid revoke None None
                          [("reason", Some reason); ("revoked_by", revoked_by)]) in
    (st3, true).

(** *** Device operations of the manager *)

Definition has_device (st : Store) (lid did : string) : bool :=
  existsb (is_device lid did) (device_activations st).

Definition deactivate_device (st : Store) (lid did reason : string) : Store * bool :=
  if negb (has_device st lid did) then (st, false)
  else
    let st1 := update_device (set_active false) lid did st in
    let st2 := log st1 (mkHistoryEntry lid deactivate (Some did) None
                          [("reason", Some reason); ("deactivated_by", Some "admin")]) in
    (st2, true).

Definition activate_device (st : Store) (lid did reason : string) : Store * bool :=
  if negb (has_device st lid did) then (st, false)
  else
    let st1 := update_device (set_active true) lid did st in
    let st2 := log st1 (mkHistoryEntry lid renew (Some did) None
                          [("reason", Some reason); ("activated_by", Some "admin")]) in
    (st2, true).

Definition cancel_device_activation (st : Store) (lid did reason : string)
    : Store * bool :=
  if negb (existsb (fun d => is_device lid did d && is_active d) (device_activations st))
  then (st, false)
  else
    let st1 := delete_device_rows lid did st in
    let st2 := log st1 (mkHistoryEntry lid cancel (Some did) None
                          [("reason", Some reason); ("canceled_by", Some "user")]) in
    (st2, true).

End Manager.

(** ** The HTTP endpoints ([license_api_server.py]) *)

Module Api.
Import PyStr Db Manager.

(** The JSON object of a request, with string members. *)
Definition Json := list (string * string).

Fixpoint get (data : Json) (key : string) : option string :=
  match data with
  | [] => None
  | (k, v) :: rest => if String.eqb k key then Some v else get rest key
  end.

Definition get_default (data : Json) (key default : string) : string :=
  match get data key with
  | Some v => v
  | None => default
  end.

Record Response := mkResponse {
  http_status : Z;
  success : bool;
  message : string;
  code : option string;
  license : option LicenseInfo }.

Definition failure (http : Z) (msg : string) (c : option string) : Response :=
  mkResponse http false msg c None.

Definition MSG_MISSING_PARAMS : string := "缺少必要参数".
Definition MSG_NO_DEVICE : string := "设备不存在".

(** *** [POST /api/verify-license-3] *)

(** [api_key] is the header [X-API-Key], [remote_addr] the address of the
    peer. *)
Definition verify_license (st : Store) (now : Z) (API_KEY : string)
    (api_key remote_addr : option string) (data : Json) : Store * Response :=
  match truthy api_key with
  | None => (st, failure 401 "API密钥无效" (Some "INVALID_API_KEY"))
  | Some k =>
  if negb (String.eqb k API_KEY)
  then (st, failure 401 "API密钥无效" (Some "INVALID_API_KEY"))
  else
  match data with
  | [] => (st, failure 400 "请求数据为空" (Some "INVALID_REQUEST"))
  | _ =>
      let license_code := strip (get_default data "license" "") in
      let email := strip (get_default data "email" "") in
      let app_version := get_default data "appVersion" "1.0.0" in
      let platform := get_default data "platform" "macOS" in
      let device_name :=
        get_default data "device_name" (platform ++ " " ++ app_version)%string in
      let device_id := strip (get_default data "device_id" "") in
      let client_ip :=
        match truthy (get data "ip_address") with
        | Some ip => Some ip
        | None => remote_addr
        end in
      if String.eqb license_code ""
      then (st, failure 400 "激活码不能为空" (Some "MISSING_LICENSE"))
      else if String.eqb email ""
      then (st, failure 400 "邮箱不能为空" (Some "MISSING_EMAIL"))
      else if String.eqb device_id ""
      then (st, failure 400 "设备ID不能为空，请更新到最新版本" (Some "MISSING_DEVICE_ID"))
      else
        match verify_license_with_email st now license_code email
                (Some device_id) (Some device_name) client_ip with
        | (st', Valid info) =>
            (st', mkResponse 200 true "许可证验证成功" (Some "SUCCESS") (Some info))
        | (st', Invalid error) =>
            (st', failure 400 error (Some "INVALID_LICENSE"))
        end
  end
  end.

(** A request that passes the parameter checks of [verify_license]. *)
Definition complete (data : Json) : bool :=
  negb (Nat.eqb (List.length data) 0)
  && nonempty (strip (get_default data "license" ""))
  && nonempty (strip (get_default data "email" ""))
  && nonempty (strip (get_default data "device_id" "")).

(** *** Device endpoints of the license holder *)

Section Rowcount.

(** Whether the connection reports matched rows (client flag FOUND_ROWS)
    or changed rows in [cursor.rowcount] after an [UPDATE]. *)
Variable found_rows : bool.

Definition update_rowcount (b : bool) (lid did : string) (st : Store) : nat :=
  if found_rows then matched_rows lid did st else changed_rows b lid did st.

(** The common shape of [suspend_device] and [restore_device]: check the
    parameters, verify code and email, find the row, flip [is_active],
    leave without committing when no row was updated, log, commit. *)
Definition flip_device (b : bool) (act : Action) (by_key default_reason done_msg failed_msg : string)
    (st : Store) (now : Z) (data : Json) : Store * Response :=
  match truthy (get data "activation_code"), truthy (get data "email"),
        truthy (get data "device_id") with
  | Some activation_code, Some email, Some device_id =>
      let reason := get_default data "reason" default_reason in
      match verify_license_with_email st now activation_code email None None None with
      | (_, Invalid error) => (st, failure 400 error None)
      | (_, Valid result) =>
          let license_id := r_license_id result in
          if negb (has_device st license_id device_id)
          then (st, failure 404 MSG_NO_DEVICE None)
          else if Nat.eqb (update_rowcount b license_id device_id st) 0
          then (st, failure 500 failed_msg None)
          else
            let st1 := update_device (set_active b) license_id device_id st in
            let st2 := log st1 (mkHistoryEntry license_id act (Some device_id) None
                                  [("reason", Some reason); (by_key, Some "user")]) in
            (st2, mkResponse 200 true done_msg None None)
      end
  | _, _, _ => (st, failure 400 MSG_MISSING_PARAMS None)
  end.

(** [POST /api/suspend-device] *)
Definition suspend_device : Store -> Z -> Json -> Store * Response :=
  flip_device false suspend "suspended_by" "用户停用" "设备已停用" "设备停用失败".

(** [POST /api/restore-device] *)
Definition restore_device : Store -> Z -> Json -> Store * Response :=
  flip_device true restore "restored_by" "用户恢复" "设备已恢复" "设备恢复失败".

End Rowcount.

(** [POST /api/delete-device]; a [DELETE] reports the rows it removed. *)
Definition delete_device (st : Store) (now : Z) (data : Json) : Store * Response :=
  match truthy (get data "activation_code"), truthy (get data "email"),
        truthy (get data "device_id") with
  | Some activation_code, Some email, Some device_id =>
      let reason := get_default data "reason" "用户删除" in
      match verify_license_with_email st now activation_code email None None None with
      | (_, Invalid error) => (st, failure 400 error None)
      | (_, Valid result) =>
          let license_id := r_license_id result in
          if negb (has_device st license_id device_id)
          then (st, failure 404 MSG_NO_DEVICE None)
          else if Nat.eqb (matched_rows license_id device_id st) 0
          then (st, failure 500 "设备删除失败" None)
          else
            let st1 := delete_device_rows license_id device_id st in
            let st2 := log st1 (mkHistoryEntry license_id delete (Some device_id) None
                                  [("reason", Some reason); ("deleted_by", Some "user")]) in
            (st2, mkResponse 200 true "设备已删除" None None)
      end
  | _, _, _ => (st, failure 400 MSG_MISSING_PARAMS None)
  end.

(** [POST /api/cancel-activation] *)
Definition cancel_activation (st : Store) (now : Z) (data : Json) : Store * Response :=
  match truthy (get data "activation_code"), truthy (get data "email"),
        truthy (get data "device_id") with
  | Some activation_code, Some email, Some device_id =>
      let reason := get_default data "reason" "用户取消激活" in
      match verify_license_with_email st now activation_code email None None None with
      | (_, Invalid error) => (st, failure 400 error None)
      | (_, Valid result) =>
          match cancel_device_activation st (r_license_id result) device_id reason with
          | (st', true) => (st', mkResponse 200 true "设备激活已取消" None None)
          | (st', false) => (st', failure 400 "取消激活失败" None)
          end
      end
  | _, _, _ => (st, failure 400 MSG_MISSING_PARAMS None)
  end.

(** *** [POST /api/admin/extend-validity] *)

(** [UPDATE licenses SET valid_until =
       IFNULL(DATE_ADD(UTC_TIMESTAMP(), INTERVAL %s DAY),
              DATE_ADD(valid_until, INTERVAL %s DAY))
     WHERE license_id = %s] *)
Definition extended (now days : Z) (l : License) : License :=
  mkLicense (license_id l) (activation_code l) (email l) (plan l) (device_limit l)
            (issued_at l)
            (Clock.sql_ifnull (Clock.sql_date_add (Some now) days)
                              (Clock.sql_date_add (valid_until l) days))
            (user_hint l) (status l).

(** [admin] tells whether the session is that of a logged-in
    administrator; [days] is the member of that name, 30 when absent. *)
Definition admin_extend_validity (st : Store) (now : Z) (admin : bool)
    (license_id : option string) (days : option Z) : Store * Response :=
  if negb admin
  then (st, failure 401 "未登录或会话已超时" (Some "UNAUTHORIZED"))
  else
    let days := match days with Some d => d | None => 30 end in
    match truthy license_id with
    | None => (st, failure 400 "缺少 license_id" None)
    | Some lid =>
        let st' := with_licenses st
                     (map (fun l => if String.eqb (Db.license_id l) lid
                                    then extended now days l else l) (licenses st)) in
        (st', mkResponse 200 true "" None None)
    end.

End Api.

(** ** Sequences of ledger operations *)

Module Ledger.
Import Db Manager Api.

(** One call of an operation that reads or writes [device_activations]. *)
Inductive Op :=
  | Verify (now : Z) (activation_code email : string)
           (device_id device_name ip_address : option string)
  | Deactivate (license_id device_id reason : string)
  | Activate (license_id device_id reason : string)
  | Cancel (license_id device_id reason : string)
  | Suspend (found_rows : bool) (now : Z) (data : Json)
  | Restore (found_rows : bool) (now : Z) (data : Json)
  | Delete (now : Z) (data : Json)
  | CancelActivation (now : Z) (data : Json).

Definition step (st : Store) (op : Op) : Store :=
  match op with
  | Verify now c e d n i => fst (verify_license_with_email st now c e d n i)
  | Deactivate l d r => fst (deactivate_device st l d r)
  | Activate l d r => fst (activate_device st l d r)
  | Cancel l d r => fst (cancel_device_activation st l d r)
  | Suspend fr now data => fst (suspend_device fr st now data)
  | Restore fr now data => fst (restore_device fr st now data)
  | Delete now data => fst (delete_device st now data)
  | CancelActivation now data => fst (cancel_activation st now data)
  end.

Definition run (st : Store) (ops : list Op) : Store := fold_left step ops st.

(** The two operations that turn a suspended row active again. *)
Definition is_restore (op : Op) : bool :=
  match op with
  | Activate _ _ _ | Restore _ _ _ => true
  | _ => false
  end.

(** Every license row called [lid] has the device limit [n]. *)
Definition limit_is (st : Store) (lid : string) (n : Z) : Prop :=
  forall l, In l (licenses st) -> license_id l = lid -> device_limit l = n.

(** The history entry of one heartbeat. *)
Definition heartbeat_entry (lid did : string) (call : Z * option string * option string)
    : HistoryEntry :=
  let '(_, name, ip) := call in
  mkHistoryEntry lid heartbeat (Some did) ip (device_name_details name).

(** What a row keeps through a heartbeat. *)
Definition binding (d : DeviceActivation) : string * string * bool :=
  (da_license_id d, da_device_id d, is_active d).

(** Repeated verification from one device, each call with its own clock
    reading, device name and address. *)
Fixpoint heartbeats (st : Store) (activation_code email device_id : string)
    (calls : list (Z * option string * option string))
    : Store * list VerifyResult :=
  match calls with
  | [] => (st, [])
  | (now, name, ip) :: rest =>
      let '(st1, r) := verify_license_with_email st now activation_code email
                         (Some device_id) name ip in
      let '(st2, rs) := heartbeats st1 activation_code email device_id rest in
      (st2, r :: rs)
  end.

End Ledger.

(** ** The design document's wording of two operations *)

Module Spec.
Import Db.

Definition plan_default (p : Plan) : option Z :=
  match p with
  | monthly => Some 31
  | yearly => Some 365
  | lifetime => None
  end.

(** "Explicit override wins; else plan default." *)
Definition spec_resolve_duration (p : Plan) (override : option Z) : option Z :=
  match override with
  | Some d => Some d
  | None => plan_default p
  end.

(** "Computes valid_until as issuance instant + duration, or absent for
    lifetime." *)
Definition spec_valid_until (now : Z) (p : Plan) (override : option Z) : option Z :=
  match p with
  | lifetime => None
  | _ =>
      match spec_resolve_duration p override with
      | Some d => Some (now + Clock.seconds_of_days d)
      | None => None
      end
  end.

(** An override of zero days read as no override. *)
Definition nonzero (override : option Z) : option Z :=
  match override with
  | Some d => if d =? 0 then None else Some d
  | None => None
  end.

(** "If valid_until is null, sets it to now+days; else adds days to the
    existing value." *)
Definition spec_extend_validity (now days : Z) (valid_until : option Z) : option Z :=
  match valid_until with
  | None => Some (now + Clock.seconds_of_days days)
  | Some t => Some (t + Clock.seconds_of_days days)
  end.

End Spec.

(** ** A small database for the examples *)

Module Example.
Import Db.

(** 2024-01-01 00:00:00 UTC. *)
Definition t0 : Z := 1704067200.

Definition code1 : string := "TK2PT-8EADY-U6YS4".

Definition lic1 : License :=
  mkLicense "LIC-1A2B3C4D" code1 "Ann@Example.com" monthly 1
            (Some t0) (Some (t0 + Clock.seconds_of_days 31)) None active.

Definition store1 : Store := mkStore [lic1] [] [] [].

Definition mac1 : DeviceActivation :=
  mkDeviceActivation "LIC-1A2B3C4D" "mac-1" (Some "MacBook") (Some "10.0.0.1")
                     (Some t0) true.

(** [lic1] with its one slot taken by [mac-1]. *)
Definition store_full : Store := mkStore [lic1] [mac1] [] [].

(** [lic1] with [mac-1] suspended. *)
Definition store_suspended : Store :=
  mkStore [lic1] [set_active false mac1] [] [].

(** The same license after its revocation. *)
Definition store_revoked : Store :=
  mkStore [Manager.set_status revoked lic1] [mac1]
          [mkRevokedLicense "LIC-1A2B3C4D" "chargeback" (Some "admin")] [].

Definition entropy1 : Manager.Entropy :=
  Manager.mkEntropy 1700000000000 123456789012345678901234567890
                    0x1a2b3c4d5e6f708192a3b4c5d6e7f809 t0 t0
                    "date value out of range".

Definition credentials (device : string) : Api.Json :=
  [("activation_code", code1); ("email", "ann@example.com"); ("device_id", device)].

Definition API_KEY : string := "oneclip-api-key-2024".

(** A verification request with a code that no license has. *)
Definition request_unknown_code : Api.Json :=
  [("license", "AAAAA-AAAAA-AAAAA"); ("email", "ann@example.com");
   ("device_id", "mac-1")].

(** A verification request with the code of [lic1] and another email. *)
Definition request_wrong_email : Api.Json :=
  [("license", code1); ("email", "bob@example.com"); ("device_id", "mac-1")].

(** First activation of [mac-1], its suspension, first activation of
    [mac-2], restoration of [mac-1] by the license holder. *)
Definition trace_restore : list Ledger.Op :=
  [ Ledger.Verify (t0 + 60) code1 "ann@example.com" (Some "mac-1") (Some "MacBook") None;
    Ledger.Suspend false (t0 + 120) (credentials "mac-1");
    Ledger.Verify (t0 + 180) code1 "ann@example.com" (Some "mac-2") (Some "Mac mini") None;
    Ledger.Restore false (t0 + 240) (credentials "mac-1") ].

(** The same with the manager's [deactivate_device] and [activate_device]. *)
Definition trace_activate : list Ledger.Op :=
  [ Ledger.Verify (t0 + 60) code1 "ann@example.com" (Some "mac-1") (Some "MacBook") None;
    Ledger.Deactivate "LIC-1A2B3C4D" "mac-1" "lost";
    Ledger.Verify (t0 + 180) code1 "ann@example.com" (Some "mac-2") (Some "Mac mini") None;
    Ledger.Activate "LIC-1A2B3C4D" "mac-1" "found" ].

End Example.

(** ** Reports and batches of the manager ([get_license_statistics],
       [get_device_activation_status], [batch_generate]) *)

Module Reports.
Import PyStr Db Manager.

Definition count {A} (p : A -> bool) (l : list A) : Z :=
  Z.of_nat (List.length (filter p l)).

Definition is_active_license (l : License) : bool := Status_eqb (status l) active.

(** The members of the statistics that are counts of rows; the fifth
    member, the activations per day of the last 30 days, reads the
    creation time of the history rows. *)
Record Statistics := mkStatistics {
  total_licenses : Z;
  active_licenses : Z;
  plan_statistics : list (Plan * Z);
  active_devices : Z }.

(** [SELECT plan, COUNT ... WHERE status = "active" GROUP BY plan]: one
    item for each plan that has an active license. *)
Definition plan_counts (st : Store) : list (Plan * Z) :=
  filter (fun pc => 0 <? snd pc)
    (map (fun p => (p, count (fun l => is_active_license l && Plan_eqb (plan l) p)
                             (licenses st)))
         [monthly; yearly; lifetime]).

Definition get_license_statistics (st : Store) : Statistics :=
  mkStatistics (Z.of_nat (List.length (licenses st)))
               (count is_active_license (licenses st))
               (plan_counts st)
               (count is_active (device_activations st)).

(** The row of a device joined with its license. *)
Record DeviceStatus := mkDeviceStatus {
  ds_is_active : bool;
  ds_device_name : option string;
  ds_ip_address : option string;
  ds_last_seen_at : option Z;
  ds_activation_code : string;
  ds_email : string;
  ds_device_limit : Z }.

(** [SELECT da.*, l.activation_code, l.email, l.device_limit
     FROM device_activations da JOIN licenses l ON da.license_id = l.license_id
     WHERE da.license_id = %s AND da.device_id = %s], first row; [None] is
    the answer [{'exists': False}]. *)
Definition get_device_activation_status (st : Store) (lid did : string)
    : option DeviceStatus :=
  match find (is_device lid did) (device_activations st) with
  | None => None
  | Some da =>
      match find (fun l => String.eqb (da_license_id da) (license_id l)) (licenses st) with
      | None => None
      | Some l =>
          Some (mkDeviceStatus (is_active da) (device_name da) (ip_address da)
                  (last_seen_at da) (activation_code l) (email l) (device_limit l))
      end
  end.

Inductive BatchResult :=
  | BatchError (error : string)
  | Batch (issued : list License).

(** [f"邮箱数量({len(emails)})与许可证数量({count})不匹配"] *)
Definition ERR_BATCH (emails count : Z) : string :=
  ("邮箱数量(" ++ str_of_int emails ++ ")与许可证数量(" ++ str_of_int count
   ++ ")不匹配")%string.

(** The loop over the emails; [entropy i] is what the [i]-th issuance
    reads from the clock and the random source.  A failed issuance is
    skipped. *)
Fixpoint batch_loop (st : Store) (entropy : nat -> Entropy) (i : nat)
    (plan : option string) (emails : list string) (device_cap : Z)
    (days : option Z) (user_hint : option string) : Store * list License :=
  match emails with
  | [] => (st, [])
  | email :: rest =>
      match generate_license_with_email st (entropy i) plan email device_cap
              days user_hint with
      | (st1, Issued l) =>
          let '(st2, ls) := batch_loop st1 entropy (S i) plan rest device_cap
                              days user_hint in
          (st2, l :: ls)
      | (st1, IssueError _) =>
          batch_loop st1 entropy (S i) plan rest device_cap days user_hint
      end
  end.

Definition batch_generate (st : Store) (entropy : nat -> Entropy)
    (plan : option string) (count : Z) (emails : list string) (device_cap : Z)
    (days : option Z) (user_hint : option string) : Store * BatchResult :=
  if negb (Z.of_nat (List.length emails) =? count)
  then (st, BatchError (ERR_BATCH (Z.of_nat (List.length emails)) count))
  else
    let '(st', ls) := batch_loop st entropy 1 plan emails device_cap days user_hint in
    (st', Batch ls).

End Reports.

(** ** The endpoints of the administrator and the revocation check *)

Module Admin.
Import PyStr Db Manager Api.

Definition UNAUTHORIZED : Response :=
  failure 401 "未登录或会话已超时" (Some "UNAUTHORIZED").

Definition MISSING_LICENSE_ID : Response := failure 400 "缺少 license_id" None.

Definition OK : Response := mkResponse 200 true "" None None.

(** [POST /api/admin/restore]: the license becomes active again and its
    revocation record is deleted; the license is not looked up first. *)
Definition admin_restore_license (st : Store) (admin : bool)
    (license_id : option string) : Store * Response :=
  if negb admin then (st, UNAUTHORIZED)
  else
    match truthy license_id with
    | None => (st, MISSING_LICENSE_ID)
    | Some lid =>
        let st1 := with_licenses st
                     (map (fun l => if String.eqb (Db.license_id l) lid
                                    then set_status active l else l) (licenses st)) in
        let st2 := with_revoked st1
                     (filter (fun r => negb (has_key lid r)) (revoked_licenses st1)) in
        (st2, OK)
    end.

(** [POST /api/admin/delete]: the license and every row that names it. *)
Definition admin_delete_license (st : Store) (admin : bool)
    (license_id : option string) : Store * Response :=
  if negb admin then (st, UNAUTHORIZED)
  else
    match truthy license_id with
    | None => (st, MISSING_LICENSE_ID)
    | Some lid =>
        (mkStore
           (filter (fun l => negb (String.eqb (Db.license_id l) lid)) (licenses st))
           (filter (fun d => negb (String.eqb (da_license_id d) lid))
                   (device_activations st))
           (filter (fun r => negb (has_key lid r)) (revoked_licenses st))
           (filter (fun h => negb (String.eqb (h_license_id h) lid))
                   (activation_history st)),
         OK)
    end.

Definition set_device_limit (n : Z) (l : License) : License :=
  mkLicense (Db.license_id l) (activation_code l) (email l) (plan l) n
            (issued_at l) (valid_until l) (user_hint l) (status l).

(** [POST /api/admin/update-device-cap]; [device_cap] is the member of
    that name, 5 when absent. *)
Definition admin_update_device_cap (st : Store) (admin : bool)
    (license_id : option string) (device_cap : option Z) : Store * Response :=
  if negb admin then (st, UNAUTHORIZED)
  else
    let device_cap := match device_cap with Some n => n | None => 5 end in
    match truthy license_id with
    | None => (st, MISSING_LICENSE_ID)
    | Some lid =>
        (with_licenses st
           (map (fun l => if String.eqb (Db.license_id l) lid
                          then set_device_limit device_cap l else l) (licenses st)),
         OK)
    end.

Definition set_valid_until (v : option Z) (l : License) : License :=
  mkLicense (Db.license_id l) (activation_code l) (email l) (plan l)
            (device_limit l) (issued_at l) v (user_hint l) (status l).

(** [WHERE plan = p AND valid_until IS NULL] *)
Definition lacks_expiry (p : Plan) (l : License) : bool :=
  Plan_eqb (plan l) p
  && match valid_until l with None => true | Some _ => false end.

(** [UPDATE licenses SET valid_until = DATE_ADD(issued_at, INTERVAL d DAY)
     WHERE plan = p AND valid_until IS NULL] *)
Definition backfill (p : Plan) (d : Z) (st : Store) : Store :=
  with_licenses st
    (map (fun l => if lacks_expiry p l
                   then set_valid_until (Clock.sql_date_add (issued_at l) d) l
                   else l) (licenses st)).

(** What [cursor.rowcount] reports for that statement: the rows matched
    under the client flag FOUND_ROWS, otherwise the rows whose value
    changed. *)
Definition backfill_rowcount (found_rows : bool) (p : Plan) (d : Z) (st : Store) : nat :=
  List.length
    (filter (fun l => lacks_expiry p l
                      && (found_rows
                          || match Clock.sql_date_add (issued_at l) d with
                             | Some _ => true
                             | None => false
                             end))
            (licenses st)).

Inductive BackfillResult :=
  | BackfillDenied
  | Backfilled (monthly_fixed yearly_fixed : nat).

(** [POST /api/admin/backfill-valid-until]: 30 days for the monthly and
    365 days for the yearly licenses without expiry. *)
Definition admin_backfill_valid_until (found_rows : bool) (st : Store)
    (admin : bool) : Store * BackfillResult :=
  if negb admin then (st, BackfillDenied)
  else
    let monthly_fixed := backfill_rowcount found_rows monthly 30 st in
    let st1 := backfill monthly 30 st in
    let yearly_fixed := backfill_rowcount found_rows yearly 365 st1 in
    let st2 := backfill yearly 365 st1 in
    (st2, Backfilled monthly_fixed yearly_fixed).

(** The answer of the revocation check. *)
Inductive RevokeStatus :=
  | CheckFailed (http : Z) (code : string)
  | NotRevoked
  | Revoked (reason : string) (revoked_by : option string).

(** [POST /api/check-revoke-status]: the first revocation record of the
    license, joined with a license row of that identifier and email. *)
Definition check_revoke_status (st : Store) (API_KEY : string)
    (api_key : option string) (data : Json) : RevokeStatus :=
  match truthy api_key with
  | None => CheckFailed 401 "INVALID_API_KEY"
  | Some k =>
      if negb (String.eqb k API_KEY) then CheckFailed 401 "INVALID_API_KEY"
      else
        let license_id := strip (get_default data "license_id" "") in
        let email := strip (get_default data "email" "") in
        if String.eqb license_id "" || String.eqb email ""
        then CheckFailed 400 "MISSING_PARAMS"
        else
          match find (fun r => has_key license_id r
                               && existsb (fun l => String.eqb (rl_license_id r)
                                                               (Db.license_id l)
                                                    && String.eqb (Db.email l) email)
                                          (licenses st))
                     (revoked_licenses st) with
          | Some r => Revoked (reason r) (revoked_by r)
          | None => NotRevoked
          end
  end.

(** [POST /api/admin/deactivate-device]: the row count of the update is
    the only test that the device exists. *)
Definition admin_deactivate_device (found_rows : bool) (st : Store) (admin : bool)
    (data : Json) : Store * Response :=
  if negb admin then (st, UNAUTHORIZED)
  else
    let reason := get_default data "reason" "管理员停用" in
    match truthy (get data "license_id"), truthy (get data "device_id") with
    | Some license_id, Some device_id =>
        if Nat.eqb (update_rowcount found_rows false license_id device_id st) 0
        then (st, failure 404 MSG_NO_DEVICE None)
        else
          let st1 := update_device (set_active false) license_id device_id st in
          let st2 := log st1 (mkHistoryEntry license_id deactivate (Some device_id) None
                                [("reason", Some reason);
                                 ("deactivated_by", Some "admin")]) in
          (st2, OK)
    | _, _ => (st, failure 400 "缺少 license_id 或 device_id" None)
    end.

End Admin.

(** ** MD5 ([hashlib.md5]) *)

Module Md5.

Definition rotl (n x : Z) : Z :=
  Sha256.w32 (Z.lor (Z.shiftl x n) (Z.shiftr x (32 - n))).

Definition not32 (x : Z) : Z := Z.lxor x 4294967295.

(** The additive constants, [floor (2^32 * abs (sin (i + 1)))]. *)
Definition T : list Z :=
  [ 3614090360; 3905402710; 606105819; 3250441966;
    4118548399; 1200080426; 2821735955; 4249261313;
    1770035416; 2336552879; 4294925233; 2304563134;
    1804603682; 4254626195; 2792965006; 1236535329;
    4129170786; 3225465664; 643717713; 3921069994;
    3593408605; 38016083; 3634488961; 3889429448;
    568446438; 3275163606; 4107603335; 1163531501;
    2850285829; 4243563512; 1735328473; 2368359562;
    4294588738; 2272392833; 1839030562; 4259657740;
    2763975236; 1272893353; 4139469664; 3200236656;
    681279174; 3936430074; 3572445317; 76029189;
    3654602809; 3873151461; 530742520; 3299628645;
    4096336452; 1126891415; 2878612391; 4237533241;
    1700485571; 2399980690; 4293915773; 2240044497;
    1873313359; 4264355552; 2734768916; 1309151649;
    4149444226; 3174756917; 718787259; 3951481745 ].

(** The rotation of step [i]. *)
Definition shift (i : Z) : Z :=
  nth (Z.to_nat (4 * (i / 16) + i mod 4))
      [7; 12; 17; 22; 5; 9; 14; 20; 4; 11; 16; 23; 6; 10; 15; 21] 0.

Record state := mkState { A : Z; B : Z; C : Z; D : Z }.

Definition init : state := mkState 0x67452301 0xefcdab89 0x98badcfe 0x10325476.

(** The mixing function and the index of the message word of step [i]. *)
Definition mix (i : Z) (s : state) : Z * Z :=
  if i <? 16 then
    (Z.lor (Z.land (B s) (C s)) (Z.land (not32 (B s)) (D s)), i)
  else if i <? 32 then
    (Z.lor (Z.land (D s) (B s)) (Z.land (not32 (D s)) (C s)), (5 * i + 1) mod 16)
  else if i <? 48 then
    (Z.lxor (Z.lxor (B s) (C s)) (D s), (3 * i + 5) mod 16)
  else
    (Z.lxor (C s) (Z.lor (B s) (not32 (D s))), (7 * i) mod 16).

Definition step (m : list Z) (s : state) (i : Z) : state :=
  let '(f, g) := mix i s in
  let f' := Sha256.w32 (f + A s + nth (Z.to_nat i) T 0 + nth (Z.to_nat g) m 0) in
  mkState (D s) (Sha256.w32 (B s + rotl (shift i) f')) (B s) (C s).

Definition le_word (b : list Z) : Z :=
  fold_right (fun x acc => x + 256 * acc) 0 b.

Fixpoint le_words (n : nat) (b : list Z) : list Z :=
  match n with
  | O => []
  | S k => le_word (firstn 4 b) :: le_words k (skipn 4 b)
  end.

Definition compress (s : state) (block : list Z) : state :=
  let s' := fold_left (step (le_words 16 block)) (map Z.of_nat (seq 0 64)) s in
  mkState (Sha256.w32 (A s + A s')) (Sha256.w32 (B s + B s'))
          (Sha256.w32 (C s + C s')) (Sha256.w32 (D s + D s')).

Definition le_bytes (n : nat) (x : Z) : list Z :=
  map (fun i => (x / 2 ^ (8 * Z.of_nat i)) mod 256) (seq 0 n).

Definition pad (msg : list Z) : list Z :=
  let len := Z.of_nat (List.length msg) in
  msg ++ [128] ++ repeat 0 (Z.to_nat ((55 - len) mod 64))
      ++ le_bytes 8 ((8 * len) mod 2 ^ 64).

Fixpoint blocks (n : nat) (s : state) (b : list Z) : state :=
  match n with
  | O => s
  | S k => blocks k (compress s (firstn 64 b)) (skipn 64 b)
  end.

Definition digest (msg : list Z) : list Z :=
  let p := pad msg in
  let s := blocks (Nat.div (List.length p) 64) init p in
  le_bytes 4 (A s) ++ le_bytes 4 (B s) ++ le_bytes 4 (C s) ++ le_bytes 4 (D s).

(** [hexdigest()]. *)
Definition hexdigest (msg : list Z) : string := Sha256.hex_of_bytes (digest msg).

End Md5.

(** ** Payment signatures ([generate_yipay_sign], [verify_yipay_sign],
       [generate_zpay_sign]) *)

Module Payment.
Import PyStr.

(** The parameters of a payment request or notification: the items of a
    Python dict with string values, in insertion order. *)
Definition Params := list (string * string).

Fixpoint get (params : Params) (key : string) : option string :=
  match params with
  | [] => None
  | (k, v) :: rest => if String.eqb k key then Some v else get rest key
  end.

(** [params[key] = value]: an existing item keeps its place. *)
Fixpoint set (params : Params) (key value : string) : Params :=
  match params with
  | [] => [(key, value)]
  | (k, v) :: rest =>
      if String.eqb k key then (k, value) :: rest else (k, v) :: set rest key value
  end.

(** [sorted(items)] on the items of a dict, whose keys are distinct: by
    key, in code point order.  On any list of items Python's sort is
    [sorted_items] below, which agrees with this one on every dict (lemma
    [sorted_items_by_key]). *)
Fixpoint insert (kv : string * string) (l : Params) : Params :=
  match l with
  | [] => [kv]
  | x :: rest => if String.leb (fst kv) (fst x) then kv :: l else x :: insert kv rest
  end.

Fixpoint sorted (l : Params) : Params :=
  match l with
  | [] => []
  | kv :: rest => insert kv (sorted rest)
  end.

(** [dict(items)]: the dict that the assignments [d[k] = v] build, one
    item after the other; a key that comes again keeps its place and
    takes the new value, so the keys of a dict are pairwise distinct. *)
Definition dict (items : list (string * string)) : Params :=
  fold_left (fun d kv => set d (fst kv) (snd kv)) items [].

(** The order of Python on [(key, value)] tuples: by key, and by value
    between equal keys. *)
Definition item_leb (a b : string * string) : bool :=
  if String.eqb (fst a) (fst b) then String.leb (snd a) (snd b)
  else String.leb (fst a) (fst b).

Fixpoint insert_item (kv : string * string) (l : Params) : Params :=
  match l with
  | [] => [kv]
  | x :: rest => if item_leb kv x then kv :: l else x :: insert_item kv rest
  end.

(** [sorted(items)] on any list of items. *)
Fixpoint sorted_items (l : Params) : Params :=
  match l with
  | [] => []
  | kv :: rest => insert_item kv (sorted_items rest)
  end.

(** ['&'.join(parts)]. *)
Fixpoint join (sep : string) (parts : list string) : string :=
  match parts with
  | [] => ""
  | [p] => p
  | p :: rest => (p ++ sep ++ join sep rest)%string
  end.

Definition pair_text (kv : string * string) : string :=
  (fst kv ++ "=" ++ snd kv)%string.

(** The string that is hashed: the kept items, sorted, as [k=v] joined by
    ampersands, followed by the merchant key. *)
Definition sign_string (keep : string * string -> bool) (params : Params)
    (key : string) : string :=
  (join "&" (map pair_text (sorted (filter keep params))) ++ key)%string.

(** [if v and k != 'sign'] *)
Definition yipay_keeps (kv : string * string) : bool :=
  negb (String.eqb (snd kv) "") && negb (String.eqb (fst kv) "sign").

(** [if v and k not in ['sign', 'sign_type']] *)
Definition zpay_keeps (kv : string * string) : bool :=
  negb (String.eqb (snd kv) "")
  && negb (String.eqb (fst kv) "sign" || String.eqb (fst kv) "sign_type").

Definition generate_yipay_sign (params : Params) (key : string) : string :=
  Md5.hexdigest (encode_utf8 (sign_string yipay_keeps params key)).

Definition verify_yipay_sign (params : Params) (key : string) : bool :=
  let received_sign := match get params "sign" with Some s => s | None => "" end in
  let calculated_sign := generate_yipay_sign params key in
  String.eqb received_sign calculated_sign.

Definition generate_zpay_sign (params : Params) (key : string) : string :=
  lower (Md5.hexdigest (encode_utf8 (sign_string zpay_keeps params key))).

End Payment.

(** ** Reading a code back *)

Module Decode.
Import PyStr CodeGen.

(** The position of a symbol in the alphabet, 0 for a stranger. *)
Fixpoint index_in (c : ascii) (s : string) (i : Z) : Z :=
  match s with
  | EmptyString => 0
  | String d r => if Ascii.eqb c d then i else index_in c r (i + 1)
  end.

Definition symbol_index (c : ascii) : Z := index_in c CHARSET 0.

(** The number a string of symbols denotes in base 32, most significant
    symbol first. *)
Fixpoint decode_from (acc : Z) (s : string) : Z :=
  match s with
  | EmptyString => acc
  | String c r => decode_from (acc * 32 + symbol_index c) r
  end.

Definition decode (s : string) : Z := decode_from 0 s.

(** A symbol of the alphabet that is none of 0, 1, O, I. *)
Definition unambiguous (c : ascii) : bool :=
  in_charset c && negb (contains_char c "01OI").

Fixpoint count_char (c : ascii) (s : string) : nat :=
  match s with
  | EmptyString => O
  | String d r => ((if Ascii.eqb c d then 1 else 0) + count_char c r)%nat
  end.

(** A letter, a digit or one of the signs an address may hold. *)
Definition is_address_char (c : ascii) : bool :=
  Manager.is_alnum c || contains_char c "._%+-@".

End Decode.

(** ** One row through the backfill *)

Module Backfill.
Import Db Admin.

(** What the statement of the backfill does to one row. *)
Definition fill (p : Plan) (d : Z) (l : License) : License :=
  if lacks_expiry p l then set_valid_until (Clock.sql_date_add (issued_at l) d) l
  else l.

(** Whether the statement would change the row. *)
Definition fillable (p : Plan) (d : Z) (l : License) : bool :=
  lacks_expiry p l
  && match Clock.sql_date_add (issued_at l) d with
     | Some _ => true
     | None => false
     end.

End Backfill.

(** ** Scenarios *)

Module Scenario.
Import Db Manager Api.

(** The row and the history entry of a first activation. *)
Definition new_row (lid : string) (now : Z) (name ip : option string) (did : string)
    : DeviceActivation :=
  mkDeviceActivation lid did name ip (Some now) true.

Definition activate_entry (lid : string) (name ip : option string) (did : string)
    : HistoryEntry :=
  mkHistoryEntry lid activate (Some did) ip (device_name_details name).

(** The history entry of a revocation. *)
Definition revoke_entry (lid reason : string) (by_ : option string) : HistoryEntry :=
  mkHistoryEntry lid revoke None None [("reason", Some reason); ("revoked_by", by_)].

(** First verifications of a list of devices, one after the other. *)
Fixpoint activations (st : Store) (now : Z) (activation_code email : string)
    (devices : list string) (name ip : option string)
    : Store * list VerifyResult :=
  match devices with
  | [] => (st, [])
  | did :: rest =>
      let '(st1, r) := verify_license_with_email st now activation_code email
                         (Some did) name ip in
      let '(st2, rs) := activations st1 now activation_code email rest name ip in
      (st2, r :: rs)
  end.

(** Whether the request of a device endpoint names a code and an email
    that pass verification. *)
Definition credentials_ok (st : Store) (now : Z) (data : Json) : bool :=
  match truthy (get data "activation_code"), truthy (get data "email") with
  | Some activation_code, Some email =>
      is_valid (snd (verify_license_with_email st now activation_code email
                       None None None))
  | _, _ => false
  end.

(** Every row of the device is active. *)
Definition all_active (st : Store) (lid did : string) : bool :=
  forallb (fun d => negb (is_device lid did d) || is_active d) (device_activations st).

(** Every row of the device is suspended. *)
Definition all_suspended (st : Store) (lid did : string) : bool :=
  forallb (fun d => negb (is_device lid did d) || negb (is_active d))
          (device_activations st).

End Scenario.

(** ** Calls that overlap *)

Module Race.
Import PyStr Db Manager.

(** The arguments of one call of [verify_license_with_email] and the
    clock it reads. *)
Record Call := mkCall {
  c_now : Z;
  c_code : string;
  c_email : string;
  c_device_id : option string;
  c_name : option string;
  c_ip : option string }.

(** Where a call stands.  Every call opens a connection of its own
    ([get_connection]), sets no isolation level and takes no lock; its
    three SELECT statements are steps of their own, each answered from the
    database as it is at that moment, and what the call writes (the UPDATE
    or the INSERT of the row, and the history entry) reaches the database
    at its one [commit].  What a call holds between two statements is the
    license row it fetched and the branch it is in. *)
Inductive Thread :=
  | Start (c : Call)
  | Licensed (c : Call) (result : License) (did : string)
  | Known (c : Call) (result : License) (did : string)
  | Fresh (c : Call) (result : License) (did : string)
  | Counted (c : Call) (result : License) (did : string)
  | Returned (r : VerifyResult).

(** The next statement of a call, on the database as it is now. *)
Definition advance (st : Store) (t : Thread) : Store * Thread :=
  match t with
  | Start c =>
      match select_active_license st (c_code c) with
      | None => (st, Returned (Invalid ERR_CODE_NOT_FOUND))
      | Some result =>
          if negb (String.eqb (lower (Db.email result)) (lower (c_email c)))
          then (st, Returned (Invalid ERR_EMAIL_MISMATCH))
          else if expired (c_now c) result then (st, Returned (Invalid ERR_EXPIRED))
          else
            match truthy (c_device_id c) with
            | None => (st, Returned (Valid (info_of result None)))
            | Some did => (st, Licensed c result did)
            end
      end
  | Licensed c result did =>
      match find (is_device (license_id result) did) (device_activations st) with
      | Some existing_device =>
          if is_active existing_device then (st, Known c result did)
          else (st, Returned (Invalid ERR_DEVICE_SUSPENDED))
      | None => (st, Fresh c result did)
      end
  | Known c result did =>
      let lid := license_id result in
      let st1 := update_device (touch (c_now c) (c_name c) (c_ip c)) lid did st in
      let st2 := log st1 (mkHistoryEntry lid heartbeat (Some did) (c_ip c)
                            (device_name_details (c_name c))) in
      (st2, Returned (Valid (info_of result (Some MSG_DEVICE_ACTIVE))))
  | Fresh c result did =>
      let current_devices := count_active st (license_id result) in
      if current_devices >=? device_limit result
      then (st, Returned (Invalid (ERR_QUOTA (device_limit result))))
      else (st, Counted c result did)
  | Counted c result did =>
      let lid := license_id result in
      let row := mkDeviceActivation lid did (c_name c) (c_ip c)
                   (Some (c_now c)) true in
      let st1 := with_devices st (device_activations st ++ [row]) in
      let st2 := log st1 (mkHistoryEntry lid activate (Some did) (c_ip c)
                            (device_name_details (c_name c))) in
      (st2, Returned (Valid (info_of result None)))
  | Returned r => (st, t)
  end.

(** The call number [i] of the pool makes its next step. *)
Fixpoint step_at (i : nat) (st : Store) (pool : list Thread) : Store * list Thread :=
  match pool with
  | [] => (st, [])
  | t :: rest =>
      match i with
      | O => (fst (advance st t), snd (advance st t) :: rest)
      | S j => (fst (step_at j st rest), t :: snd (step_at j st rest))
      end
  end.

(** A schedule names, step after step, the call that moves. *)
Definition interleave (schedule : list nat) (st : Store) (pool : list Thread)
    : Store * list Thread :=
  fold_left (fun sp i => step_at i (fst sp) (snd sp)) schedule (st, pool).

(** No call of the pool has more than four steps; in the serial schedule
    of [n] calls each call makes its four before the next one starts. *)
Definition serial_from (first n : nat) : list nat :=
  flat_map (fun i => repeat i 4) (seq first n).

Definition serial (n : nat) : list nat := serial_from 0 n.

(** The calls one after the other, each as the function of the manager. *)
Fixpoint one_by_one (st : Store) (calls : list Call) : Store * list VerifyResult :=
  match calls with
  | [] => (st, [])
  | c :: rest =>
      let sr := verify_license_with_email st (c_now c) (c_code c) (c_email c)
                  (c_device_id c) (c_name c) (c_ip c) in
      (fst (one_by_one (fst sr) rest), snd sr :: snd (one_by_one (fst sr) rest))
  end.

(** What a call holds of the license it fetched. *)
Definition result_of (t : Thread) : option License :=
  match t with
  | Licensed _ result _ | Known _ result _ | Fresh _ result _
  | Counted _ result _ => Some result
  | Start _ | Returned _ => None
  end.

(** A call that has counted for license [lid] and not yet committed. *)
Definition pending (lid : string) (t : Thread) : Z :=
  match t with
  | Counted _ result _ => if String.eqb (license_id result) lid then 1 else 0
  | _ => 0
  end.

Definition total_pending (lid : string) (pool : list Thread) : Z :=
  fold_right (fun t acc => pending lid t + acc) 0 pool.

(** What the calls of a pool know of the limit of license [lid]. *)
Definition Knows (lid : string) (limit : Z) (t : Thread) : Prop :=
  forall r, result_of t = Some r -> license_id r = lid -> device_limit r = limit.

(** The invariant of a pool under any schedule: the active rows and the
    calls that have counted, together, stay below the limit plus the
    number of calls less one. *)
Definition Within (lid : string) (limit : Z) (sp : Store * list Thread) : Prop :=
  (forall l, In l (licenses (fst sp)) -> license_id l = lid -> device_limit l = limit)
  /\ Forall (Knows lid limit) (snd sp)
  /\ count_active (fst sp) lid + total_pending lid (snd sp)
     <= limit + Z.max 0 (Z.of_nat (List.length (snd sp)) - 1).

Definition succeeded (t : Thread) : bool :=
  match t with
  | Returned r => is_valid r
  | _ => false
  end.

(** Two first activations on the one free slot of [Example.lic1]. *)
Definition first_activation (device : string) : Call :=
  mkCall (Example.t0 + 60) Example.code1 "ann@example.com" (Some device) None None.

Definition racing_calls : list Call :=
  [first_activation "mac-1"; first_activation "mac-2"].

(** Both calls count before either commits. *)
Definition racing_schedule : list nat := [0; 1; 0; 1; 0; 1; 0; 1]%nat.

End Race.

(** * Properties *)

(** ** Generic facts *)

Lemma forallb_range (P : Z -> bool) (n : nat) :
  forallb P (map Z.of_nat (seq 0 n)) = true ->
  forall i, 0 <= i < Z.of_nat n -> P i = true.
Proof.
  intros H i Hi.
  rewrite forallb_forall in H. apply H.
  apply in_map_iff. exists (Z.to_nat i). split.
  - lia.
  - apply in_seq. lia.
Qed.

Lemma forall_chars_app (p : ascii -> bool) (a b : string) :
  PyStr.forall_chars p (a ++ b)%string
  = PyStr.forall_chars p a && PyStr.forall_chars p b.
Proof.
  induction a as [|c a IH]; simpl.
  - reflexivity.
  - rewrite IH. now rewrite andb_assoc.
Qed.

Lemma forall_chars_substring (p : ascii -> bool) (s : string) :
  PyStr.forall_chars p s = true ->
  forall a n, PyStr.forall_chars p (substring a n s) = true.
Proof.
  induction s as [|c s IH]; intros H a n.
  - destruct a, n; reflexivity.
  - simpl in H. apply andb_true_iff in H as [Hc Hs].
    destruct a as [|a]; destruct n as [|n]; simpl; auto.
    rewrite Hc. simpl. apply IH. exact Hs.
Qed.

Lemma substring_0_0 (s : string) : substring 0 0 s = EmptyString.
Proof. now destruct s. Qed.

Lemma length_app_string (a b : string) :
  String.length (a ++ b)%string = (String.length a + String.length b)%nat.
Proof. induction a as [|c a IH]; simpl; [reflexivity | now rewrite IH]. Qed.

(** ** SHA-256 against the published test vectors *)

Example sha256_empty :
  Sha256.hexdigest (PyStr.encode_utf8 "")
  = "e3b0c44298fc1c149afbf4c8996fb92427ae41e4649b934ca495991b7852b855".
Proof. vm_compute. reflexivity. Qed.

Example sha256_abc :
  Sha256.hexdigest (PyStr.encode_utf8 "abc")
  = "ba7816bf8f01cfea414140de5dae2223b00361a396177a9cb410ff61f20015ad".
Proof. vm_compute. reflexivity. Qed.

Example sha256_two_blocks :
  Sha256.hexdigest
    (PyStr.encode_utf8 "abcdbcdecdefdefgefghfghighijhijkijkljklmklmnlmnomnopnopq")
  = "248d6a61d20638b8e5c026930c3e6039a33ce45964ff2167f6ecedd419db06c1".
Proof. vm_compute. reflexivity. Qed.

(** ** The code generator *)

Example activation_code_example :
  CodeGen.generate_activation_code 1700000000000 123456789012345678901234567890
  = Some "TK2PT-8EADY-U6YS4".
Proof. vm_compute. reflexivity. Qed.

Section CodeGenFacts.
Import PyStr CodeGen.

Lemma CHARSET_LENGTH_32 : CHARSET_LENGTH = 32.
Proof. reflexivity. Qed.

Lemma py_index_charset (i : Z) :
  0 <= i < 32 -> exists c, py_index CHARSET i = Some c /\ in_charset c = true.
Proof.
  intros Hi.
  pose (P := fun i => match py_index CHARSET i with
                      | Some c => in_charset c
                      | None => false
                      end).
  assert (HP : P i = true).
  { apply (forallb_range P 32); [vm_compute; reflexivity | exact Hi]. }
  unfold P in HP. destruct (py_index CHARSET i) as [c|]; [|discriminate].
  exists c. split; [reflexivity | exact HP].
Qed.

Lemma symbol_of_byte_spec (b : Z) :
  py_index CHARSET (b mod CHARSET_LENGTH) = Some (symbol_of_byte b)
  /\ in_charset (symbol_of_byte b) = true.
Proof.
  unfold symbol_of_byte.
  destruct (py_index_charset (b mod CHARSET_LENGTH)) as [c [Hc Hin]].
  - rewrite CHARSET_LENGTH_32. apply Z.mod_pos_bound. lia.
  - rewrite Hc. split; [reflexivity | exact Hin].
Qed.

Lemma short_id_loop_total (n : nat) :
  forall combined acc,
    forall_chars in_charset acc = true ->
    exists s, short_id_loop n combined acc = Some s
              /\ String.length s = (n + String.length acc)%nat
              /\ forall_chars in_charset s = true.
Proof.
  induction n as [|n IH]; intros combined acc Hacc; simpl.
  - exists acc. auto.
  - destruct (symbol_of_byte_spec combined) as [Hc Hin].
    rewrite Hc.
    destruct (IH (combined / CHARSET_LENGTH) (String (symbol_of_byte combined) acc))
      as [s [Hs [Hlen Hall]]].
    + simpl. now rewrite Hin, Hacc.
    + exists s. repeat split; auto. rewrite Hlen. simpl. lia.
Qed.

Lemma generate_short_id_total (time_ms uuid_int : Z) :
  exists s, generate_short_id time_ms uuid_int = Some s
            /\ String.length s = 11%nat
            /\ forall_chars in_charset s = true.
Proof.
  unfold generate_short_id.
  destruct (short_id_loop_total 11
              ((time_ms mod 36 ^ 6) * 36 ^ 5 + uuid_int mod 36 ^ 5) "" eq_refl)
    as [s [Hs [Hlen Hall]]].
  exists s. auto.
Qed.

Lemma int16_hex_pair (x : Z) :
  0 <= x < 256 ->
  int16 (String (Sha256.hex_digit (x / 16))
           (String (Sha256.hex_digit (x mod 16)) "")) = Some x.
Proof.
  intros Hx.
  pose (P := fun x =>
    match int16 (String (Sha256.hex_digit (x / 16))
                   (String (Sha256.hex_digit (x mod 16)) "")) with
    | Some y => y =? x
    | None => false
    end).
  assert (HP : P x = true).
  { apply (forallb_range P 256); [vm_compute; reflexivity | exact Hx]. }
  unfold P in HP.
  destruct (int16 _) as [y|]; [|discriminate].
  apply Z.eqb_eq in HP. now subst.
Qed.

Lemma checksum_loop_bytes (b0 b1 b2 b3 : Z) (rest : list Z) :
  0 <= b0 < 256 -> 0 <= b1 < 256 -> 0 <= b2 < 256 -> 0 <= b3 < 256 ->
  checksum_loop (seq 0 4) (Sha256.hex_of_bytes (b0 :: b1 :: b2 :: b3 :: rest)) ""
  = Some (string_of_list_ascii (map symbol_of_byte [b0; b1; b2; b3])).
Proof.
  intros H0 H1 H2 H3.
  pose proof (proj1 (symbol_of_byte_spec b0)) as S0.
  pose proof (proj1 (symbol_of_byte_spec b1)) as S1.
  pose proof (proj1 (symbol_of_byte_spec b2)) as S2.
  pose proof (proj1 (symbol_of_byte_spec b3)) as S3.
  cbn [seq checksum_loop Sha256.hex_of_bytes py_slice substring
       Nat.mul Nat.add Nat.sub].
  rewrite (int16_hex_pair b0 H0). cbv beta iota. rewrite S0.
  rewrite (int16_hex_pair b1 H1). cbv beta iota. rewrite S1.
  rewrite (int16_hex_pair b2 H2). cbv beta iota. rewrite S2.
  rewrite substring_0_0.
  rewrite (int16_hex_pair b3 H3). cbv beta iota. rewrite S3.
  reflexivity.
Qed.

Lemma word_bytes_range (w : Z) :
  Forall (fun b => 0 <= b < 256) (Sha256.word_bytes w).
Proof.
  unfold Sha256.word_bytes.
  repeat constructor; apply Z.mod_pos_bound; lia.
Qed.

(** On an identifier of eleven characters the checksum is the one the
    design document describes. *)
Lemma calculate_checksum_11 (s : string) :
  String.length s = 11%nat ->
  calculate_checksum s = Some (spec_checksum s).
Proof.
  intros Hlen. unfold calculate_checksum, spec_checksum.
  rewrite Hlen. cbn [Nat.eqb negb].
  unfold Sha256.hexdigest, Sha256.digest.
  set (st := Sha256.hash (encode_utf8 s)).
  pose proof (word_bytes_range (Sha256.ha st)) as Hr.
  unfold Sha256.word_bytes in *.
  cbn [app firstn].
  inversion Hr as [|? ? R0 Hr1]; subst.
  inversion Hr1 as [|? ? R1 Hr2]; subst.
  inversion Hr2 as [|? ? R2 Hr3]; subst.
  inversion Hr3 as [|? ? R3 _]; subst.
  now rewrite checksum_loop_bytes.
Qed.

Lemma spec_checksum_shape (s : string) :
  String.length (spec_checksum s) = 4%nat
  /\ forall_chars in_charset (spec_checksum s) = true.
Proof.
  unfold spec_checksum, Sha256.digest, Sha256.word_bytes.
  cbn [app firstn map string_of_list_ascii String.length forall_chars].
  split; [reflexivity|].
  now rewrite !(proj2 (symbol_of_byte_spec _)).
Qed.

Lemma in_charset_not_hyphen (c : ascii) :
  in_charset c = true -> Ascii.eqb c "-" = false.
Proof.
  intros H. destruct (Ascii.eqb c "-") eqn:E; [|reflexivity].
  apply Ascii.eqb_eq in E. subst. discriminate H.
Qed.

Lemma remove_hyphens_charset (s : string) :
  forall_chars in_charset s = true -> remove_hyphens s = s.
Proof.
  induction s as [|c s IH]; simpl; intros H; [reflexivity|].
  apply andb_true_iff in H as [Hc Hs].
  rewrite (in_charset_not_hyphen c Hc), (IH Hs). reflexivity.
Qed.

Lemma remove_hyphens_app (a b : string) :
  remove_hyphens (a ++ b)%string = (remove_hyphens a ++ remove_hyphens b)%string.
Proof.
  induction a as [|c a IH]; simpl; [reflexivity|].
  destruct (Ascii.eqb c "-"); simpl; now rewrite IH.
Qed.

Lemma split_5_5_1 (s t : string) :
  String.length s = 11%nat ->
  (py_slice 0 5 s ++ py_slice 5 10 s ++ py_slice 10 11 s ++ t)%string
  = (s ++ t)%string.
Proof.
  intros H.
  do 11 (destruct s as [|? s]; [discriminate H|]).
  destruct s; [reflexivity | discriminate H].
Qed.

Lemma substring_app_left (a b : string) :
  substring 0 (String.length a) (a ++ b)%string = a.
Proof. induction a as [|c a IH]; simpl; [now destruct b | now rewrite IH]. Qed.

Lemma substring_app_right (a b : string) :
  substring (String.length a) (String.length b) (a ++ b)%string = b.
Proof.
  induction a as [|c a IH]; simpl; [|exact IH].
  induction b as [|c b IHb]; simpl; [reflexivity | now rewrite IHb].
Qed.

End CodeGenFacts.

(** On the strings of the 8-bit model [calculate_checksum] has no error:
    on an input whose length is not 11 it returns the empty string, and
    on an input of 11 characters it returns four characters of the
    32-symbol alphabet. *)
Lemma calculate_checksum_latin1_total (short_id : string) :
  exists checksum,
    CodeGen.calculate_checksum short_id = Some checksum
    /\ ((String.length short_id <> 11%nat /\ checksum = "")
        \/ (String.length short_id = 11%nat
            /\ String.length checksum = 4%nat
            /\ PyStr.forall_chars CodeGen.in_charset checksum = true)).
Proof.
  destruct (Nat.eq_dec (String.length short_id) 11) as [E|NE].
  - exists (CodeGen.spec_checksum short_id).
    split; [now apply calculate_checksum_11|].
    right. split; [exact E | apply spec_checksum_shape].
  - exists "". split.
    + unfold CodeGen.calculate_checksum.
      apply Nat.eqb_neq in NE. now rewrite NE.
    + left. split; [exact NE | reflexivity].
Qed.

Section UnicodeFacts.
Import PyStr CodeGen Unicode.

Lemma ord_range (c : ascii) : 0 <= ord c < 256.
Proof. unfold ord. pose proof (nat_ascii_bounded c). lia. Qed.

Lemma of_string_length (s : string) :
  List.length (of_string s) = String.length s.
Proof.
  unfold of_string. rewrite length_map.
  induction s as [|c s IH]; simpl; [reflexivity | now rewrite IH].
Qed.

(** The general encoder extends the one of the 8-bit strings. *)
Lemma encode_of_string (s : string) :
  Unicode.encode_utf8 (of_string s) = Some (PyStr.encode_utf8 s).
Proof.
  unfold of_string.
  induction s as [|c s IH]; [reflexivity|].
  cbn [list_ascii_of_string map Unicode.encode_utf8 PyStr.encode_utf8].
  rewrite IH. unfold utf8_code_point, utf8_char.
  pose proof (ord_range c) as Hc.
  destruct (ord c <? 128); [reflexivity|].
  assert (E : (ord c <? 2048) = true) by (apply Z.ltb_lt; lia).
  now rewrite E.
Qed.

Lemma calculate_checksum_of_string (s : string) :
  Unicode.calculate_checksum (of_string s) = CodeGen.calculate_checksum s.
Proof.
  unfold Unicode.calculate_checksum, CodeGen.calculate_checksum.
  now rewrite of_string_length, encode_of_string.
Qed.

Lemma utf8_code_point_none (c : Z) :
  utf8_code_point c = None <-> is_surrogate c = true.
Proof.
  unfold utf8_code_point, is_surrogate.
  destruct (Z.ltb_spec c 128); [split; [discriminate|]|].
  - intros E. apply andb_true_iff in E as [E _]. apply Z.leb_le in E. lia.
  - destruct (Z.ltb_spec c 2048); [split; [discriminate|]|].
    + intros E. apply andb_true_iff in E as [E _]. apply Z.leb_le in E. lia.
    + destruct ((55296 <=? c) && (c <=? 57343)); [tauto|].
      destruct (c <? 65536); split; discriminate.
Qed.

Lemma encode_utf8_none (s : Unicode.str) :
  Unicode.encode_utf8 s = None <-> existsb is_surrogate s = true.
Proof.
  induction s as [|c s IH]; cbn [Unicode.encode_utf8 existsb].
  - split; discriminate.
  - rewrite orb_true_iff, <- IH, <- utf8_code_point_none.
    destruct (utf8_code_point c) as [b|]; [|tauto].
    destruct (Unicode.encode_utf8 s) as [bs|]; [|tauto].
    split; [discriminate | intros [E|E]; discriminate E].
Qed.

(** Whatever the bytes hashed, the loop ends with four symbols. *)
Lemma checksum_of_digest (bytes : list Z) :
  exists checksum,
    checksum_loop (seq 0 4) (Sha256.hexdigest bytes) "" = Some checksum
    /\ String.length checksum = 4%nat
    /\ forall_chars in_charset checksum = true.
Proof.
  unfold Sha256.hexdigest, Sha256.digest.
  set (st := Sha256.hash bytes).
  pose proof (word_bytes_range (Sha256.ha st)) as Hr.
  unfold Sha256.word_bytes in *.
  cbn [app].
  inversion Hr as [|? ? R0 Hr1]; subst.
  inversion Hr1 as [|? ? R1 Hr2]; subst.
  inversion Hr2 as [|? ? R2 Hr3]; subst.
  inversion Hr3 as [|? ? R3 _]; subst.
  rewrite checksum_loop_bytes by assumption.
  eexists. split; [reflexivity|].
  cbn [map string_of_list_ascii String.length forall_chars].
  split; [reflexivity|].
  now rewrite !(proj2 (symbol_of_byte_spec _)).
Qed.

End UnicodeFacts.

(** C10, as the code has it.  The length guard comes first: on a string
    whose length is not 11 [calculate_checksum] returns the empty string,
    whatever its characters.  On a string of 11 characters it returns
    four characters of the 32-symbol alphabet, unless the string holds a
    surrogate code point: then, and only then, it raises, since
    [short_id.encode('utf-8')] has no handler. *)
Theorem calculate_checksum_total (short_id : Unicode.str) :
  match Unicode.calculate_checksum short_id with
  | Some checksum =>
      (List.length short_id <> 11%nat /\ checksum = "")
      \/ (List.length short_id = 11%nat
          /\ existsb Unicode.is_surrogate short_id = false
          /\ String.length checksum = 4%nat
          /\ PyStr.forall_chars CodeGen.in_charset checksum = true)
  | None =>
      List.length short_id = 11%nat
      /\ existsb Unicode.is_surrogate short_id = true
  end.
Proof.
  unfold Unicode.calculate_checksum.
  destruct (Nat.eqb_spec (List.length short_id) 11) as [E|NE]; cbn [negb].
  - destruct (Unicode.encode_utf8 short_id) as [bytes|] eqn:Henc.
    + destruct (checksum_of_digest bytes) as [checksum [-> [Hlen Hall]]].
      right. repeat split; try assumption.
      destruct (existsb Unicode.is_surrogate short_id) eqn:S; [|reflexivity].
      apply encode_utf8_none in S. congruence.
    + split; [exact E | now apply encode_utf8_none].
  - left. now split.
Qed.

(** C10 as stated fails: a string of eleven surrogate code points has
    length 11 and makes [calculate_checksum] raise. *)
Lemma calculate_checksum_surrogate_counterexample :
  List.length (repeat 55296 11) = 11%nat
  /\ Unicode.calculate_checksum (repeat 55296 11) = None.
Proof. split; reflexivity. Qed.

(** C7. Every generated activation code round-trips and validates itself:
    without its hyphens it is the 11-character identifier followed by the
    4-character checksum, [calculate_checksum] of its first 11 characters
    is its last 4 characters, and that checksum is made of the first four
    bytes of the SHA-256 digest of the identifier, each reduced modulo 32
    and looked up in the alphabet. *)
Theorem generated_code_round_trips (time_ms uuid_int : Z) :
  exists short_id checksum code,
    CodeGen.generate_short_id time_ms uuid_int = Some short_id
    /\ CodeGen.generate_activation_code time_ms uuid_int = Some code
    /\ String.length short_id = 11%nat
    /\ String.length checksum = 4%nat
    /\ CodeGen.remove_hyphens code = (short_id ++ checksum)%string
    /\ CodeGen.calculate_checksum (PyStr.py_slice 0 11 (CodeGen.remove_hyphens code))
       = Some (PyStr.py_slice 11 15 (CodeGen.remove_hyphens code))
    /\ checksum = CodeGen.spec_checksum short_id.
Proof.
  destruct (generate_short_id_total time_ms uuid_int) as [sid [Hsid [Hlen Hall]]].
  destruct (spec_checksum_shape sid) as [Hck Hckall].
  pose proof (calculate_checksum_11 sid Hlen) as Hsum.
  exists sid, (CodeGen.spec_checksum sid).
  eexists. split; [exact Hsid|].
  split; [unfold CodeGen.generate_activation_code; rewrite Hsid, Hsum; reflexivity|].
  assert (Hrm : CodeGen.remove_hyphens
            (PyStr.py_slice 0 5 sid ++ "-" ++ PyStr.py_slice 5 10 sid ++ "-"
             ++ PyStr.py_slice 10 11 sid ++ CodeGen.spec_checksum sid)%string
          = (sid ++ CodeGen.spec_checksum sid)%string).
  { rewrite !remove_hyphens_app.
    unfold PyStr.py_slice.
    rewrite (remove_hyphens_charset (substring 0 _ sid))
      by (apply forall_chars_substring; assumption).
    rewrite (remove_hyphens_charset (substring 5 _ sid))
      by (apply forall_chars_substring; assumption).
    rewrite (remove_hyphens_charset (substring 10 _ sid))
      by (apply forall_chars_substring; assumption).
    rewrite (remove_hyphens_charset (CodeGen.spec_checksum sid)) by assumption.
    change (CodeGen.remove_hyphens "-") with "".
    cbn [append].
    apply (split_5_5_1 sid _ Hlen). }
  repeat split; try assumption.
  rewrite Hrm. unfold PyStr.py_slice.
  change (11 - 0)%nat with 11%nat. change (15 - 11)%nat with 4%nat.
  pose proof (substring_app_left sid (CodeGen.spec_checksum sid)) as L.
  pose proof (substring_app_right sid (CodeGen.spec_checksum sid)) as R.
  rewrite Hlen in L. rewrite Hlen, Hck in R.
  rewrite L, R. exact Hsum.
Qed.
(** ** The device ledger *)

Section LedgerFacts.
Import PyStr Db Manager Api Ledger.

Lemma filter_length_map {A} (p : A -> bool) (f : A -> A) (l : list A) :
  (forall x, p (f x) = true -> p x = true) ->
  (List.length (filter p (map f l)) <= List.length (filter p l))%nat.
Proof.
  intros H. induction l as [|x l IH]; simpl; [lia|].
  destruct (p (f x)) eqn:E.
  - rewrite (H x E). simpl. lia.
  - destruct (p x); simpl; lia.
Qed.

Lemma filter_length_map_eq {A} (p : A -> bool) (f : A -> A) (l : list A) :
  (forall x, p (f x) = p x) ->
  List.length (filter p (map f l)) = List.length (filter p l).
Proof.
  intros H. induction l as [|x l IH]; simpl; [reflexivity|].
  rewrite H. destruct (p x); simpl; now rewrite IH.
Qed.

Lemma filter_length_filter {A} (p q : A -> bool) (l : list A) :
  (List.length (filter p (filter q l)) <= List.length (filter p l))%nat.
Proof.
  induction l as [|x l IH]; simpl; [lia|].
  destruct (q x); simpl; destruct (p x); simpl; lia.
Qed.

Lemma count_active_log (st : Store) (h : HistoryEntry) (lid : string) :
  count_active (log st h) lid = count_active st lid.
Proof. reflexivity. Qed.

Lemma count_active_touch (st : Store) (now : Z) (name ip : option string)
    (lid did lid' : string) :
  count_active (update_device (touch now name ip) lid did st) lid'
  = count_active st lid'.
Proof.
  unfold count_active, update_device. simpl.
  rewrite filter_length_map_eq; [reflexivity|].
  intros d. now destruct (is_device lid did d).
Qed.

Lemma count_active_suspend (st : Store) (lid did lid' : string) :
  count_active (update_device (set_active false) lid did st) lid'
  <= count_active st lid'.
Proof.
  unfold count_active, update_device. simpl.
  apply inj_le, filter_length_map.
  intros d. destruct (is_device lid did d); [|auto].
  unfold is_active_of, set_active. simpl. now rewrite andb_false_r.
Qed.

Lemma count_active_delete (st : Store) (lid did lid' : string) :
  count_active (delete_device_rows lid did st) lid' <= count_active st lid'.
Proof.
  unfold count_active, delete_device_rows. simpl.
  apply inj_le, filter_length_filter.
Qed.

Lemma count_active_insert (st : Store) (row : DeviceActivation) (lid : string) :
  count_active (with_devices st (device_activations st ++ [row])) lid
  = count_active st lid + (if is_active_of lid row then 1 else 0).
Proof.
  unfold count_active. simpl. rewrite filter_app, length_app. simpl.
  destruct (is_active_of lid row); simpl; lia.
Qed.

(** Suspending a device that holds an active row lowers the count. *)
Lemma count_active_suspend_active (st : Store) (lid did : string) :
  existsb (fun d => is_device lid did d && is_active d) (device_activations st) = true ->
  count_active (update_device (set_active false) lid did st) lid + 1
  <= count_active st lid.
Proof.
  unfold count_active, update_device. simpl.
  induction (device_activations st) as [|d l IH]; simpl; [discriminate|].
  intros H. apply orb_true_iff in H as [H|H].
  - apply andb_true_iff in H as [Hd Ha].
    rewrite Hd.
    assert (E : is_active_of lid d = true).
    { unfold is_active_of. unfold is_device in Hd.
      apply andb_true_iff in Hd as [Hl _]. now rewrite Hl, Ha. }
    rewrite E.
    assert (F : is_active_of lid (set_active false d) = false).
    { unfold is_active_of, set_active. simpl. apply andb_false_r. }
    rewrite F. simpl.
    pose proof (filter_length_map (is_active_of lid)
                  (fun d => if is_device lid did d then set_active false d else d) l) as M.
    assert (M' : (List.length (filter (is_active_of lid)
                    (map (fun d => if is_device lid did d then set_active false d else d) l))
                  <= List.length (filter (is_active_of lid) l))%nat).
    { apply M. intros x. destruct (is_device lid did x); [|auto].
      unfold is_active_of, set_active. simpl. now rewrite andb_false_r. }
    lia.
  - specialize (IH H).
    destruct (is_device lid did d) eqn:Hd.
    + assert (F : is_active_of lid (set_active false d) = false).
      { unfold is_active_of, set_active. simpl. apply andb_false_r. }
      rewrite F. destruct (is_active_of lid d); simpl; lia.
    + destruct (is_active_of lid d); simpl; lia.
Qed.

Lemma select_active_license_spec (st : Store) (c : string) (l : License) :
  select_active_license st c = Some l ->
  In l (licenses st) /\ activation_code l = c /\ status l = active.
Proof.
  unfold select_active_license. intros H.
  apply find_some in H as [Hin Hp].
  apply andb_true_iff in Hp as [Hc Hs].
  apply String.eqb_eq in Hc.
  repeat split; auto. now destruct (status l).
Qed.

Lemma find_update_device (f : DeviceActivation -> DeviceActivation)
    (lid did lid' did' : string) (l : list DeviceActivation) :
  (forall d, is_device lid' did' (f d) = is_device lid' did' d) ->
  find (is_device lid' did')
       (map (fun d => if is_device lid did d then f d else d) l)
  = option_map (fun d => if is_device lid did d then f d else d)
               (find (is_device lid' did') l).
Proof.
  intros H. induction l as [|d l IH]; simpl; [reflexivity|].
  destruct (is_device lid did d) eqn:E.
  - rewrite H. destruct (is_device lid' did' d); simpl; [now rewrite E | exact IH].
  - destruct (is_device lid' did' d); simpl; [now rewrite E | exact IH].
Qed.

Lemma find_none_existsb {A} (p : A -> bool) (l : list A) :
  existsb p l = false <-> find p l = None.
Proof.
  induction l as [|x l IH]; simpl; [tauto|].
  destruct (p x); simpl; [split; discriminate | exact IH].
Qed.

Lemma existsb_active_has_device (st : Store) (lid did : string) :
  existsb (fun d => is_device lid did d && is_active d) (device_activations st) = true ->
  has_device st lid did = true.
Proof.
  unfold has_device. rewrite !existsb_exists.
  intros [d [Hin Hd]]. apply andb_true_iff in Hd as [Hd _]. now exists d.
Qed.

Lemma find_is_device (lid did : string) (l : list DeviceActivation) (d : DeviceActivation) :
  find (is_device lid did) l = Some d -> is_device lid did d = true.
Proof. intros H. now apply find_some in H. Qed.

Lemma string_eqb_neq_empty (s : string) : s <> "" -> String.eqb s "" = false.
Proof. intros H. now apply String.eqb_neq. Qed.

End LedgerFacts.

(** C3, as the code has it.  On a license whose active devices fill its
    device limit, suspending one of them ([deactivate_device]) keeps the
    row but gives the slot back: the first verification of a new device
    succeeds and binds it, within the limit, while the suspended device
    itself is refused with the "device suspended" error until it is
    restored. *)
Theorem suspension_frees_the_slot
    (st : Db.Store) (now : Z) (code email : string) (lic : Db.License)
    (did new_did reason : string) (name ip : option string) :
  Manager.select_active_license st code = Some lic ->
  PyStr.lower (Db.email lic) = PyStr.lower email ->
  Manager.expired now lic = false ->
  existsb (fun d => Db.is_device (Db.license_id lic) did d && Db.is_active d)
          (Db.device_activations st) = true ->
  Db.count_active st (Db.license_id lic) = Db.device_limit lic ->
  did <> "" -> new_did <> "" ->
  Manager.has_device st (Db.license_id lic) new_did = false ->
  exists st1 st2,
    Manager.deactivate_device st (Db.license_id lic) did reason = (st1, true)
    /\ Manager.verify_license_with_email st1 now code email (Some new_did) name ip
       = (st2, Manager.Valid (Manager.info_of lic None))
    /\ existsb (fun d => Db.is_device (Db.license_id lic) new_did d && Db.is_active d)
               (Db.device_activations st2) = true
    /\ Db.count_active st2 (Db.license_id lic) <= Db.device_limit lic
    /\ Manager.verify_license_with_email st1 now code email (Some did) name ip
       = (st1, Manager.Invalid Manager.ERR_DEVICE_SUSPENDED).
Proof.
  intros Hsel Hmail Hexp Hact Hfull Hdid Hnew Hfresh.
  set (lid := Db.license_id lic) in *.
  pose proof (existsb_active_has_device st lid did Hact) as Hhas.
  unfold Manager.deactivate_device. rewrite Hhas. cbn [negb].
  eexists. eexists. split; [reflexivity|].
  set (st1 := Db.log (Db.update_device (Db.set_active false) lid did st) _).
  assert (Hsel1 : Manager.select_active_license st1 code = Some lic) by exact Hsel.
  assert (Hcount : Db.count_active st1 lid + 1 <= Db.device_limit lic).
  { rewrite <- Hfull. subst st1. rewrite count_active_log.
    now apply count_active_suspend_active. }
  assert (Hnone : find (Db.is_device lid new_did) (Db.device_activations st1) = None).
  { subst st1. cbn [Db.log Db.update_device Db.with_devices Db.device_activations].
    rewrite find_update_device by reflexivity.
    unfold Manager.has_device in Hfresh. apply find_none_existsb in Hfresh.
    now rewrite Hfresh. }
  assert (Hsusp : exists d, find (Db.is_device lid did) (Db.device_activations st1)
                            = Some (Db.set_active false d)).
  { subst st1. cbn [Db.log Db.update_device Db.with_devices Db.device_activations].
    rewrite find_update_device by reflexivity.
    destruct (find (Db.is_device lid did) (Db.device_activations st)) as [d|] eqn:F.
    - exists d. simpl. now rewrite (find_is_device _ _ _ _ F).
    - apply find_none_existsb in F. unfold Manager.has_device in Hhas. congruence. }
  unfold Manager.verify_license_with_email.
  rewrite Hsel1, Hmail, String.eqb_refl, Hexp. cbn [negb Manager.truthy].
  rewrite (string_eqb_neq_empty _ Hnew), (string_eqb_neq_empty _ Hdid).
  fold lid. rewrite Hnone.
  destruct Hsusp as [d Hd]. rewrite Hd. cbn [Db.set_active Db.is_active].
  assert (Hlt : (Db.count_active st1 lid >=? Db.device_limit lic) = false).
  { rewrite Z.geb_leb. apply Z.leb_gt. lia. }
  rewrite Hlt.
  split; [reflexivity|]. split; [|split; [|reflexivity]].
  - cbn [Db.log Db.with_devices Db.device_activations].
    rewrite existsb_app. apply orb_true_iff. right. simpl.
    unfold Db.is_device. simpl. now rewrite !String.eqb_refl.
  - rewrite count_active_log, count_active_insert.
    assert (E : Db.is_active_of lid
                  (Db.mkDeviceActivation lid new_did name ip (Some now) true) = true).
    { unfold Db.is_active_of. cbn [Db.da_license_id Db.is_active].
      now rewrite String.eqb_refl. }
    rewrite E. exact Hcount.
Qed.

Lemma suspension_frees_the_slot_witness :
  exists st1 st2,
    Manager.deactivate_device Example.store_full (Db.license_id Example.lic1)
      "mac-1" "lost" = (st1, true)
    /\ Manager.verify_license_with_email st1 (Example.t0 + 180) Example.code1
         "ann@example.com" (Some "mac-2") (Some "Mac mini") None
       = (st2, Manager.Valid (Manager.info_of Example.lic1 None))
    /\ existsb (fun d => Db.is_device (Db.license_id Example.lic1) "mac-2" d
                         && Db.is_active d)
               (Db.device_activations st2) = true
    /\ Db.count_active st2 (Db.license_id Example.lic1) <= Db.device_limit Example.lic1
    /\ Manager.verify_license_with_email st1 (Example.t0 + 180) Example.code1
         "ann@example.com" (Some "mac-1") (Some "Mac mini") None
       = (st1, Manager.Invalid Manager.ERR_DEVICE_SUSPENDED).
Proof.
  apply (suspension_frees_the_slot Example.store_full (Example.t0 + 180)
           Example.code1 "ann@example.com" Example.lic1 "mac-1" "mac-2" "lost"
           (Some "Mac mini") None);
    try reflexivity; discriminate.
Defined.

(** C3 as stated fails: the license is full, one device is suspended, and
    the first verification of a new device is accepted instead of being
    refused for quota. *)
Lemma suspension_keeps_slot_counterexample :
  Db.count_active Example.store_full "LIC-1A2B3C4D" = Db.device_limit Example.lic1
  /\ (let st1 := fst (Manager.deactivate_device Example.store_full
                        "LIC-1A2B3C4D" "mac-1" "lost") in
      let r := snd (Manager.verify_license_with_email st1 (Example.t0 + 180)
                      Example.code1 "ann@example.com" (Some "mac-2")
                      (Some "Mac mini") None) in
      Manager.is_valid r = true
      /\ r <> Manager.Invalid (Manager.ERR_QUOTA (Db.device_limit Example.lic1))).
Proof.
  split; [reflexivity|].
  vm_compute. split; [reflexivity | discriminate].
Qed.

(** ** Heartbeat *)

Section HeartbeatFacts.
Import PyStr Db Manager Ledger.

(** One verification from a device that holds an active row. *)
Lemma heartbeat_once (st : Store) (now : Z) (code email : string) (lic : License)
    (did : string) (name ip : option string) (d : DeviceActivation) :
  select_active_license st code = Some lic ->
  lower (Db.email lic) = lower email ->
  expired now lic = false ->
  did <> "" ->
  find (is_device (license_id lic) did) (device_activations st) = Some d ->
  is_active d = true ->
  verify_license_with_email st now code email (Some did) name ip
  = (mkStore (licenses st)
       (map (fun x => if is_device (license_id lic) did x
                      then touch now name ip x else x) (device_activations st))
       (revoked_licenses st)
       (activation_history st ++ [heartbeat_entry (license_id lic) did (now, name, ip)]),
     Valid (info_of lic (Some MSG_DEVICE_ACTIVE))).
Proof.
  intros Hsel Hmail Hexp Hdid Hrow Hact.
  unfold verify_license_with_email.
  rewrite Hsel, Hmail, String.eqb_refl, Hexp. cbn [negb truthy].
  rewrite (string_eqb_neq_empty _ Hdid), Hrow, Hact. reflexivity.
Qed.

Lemma touch_binding (now : Z) (name ip : option string) (lid did : string)
    (l : list DeviceActivation) :
  map Ledger.binding (map (fun x => if is_device lid did x then touch now name ip x else x) l)
  = map Ledger.binding l.
Proof.
  rewrite map_map. apply map_ext. intros x. now destruct (is_device lid did x).
Qed.

Lemma touch_others (now : Z) (name ip : option string) (lid did : string)
    (l : list DeviceActivation) :
  filter (fun x => negb (is_device lid did x))
         (map (fun x => if is_device lid did x then touch now name ip x else x) l)
  = filter (fun x => negb (is_device lid did x)) l.
Proof.
  induction l as [|x l IH]; simpl; [reflexivity|].
  destruct (is_device lid did x) eqn:E.
  - change (is_device lid did (touch now name ip x)) with (is_device lid did x).
    rewrite E. exact IH.
  - rewrite E. simpl. now rewrite IH.
Qed.

(** A later heartbeat overwrites what an earlier one wrote. *)
Lemma touch_twice (now1 now2 : Z) (name1 ip1 name2 ip2 : option string)
    (lid did : string) (l : list DeviceActivation) :
  map (fun x => if is_device lid did x then touch now2 name2 ip2 x else x)
      (map (fun x => if is_device lid did x then touch now1 name1 ip1 x else x) l)
  = map (fun x => if is_device lid did x then touch now2 name2 ip2 x else x) l.
Proof.
  rewrite map_map. apply map_ext. intros x.
  destruct (is_device lid did x) eqn:E.
  - change (is_device lid did (touch now1 name1 ip1 x)) with (is_device lid did x).
    now rewrite E.
  - now rewrite E.
Qed.

(** Any number of heartbeats of a device that holds an active row. *)
Lemma heartbeats_spec (calls : list (Z * option string * option string)) :
  forall (st : Store) (code email : string) (lic : License) (did : string)
         (d : DeviceActivation),
    select_active_license st code = Some lic ->
    lower (Db.email lic) = lower email ->
    Forall (fun call => expired (fst (fst call)) lic = false) calls ->
    did <> "" ->
    find (is_device (license_id lic) did) (device_activations st) = Some d ->
    is_active d = true ->
    exists st',
      Ledger.heartbeats st code email did calls
      = (st', map (fun _ => Valid (info_of lic (Some MSG_DEVICE_ACTIVE))) calls)
      /\ (forall lid, count_active st' lid = count_active st lid)
      /\ licenses st' = licenses st
      /\ revoked_licenses st' = revoked_licenses st
      /\ activation_history st'
         = activation_history st
           ++ map (Ledger.heartbeat_entry (license_id lic) did) calls
      /\ device_activations st'
         = match rev calls with
           | [] => device_activations st
           | (now, name, ip) :: _ =>
               map (fun x => if is_device (license_id lic) did x
                             then touch now name ip x else x)
                   (device_activations st)
           end.
Proof.
  induction calls as [|[[now name] ip] calls IH];
    intros st code email lic did d Hsel Hmail Hexp Hdid Hrow Hact.
  - exists st. simpl. rewrite app_nil_r. repeat split; reflexivity.
  - inversion Hexp as [|? ? Hnow Hrest]; subst. simpl in Hnow.
    cbn [Ledger.heartbeats].
    rewrite (heartbeat_once st now code email lic did name ip d
               Hsel Hmail Hnow Hdid Hrow Hact).
    set (st1 := mkStore _ _ _ _).
    assert (Hrow1 : find (is_device (license_id lic) did) (device_activations st1)
                    = Some (touch now name ip d)).
    { subst st1. cbn [device_activations].
      rewrite find_update_device by reflexivity.
      rewrite Hrow. simpl. now rewrite (find_is_device _ _ _ _ Hrow). }
    destruct (IH st1 code email lic did (touch now name ip d) Hsel Hmail Hrest
                Hdid Hrow1 Hact)
      as [st' [Hrun [Hcnt [Hlic [Hrev [Hhist Hdev]]]]]].
    exists st'. rewrite Hrun. split; [reflexivity|].
    split; [|split; [exact Hlic|split; [exact Hrev|split]]].
    + intros lid. rewrite Hcnt. subst st1.
      exact (count_active_touch st now name ip (license_id lic) did lid).
    + rewrite Hhist. subst st1. cbn [activation_history map].
      now rewrite <- app_assoc.
    + rewrite Hdev. subst st1. cbn [device_activations rev].
      destruct (rev calls) as [|[[now' name'] ip'] r]; cbn [app].
      * reflexivity.
      * apply touch_twice.
Qed.

(** A code whose licenses are all out of status [active] is unknown to
    verification. *)
Lemma inactive_code_not_found (st : Store) (now : Z) (code email : string)
    (device_id name ip : option string) :
  (forall l, In l (licenses st) -> activation_code l = code -> status l <> active) ->
  verify_license_with_email st now code email device_id name ip
  = (st, Invalid ERR_CODE_NOT_FOUND).
Proof.
  intros H. unfold verify_license_with_email.
  destruct (select_active_license st code) as [l|] eqn:E; [|reflexivity].
  apply select_active_license_spec in E as [Hin [Hc Hs]].
  now destruct (H l Hin Hc).
Qed.

Lemma expired_is_refused (st : Store) (now : Z) (code email : string)
    (lic : License) (device_id name ip : option string) :
  select_active_license st code = Some lic ->
  lower (Db.email lic) = lower email ->
  expired now lic = true ->
  verify_license_with_email st now code email device_id name ip
  = (st, Invalid ERR_EXPIRED).
Proof.
  intros Hsel Hmail Hexp. unfold verify_license_with_email.
  now rewrite Hsel, Hmail, String.eqb_refl, Hexp.
Qed.

End HeartbeatFacts.

(** C5, as the code has it.  While the license is active, bound to the
    given email and not expired at the time of each call, any number of
    verifications from a device that holds an active row all succeed with
    the "device active" message; they leave the number of active rows of
    every license unchanged, never report the quota error, touch no row
    of another device and append one heartbeat entry per call.  In the
    rows of the device nothing changes but [last_seen_at], [device_name]
    and [ip_address], which hold the instant, the name and the address of
    the last call.  The success ends with the validity of the license:
    in any database in which the licenses of the code are out of status
    [active] the call is answered "code unknown or disabled", and at an
    instant after the expiry of the license it is answered "expired",
    for the bound device as for any other; neither writes. *)
Theorem heartbeat_is_idempotent
    (calls : list (Z * option string * option string))
    (st : Db.Store) (code email : string) (lic : Db.License) (did : string)
    (d : Db.DeviceActivation) :
  Manager.select_active_license st code = Some lic ->
  PyStr.lower (Db.email lic) = PyStr.lower email ->
  Forall (fun call => Manager.expired (fst (fst call)) lic = false) calls ->
  did <> "" ->
  find (Db.is_device (Db.license_id lic) did) (Db.device_activations st) = Some d ->
  Db.is_active d = true ->
  exists st',
    Ledger.heartbeats st code email did calls
    = (st', map (fun _ => Manager.Valid
                            (Manager.info_of lic (Some Manager.MSG_DEVICE_ACTIVE))) calls)
    /\ (forall lid, Db.count_active st' lid = Db.count_active st lid)
    /\ Db.licenses st' = Db.licenses st
    /\ Db.revoked_licenses st' = Db.revoked_licenses st
    /\ map Ledger.binding (Db.device_activations st') = map Ledger.binding (Db.device_activations st)
    /\ filter (fun x => negb (Db.is_device (Db.license_id lic) did x))
              (Db.device_activations st')
       = filter (fun x => negb (Db.is_device (Db.license_id lic) did x))
                (Db.device_activations st)
    /\ Db.activation_history st'
       = Db.activation_history st
         ++ map (Ledger.heartbeat_entry (Db.license_id lic) did) calls
    /\ Db.device_activations st'
       = match rev calls with
         | [] => Db.device_activations st
         | (now, name, ip) :: _ =>
             map (fun x => if Db.is_device (Db.license_id lic) did x
                           then Db.mkDeviceActivation
                                  (Db.da_license_id x) (Db.da_device_id x)
                                  name ip (Some now) (Db.is_active x)
                           else x)
                 (Db.device_activations st)
         end
    /\ (forall st0 now device_id name ip,
          (forall l, In l (Db.licenses st0) -> Db.activation_code l = code ->
                     Db.status l <> Db.active) ->
          Manager.verify_license_with_email st0 now code email device_id name ip
          = (st0, Manager.Invalid Manager.ERR_CODE_NOT_FOUND))
    /\ (forall now name ip,
          Manager.expired now lic = true ->
          Manager.verify_license_with_email st' now code email (Some did) name ip
          = (st', Manager.Invalid Manager.ERR_EXPIRED)).
Proof.
  intros Hsel Hmail Hexp Hdid Hrow Hact.
  destruct (heartbeats_spec calls st code email lic did d
              Hsel Hmail Hexp Hdid Hrow Hact)
    as [st' [Hrun [Hcnt [Hlic [Hrev [Hhist Hdev]]]]]].
  assert (Hshape : Db.device_activations st'
                   = Db.device_activations st
                     \/ exists now name ip,
                          Db.device_activations st'
                          = map (fun x => if Db.is_device (Db.license_id lic) did x
                                          then Db.touch now name ip x else x)
                                (Db.device_activations st)).
  { rewrite Hdev. destruct (rev calls) as [|[[now name] ip] r];
      [now left | right; now exists now, name, ip]. }
  exists st'. split; [exact Hrun|].
  split; [exact Hcnt|]. split; [exact Hlic|]. split; [exact Hrev|].
  split; [|split; [|split; [exact Hhist|split; [exact Hdev|split]]]].
  - destruct Hshape as [->|[now [name [ip ->]]]];
      [reflexivity | apply touch_binding].
  - destruct Hshape as [->|[now [name [ip ->]]]];
      [reflexivity | apply touch_others].
  - intros st0 now device_id name ip Hout.
    now apply inactive_code_not_found.
  - intros now name ip Hlate.
    apply (expired_is_refused st' now code email lic); try assumption.
    unfold Manager.select_active_license in *. now rewrite Hlic.
Qed.

Lemma heartbeat_is_idempotent_witness :
  exists st',
    Ledger.heartbeats Example.store_full Example.code1 "ann@example.com" "mac-1"
      [(Example.t0 + 60, Some "MacBook", Some "10.0.0.1");
       (Example.t0 + 3600, Some "MacBook Pro", Some "10.0.0.7")]
    = (st', map (fun _ => Manager.Valid
                            (Manager.info_of Example.lic1
                               (Some Manager.MSG_DEVICE_ACTIVE)))
                [(Example.t0 + 60, Some "MacBook", Some "10.0.0.1");
                 (Example.t0 + 3600, Some "MacBook Pro", Some "10.0.0.7")])
    /\ (forall lid, Db.count_active st' lid = Db.count_active Example.store_full lid)
    /\ Db.licenses st' = Db.licenses Example.store_full
    /\ Db.revoked_licenses st' = Db.revoked_licenses Example.store_full
    /\ map Ledger.binding (Db.device_activations st')
       = map Ledger.binding (Db.device_activations Example.store_full)
    /\ filter (fun x => negb (Db.is_device (Db.license_id Example.lic1) "mac-1" x))
              (Db.device_activations st')
       = filter (fun x => negb (Db.is_device (Db.license_id Example.lic1) "mac-1" x))
                (Db.device_activations Example.store_full)
    /\ Db.activation_history st'
       = Db.activation_history Example.store_full
         ++ map (Ledger.heartbeat_entry (Db.license_id Example.lic1) "mac-1")
                [(Example.t0 + 60, Some "MacBook", Some "10.0.0.1");
                 (Example.t0 + 3600, Some "MacBook Pro", Some "10.0.0.7")]
    /\ Db.device_activations st'
       = [Db.mkDeviceActivation "LIC-1A2B3C4D" "mac-1" (Some "MacBook Pro")
            (Some "10.0.0.7") (Some (Example.t0 + 3600)) true]
    /\ (forall st0 now device_id name ip,
          (forall l, In l (Db.licenses st0) ->
                     Db.activation_code l = Example.code1 ->
                     Db.status l <> Db.active) ->
          Manager.verify_license_with_email st0 now Example.code1
            "ann@example.com" device_id name ip
          = (st0, Manager.Invalid Manager.ERR_CODE_NOT_FOUND))
    /\ (forall now name ip,
          Manager.expired now Example.lic1 = true ->
          Manager.verify_license_with_email st' now Example.code1
            "ann@example.com" (Some "mac-1") name ip
          = (st', Manager.Invalid Manager.ERR_EXPIRED)).
Proof.
  apply (heartbeat_is_idempotent
           [(Example.t0 + 60, Some "MacBook", Some "10.0.0.1");
            (Example.t0 + 3600, Some "MacBook Pro", Some "10.0.0.7")]
           Example.store_full Example.code1
           "ann@example.com" Example.lic1 "mac-1" Example.mac1).
  - reflexivity.
  - reflexivity.
  - repeat constructor.
  - discriminate.
  - reflexivity.
  - reflexivity.
Defined.

(** C5 as stated fails: a device that holds an active row is turned away
    once the license is revoked, and once the license has expired. *)
Lemma heartbeat_counterexample :
  find (Db.is_device "LIC-1A2B3C4D" "mac-1")
       (Db.device_activations Example.store_revoked) = Some Example.mac1
  /\ Db.is_active Example.mac1 = true
  /\ Manager.verify_license_with_email Example.store_revoked (Example.t0 + 60)
       Example.code1 "ann@example.com" (Some "mac-1") (Some "MacBook") None
     = (Example.store_revoked, Manager.Invalid Manager.ERR_CODE_NOT_FOUND)
  /\ Manager.verify_license_with_email Example.store_full
       (Example.t0 + Clock.seconds_of_days 32)
       Example.code1 "ann@example.com" (Some "mac-1") (Some "MacBook") None
     = (Example.store_full, Manager.Invalid Manager.ERR_EXPIRED).
Proof. repeat split; reflexivity. Qed.

(** ** Revocation *)

Section RevocationFacts.
Import Db Manager.

Lemma filter_false {A} (p : A -> bool) (l : list A) :
  existsb p l = false -> filter p l = [].
Proof.
  induction l as [|x l IH]; simpl; [reflexivity|].
  destruct (p x); simpl; [discriminate | exact IH].
Qed.

Lemma unique_key_row (lid : string) (l : list RevokedLicense) :
  NoDup (map rl_license_id l) ->
  existsb (has_key lid) l = true ->
  exists r, filter (has_key lid) l = [r].
Proof.
  induction l as [|x l IH]; simpl; intros Hnd Hex; [discriminate|].
  inversion Hnd as [|? ? Hnotin Hnd']; subst.
  destruct (has_key lid x) eqn:E.
  - exists x. f_equal. apply filter_false.
    destruct (existsb (has_key lid) l) eqn:F; [|reflexivity].
    exfalso. apply Hnotin. apply existsb_exists in F as [y [Hy Hk]].
    unfold has_key in E, Hk. apply String.eqb_eq in E, Hk.
    apply in_map_iff. exists y. split; [congruence | exact Hy].
  - simpl in Hex. exact (IH Hnd' Hex).
Qed.

Lemma filter_overwrite (lid : string) (new : RevokedLicense) (l : list RevokedLicense) :
  rl_license_id new = lid ->
  filter (has_key lid) (map (fun r => if has_key lid r then new else r) l)
  = map (fun _ => new) (filter (has_key lid) l).
Proof.
  intros Hnew. induction l as [|x l IH]; simpl; [reflexivity|].
  destruct (has_key lid x) eqn:E.
  - unfold has_key at 1. rewrite Hnew, String.eqb_refl. simpl. now rewrite IH.
  - rewrite E. exact IH.
Qed.

Lemma filter_others_overwrite (lid : string) (new : RevokedLicense)
    (l : list RevokedLicense) :
  rl_license_id new = lid ->
  filter (fun r => negb (has_key lid r))
         (map (fun r => if has_key lid r then new else r) l)
  = filter (fun r => negb (has_key lid r)) l.
Proof.
  intros Hnew. induction l as [|x l IH]; simpl; [reflexivity|].
  destruct (has_key lid x) eqn:E; simpl.
  - unfold has_key at 1. rewrite Hnew, String.eqb_refl. simpl. exact IH.
  - rewrite E. simpl. now rewrite IH.
Qed.

Lemma overwrite_same (lid : string) (new : RevokedLicense) (l : list RevokedLicense) :
  (forall r, In r l -> has_key lid r = true -> r = new) ->
  map (fun r => if has_key lid r then new else r) l = l.
Proof.
  intros H. induction l as [|x l IH]; simpl; [reflexivity|].
  rewrite IH by (intros r Hr; apply H; now right).
  destruct (has_key lid x) eqn:E; [|reflexivity].
  now rewrite <- (H x (or_introl eq_refl) E).
Qed.

(** What [INSERT ... ON DUPLICATE KEY UPDATE] leaves behind. *)
Lemma upsert_revoked_spec (st : Store) (lid reason : string) (by_ : option string) :
  (NoDup (map rl_license_id (revoked_licenses st))
   \/ exists r, filter (has_key lid) (revoked_licenses st) = [r]) ->
  let st1 := upsert_revoked st lid reason by_ in
  filter (has_key lid) (revoked_licenses st1) = [mkRevokedLicense lid reason by_]
  /\ filter (fun r => negb (has_key lid r)) (revoked_licenses st1)
     = filter (fun r => negb (has_key lid r)) (revoked_licenses st)
  /\ licenses st1 = licenses st
  /\ device_activations st1 = device_activations st
  /\ activation_history st1 = activation_history st.
Proof.
  intros Huniq. unfold upsert_revoked.
  destruct (existsb (has_key lid) (revoked_licenses st)) eqn:E; cbn zeta.
  - assert (Hone : exists r, filter (has_key lid) (revoked_licenses st) = [r]).
    { destruct Huniq as [Hnd|Hone]; [now apply unique_key_row | exact Hone]. }
    destruct Hone as [r Hr].
    cbn [with_revoked revoked_licenses licenses device_activations activation_history].
    rewrite (filter_overwrite lid (mkRevokedLicense lid reason by_)) by reflexivity.
    rewrite (filter_others_overwrite lid (mkRevokedLicense lid reason by_)) by reflexivity.
    rewrite Hr. repeat split; reflexivity.
  - cbn [with_revoked revoked_licenses licenses device_activations activation_history].
    rewrite !filter_app, (filter_false _ _ E). simpl.
    unfold has_key at 1 3. simpl. rewrite String.eqb_refl. simpl.
    rewrite app_nil_r. repeat split; reflexivity.
Qed.

Lemma revoke_status_idempotent (lid : string) (l : list License) :
  map (fun x => if String.eqb (license_id x) lid then set_status revoked x else x)
      (map (fun x => if String.eqb (license_id x) lid then set_status revoked x else x) l)
  = map (fun x => if String.eqb (license_id x) lid then set_status revoked x else x) l.
Proof.
  rewrite map_map. apply map_ext. intros x.
  destruct (String.eqb (license_id x) lid) eqn:E.
  - cbn [set_status license_id]. now rewrite E.
  - now rewrite E.
Qed.

Lemma has_license_map (f : License -> License) (lid : string) (l : list License) :
  (forall x, license_id (f x) = license_id x) ->
  existsb (fun x => String.eqb (license_id x) lid) (map f l)
  = existsb (fun x => String.eqb (license_id x) lid) l.
Proof.
  intros H. induction l as [|x l IH]; simpl; [reflexivity|].
  now rewrite H, IH.
Qed.

End RevocationFacts.

(** C8. Revocation is idempotent: on an existing license, two revocations
    in a row both succeed; the license rows are the same after the second
    as after the first, with status [revoked]; the license has exactly one
    revocation record, which after the second call carries the reason and
    the author of the second call; no row is added, no record of another
    license changes, and with the same reason and author the table of
    records is the same after the second call as after the first. *)
Theorem revocation_is_idempotent
    (st : Db.Store) (lid reason1 reason2 : string) (by1 by2 : option string) :
  Manager.has_license st lid = true ->
  NoDup (map Db.rl_license_id (Db.revoked_licenses st)) ->
  exists st1 st2,
    Manager.revoke_license st lid reason1 by1 = (st1, true)
    /\ Manager.revoke_license st1 lid reason2 by2 = (st2, true)
    /\ Db.licenses st2 = Db.licenses st1
    /\ (forall l, In l (Db.licenses st2) -> Db.license_id l = lid ->
                  Db.status l = Db.revoked)
    /\ filter (Manager.has_key lid) (Db.revoked_licenses st1)
       = [Db.mkRevokedLicense lid reason1 by1]
    /\ filter (Manager.has_key lid) (Db.revoked_licenses st2)
       = [Db.mkRevokedLicense lid reason2 by2]
    /\ List.length (Db.revoked_licenses st2) = List.length (Db.revoked_licenses st1)
    /\ filter (fun r => negb (Manager.has_key lid r)) (Db.revoked_licenses st2)
       = filter (fun r => negb (Manager.has_key lid r)) (Db.revoked_licenses st)
    /\ (reason1 = reason2 -> by1 = by2 ->
        Db.revoked_licenses st2 = Db.revoked_licenses st1)
    /\ Db.device_activations st2 = Db.device_activations st.
Proof.
  intros Hhas Hnd.
  unfold Manager.revoke_license at 1. rewrite Hhas. cbn [negb].
  eexists. eexists. split; [reflexivity|].
  destruct (upsert_revoked_spec st lid reason1 by1 (or_introl Hnd))
    as [Hrow1 [Hoth1 [Hlic1 [Hdev1 Hhist1]]]].
  set (u1 := Manager.upsert_revoked st lid reason1 by1) in *.
  set (st1 := Db.log _ _).
  assert (Hrev1 : Db.revoked_licenses st1 = Db.revoked_licenses u1) by reflexivity.
  assert (Hhas1 : Manager.has_license st1 lid = true).
  { unfold Manager.has_license. subst st1.
    cbn [Db.log Db.with_licenses Db.licenses].
    rewrite has_license_map by (intros x; now destruct (String.eqb _ _)).
    rewrite Hlic1. exact Hhas. }
  unfold Manager.revoke_license. rewrite Hhas1. cbn [negb].
  destruct (upsert_revoked_spec st1 lid reason2 by2)
    as [Hrow2 [Hoth2 [Hlic2 [Hdev2 Hhist2]]]].
  { right. rewrite Hrev1. eexists. exact Hrow1. }
  set (u2 := Manager.upsert_revoked st1 lid reason2 by2) in *.
  split; [reflexivity|].
  fold u1. fold st1. fold u2.
  cbn [Db.log Db.with_licenses Db.licenses Db.revoked_licenses Db.device_activations].
  split; [|split; [|split; [|split; [|split; [|split; [|split]]]]]].
  - rewrite Hlic2. subst st1. cbn [Db.log Db.with_licenses Db.licenses].
    apply revoke_status_idempotent.
  - intros l Hin Hid. apply in_map_iff in Hin as [x [Hx _]].
    destruct (String.eqb (Db.license_id x) lid) eqn:E.
    + now subst l.
    + subst l. apply String.eqb_neq in E. contradiction.
  - exact Hrow1.
  - exact Hrow2.
  - subst u2. unfold Manager.upsert_revoked.
    assert (E : existsb (Manager.has_key lid) (Db.revoked_licenses st1) = true).
    { rewrite Hrev1. apply existsb_exists.
      exists (Db.mkRevokedLicense lid reason1 by1). split.
      - eapply proj1. apply filter_In. rewrite Hrow1. now left.
      - unfold Manager.has_key. simpl. apply String.eqb_refl. }
    rewrite E. cbn [Db.with_revoked Db.revoked_licenses].
    now rewrite length_map, Hrev1.
  - rewrite Hoth2, Hrev1. exact Hoth1.
  - intros -> ->. subst u2. unfold Manager.upsert_revoked.
    assert (E : existsb (Manager.has_key lid) (Db.revoked_licenses st1) = true).
    { rewrite Hrev1. apply existsb_exists.
      exists (Db.mkRevokedLicense lid reason2 by2). split.
      - eapply proj1. apply filter_In. rewrite Hrow1. now left.
      - unfold Manager.has_key. simpl. apply String.eqb_refl. }
    rewrite E. cbn [Db.with_revoked Db.revoked_licenses].
    rewrite Hrev1. apply overwrite_same.
    intros r Hr Hk.
    assert (Hf : In r (filter (Manager.has_key lid) (Db.revoked_licenses u1))).
    { apply filter_In. now split. }
    rewrite Hrow1 in Hf. destruct Hf as [Hf|[]]. now symmetry.
  - rewrite Hdev2. subst st1. cbn [Db.log Db.with_licenses Db.device_activations].
    exact Hdev1.
Qed.

Lemma revocation_is_idempotent_witness :
  exists st1 st2,
    Manager.revoke_license Example.store_full "LIC-1A2B3C4D" "chargeback"
      (Some "admin") = (st1, true)
    /\ Manager.revoke_license st1 "LIC-1A2B3C4D" "fraud" (Some "root") = (st2, true)
    /\ Db.licenses st2 = Db.licenses st1
    /\ (forall l, In l (Db.licenses st2) -> Db.license_id l = "LIC-1A2B3C4D" ->
                  Db.status l = Db.revoked)
    /\ filter (Manager.has_key "LIC-1A2B3C4D") (Db.revoked_licenses st1)
       = [Db.mkRevokedLicense "LIC-1A2B3C4D" "chargeback" (Some "admin")]
    /\ filter (Manager.has_key "LIC-1A2B3C4D") (Db.revoked_licenses st2)
       = [Db.mkRevokedLicense "LIC-1A2B3C4D" "fraud" (Some "root")]
    /\ List.length (Db.revoked_licenses st2) = List.length (Db.revoked_licenses st1)
    /\ filter (fun r => negb (Manager.has_key "LIC-1A2B3C4D" r)) (Db.revoked_licenses st2)
       = filter (fun r => negb (Manager.has_key "LIC-1A2B3C4D" r))
                (Db.revoked_licenses Example.store_full)
    /\ ("chargeback" = "fraud" -> Some "admin" = Some "root" ->
        Db.revoked_licenses st2 = Db.revoked_licenses st1)
    /\ Db.device_activations st2 = Db.device_activations Example.store_full.
Proof.
  apply (revocation_is_idempotent Example.store_full "LIC-1A2B3C4D"
           "chargeback" "fraud" (Some "admin") (Some "root")).
  - reflexivity.
  - simpl. constructor.
Defined.

(** ** Verification failures at the endpoint *)

Section EndpointFacts.
Import PyStr Db Manager Api.

Lemma nonempty_true (s : string) : nonempty s = true -> String.eqb s "" = false.
Proof. unfold nonempty. now destruct (String.eqb s ""). Qed.

(** The endpoint hands the manager's error text to the caller. *)
Lemma verify_license_failure (st : Store) (now : Z) (key : string)
    (remote : option string) (data : Json) (error : string) :
  key <> "" ->
  complete data = true ->
  snd (verify_license_with_email st now
         (strip (get_default data "license" ""))
         (strip (get_default data "email" ""))
         (Some (strip (get_default data "device_id" "")))
         (Some (get_default data "device_name"
                  (get_default data "platform" "macOS" ++ " "
                   ++ get_default data "appVersion" "1.0.0")%string))
         (match truthy (get data "ip_address") with
          | Some ip => Some ip
          | None => remote
          end))
  = Invalid error ->
  snd (verify_license st now key (Some key) remote data)
  = mkResponse 400 false error (Some "INVALID_LICENSE") None.
Proof.
  intros Hkey Hc Hv.
  unfold complete in Hc.
  apply andb_true_iff in Hc as [Hc Hd]. apply andb_true_iff in Hc as [Hc He].
  apply andb_true_iff in Hc as [Hn Hl].
  unfold verify_license. cbn [truthy].
  rewrite (string_eqb_neq_empty _ Hkey), String.eqb_refl. cbn [negb].
  destruct data as [|kv data]; [discriminate Hn|].
  rewrite (nonempty_true _ Hl), (nonempty_true _ He), (nonempty_true _ Hd).
  destruct (verify_license_with_email _ _ _ _ _ _ _) as [st' [info|err]];
    simpl in Hv; [discriminate|].
  now inversion Hv.
Qed.

Lemma error_texts_differ : ERR_CODE_NOT_FOUND <> ERR_EMAIL_MISMATCH.
Proof. discriminate. Qed.

End EndpointFacts.

(** C9, as the code has it.  The endpoint answers an unknown activation
    code and a known code with a non-matching email with the same HTTP
    status (400) and the same code ([INVALID_LICENSE]), but it passes the
    manager's error text on as the message, and the two texts differ: the
    message tells the caller which of the two is wrong. *)
Theorem verification_failures_differ_in_message
    (st : Db.Store) (now : Z) (key : string) (remote : option string)
    (unknown mismatch : Api.Json) (lic : Db.License) :
  key <> "" ->
  Api.complete unknown = true ->
  Api.complete mismatch = true ->
  Manager.select_active_license st
    (PyStr.strip (Api.get_default unknown "license" "")) = None ->
  Manager.select_active_license st
    (PyStr.strip (Api.get_default mismatch "license" "")) = Some lic ->
  PyStr.lower (Db.email lic)
    <> PyStr.lower (PyStr.strip (Api.get_default mismatch "email" "")) ->
  let r1 := snd (Api.verify_license st now key (Some key) remote unknown) in
  let r2 := snd (Api.verify_license st now key (Some key) remote mismatch) in
  Api.http_status r1 = 400 /\ Api.http_status r2 = 400
  /\ Api.success r1 = false /\ Api.success r2 = false
  /\ Api.code r1 = Some "INVALID_LICENSE" /\ Api.code r2 = Some "INVALID_LICENSE"
  /\ Api.message r1 = Manager.ERR_CODE_NOT_FOUND
  /\ Api.message r2 = Manager.ERR_EMAIL_MISMATCH
  /\ Api.message r1 <> Api.message r2.
Proof.
  intros Hkey Hc1 Hc2 Hnone Hsome Hmail r1 r2.
  assert (E1 : r1 = Api.mkResponse 400 false Manager.ERR_CODE_NOT_FOUND
                      (Some "INVALID_LICENSE") None).
  { apply verify_license_failure; auto.
    unfold Manager.verify_license_with_email. now rewrite Hnone. }
  assert (E2 : r2 = Api.mkResponse 400 false Manager.ERR_EMAIL_MISMATCH
                      (Some "INVALID_LICENSE") None).
  { apply verify_license_failure; auto.
    unfold Manager.verify_license_with_email. rewrite Hsome.
    apply String.eqb_neq in Hmail. now rewrite Hmail. }
  rewrite E1, E2. cbn [Api.http_status Api.success Api.code Api.message].
  repeat split; try reflexivity. exact error_texts_differ.
Qed.

Lemma verification_failures_differ_in_message_witness :
  let r1 := snd (Api.verify_license Example.store1 (Example.t0 + 60)
                   Example.API_KEY (Some Example.API_KEY) (Some "203.0.113.9")
                   Example.request_unknown_code) in
  let r2 := snd (Api.verify_license Example.store1 (Example.t0 + 60)
                   Example.API_KEY (Some Example.API_KEY) (Some "203.0.113.9")
                   Example.request_wrong_email) in
  Api.http_status r1 = 400 /\ Api.http_status r2 = 400
  /\ Api.success r1 = false /\ Api.success r2 = false
  /\ Api.code r1 = Some "INVALID_LICENSE" /\ Api.code r2 = Some "INVALID_LICENSE"
  /\ Api.message r1 = Manager.ERR_CODE_NOT_FOUND
  /\ Api.message r2 = Manager.ERR_EMAIL_MISMATCH
  /\ Api.message r1 <> Api.message r2.
Proof.
  apply (verification_failures_differ_in_message Example.store1 (Example.t0 + 60)
           Example.API_KEY (Some "203.0.113.9") Example.request_unknown_code
           Example.request_wrong_email Example.lic1);
    try reflexivity; discriminate.
Defined.

(** C9 as stated fails: the response to an unknown code and the response
    to a wrong email carry different messages. *)
Lemma verification_message_counterexample :
  Api.message (snd (Api.verify_license Example.store1 (Example.t0 + 60)
                      Example.API_KEY (Some Example.API_KEY) (Some "203.0.113.9")
                      Example.request_unknown_code))
  <> Api.message (snd (Api.verify_license Example.store1 (Example.t0 + 60)
                         Example.API_KEY (Some Example.API_KEY) (Some "203.0.113.9")
                         Example.request_wrong_email)).
Proof. vm_compute. discriminate. Qed.

(** ** Issuance *)

Section IssuanceFacts.
Import Db Manager.

Lemma resolve_days_spec (p : Plan) (days : option Z) :
  resolve_days p days
  = match p with
    | lifetime => days
    | _ => Spec.spec_resolve_duration p (Spec.nonzero days)
    end.
Proof.
  unfold resolve_days, Spec.spec_resolve_duration, Spec.nonzero, truthy_days.
  destruct p, days as [d|]; simpl; try reflexivity;
    destruct (d =? 0); reflexivity.
Qed.

Lemma resolved_days_truthy (p : Plan) (days : option Z) :
  p <> lifetime -> truthy_days (resolve_days p days) = true.
Proof.
  intros Hp. unfold resolve_days, truthy_days.
  destruct p, days as [d|]; simpl; try reflexivity; try contradiction;
    destruct (d =? 0) eqn:E; simpl; try reflexivity; now rewrite E.
Qed.

Lemma compute_valid_until_spec (now : Z) (p : Plan) (days : option Z) (v : option Z) :
  compute_valid_until now p (resolve_days p days) = Some v ->
  v = Spec.spec_valid_until now p (Spec.nonzero days).
Proof.
  destruct (Plan_eqb p lifetime) eqn:Hp.
  - destruct p; try discriminate.
    unfold compute_valid_until. simpl.
    destruct (resolve_days lifetime days) as [d|];
      [rewrite andb_false_r|]; now intros [= <-].
  - assert (Hne : p <> lifetime) by (intros ->; discriminate).
    pose proof (resolved_days_truthy p days Hne) as Ht.
    rewrite resolve_days_spec in *.
    unfold compute_valid_until, Spec.spec_valid_until.
    destruct p; try contradiction;
      (destruct (Spec.spec_resolve_duration _ (Spec.nonzero days)) as [d|];
       [|discriminate Ht]);
      rewrite Ht; cbn [Plan_eqb negb andb];
      unfold Clock.py_add_days;
      destruct (_ && _); now intros [= <-].
Qed.

End IssuanceFacts.

(** C6, as the code has it.  An issued license has the normalised plan of
    the request; its stored [valid_until] is the clock reading taken for
    it plus the resolved duration, where an explicit override other than
    zero wins and an absent or zero override gives way to the plan default
    (31 days monthly, 365 days yearly); it is never null for a monthly or
    yearly license, and it is null for a lifetime license whatever the
    override. *)
Theorem issuance_validity_window
    (st st' : Db.Store) (e : Manager.Entropy) (plan : option string)
    (email : string) (device_cap : Z) (days : option Z)
    (user_hint : option string) (l : Db.License) :
  Manager.generate_license_with_email st e plan email device_cap days user_hint
  = (st', Manager.Issued l) ->
  Manager.normalize_plan plan = Some (Db.plan l)
  /\ Db.valid_until l
     = Spec.spec_valid_until (Manager.now_valid e) (Db.plan l) (Spec.nonzero days)
  /\ (Db.plan l <> Db.lifetime -> Db.valid_until l <> None)
  /\ (Db.plan l = Db.lifetime -> Db.valid_until l = None)
  /\ Db.issued_at l = Some (Manager.now_issued e)
  /\ Db.licenses st' = Db.licenses st ++ [l].
Proof.
  unfold Manager.generate_license_with_email.
  destruct (Manager.is_valid_email email); [|discriminate].
  cbn [negb].
  destruct (Manager.normalize_plan plan) as [p|]; [|discriminate].
  destruct (CodeGen.generate_activation_code _ _) as [code|]; [|discriminate].
  destruct (Manager.compute_valid_until _ p _) as [v|] eqn:Hv; [|discriminate].
  unfold Manager.insert_license.
  destruct (existsb _ _); [discriminate|].
  intros [= <- <-]. cbn [Db.plan Db.valid_until Db.issued_at Db.with_licenses Db.licenses].
  apply compute_valid_until_spec in Hv.
  split; [reflexivity|]. split; [exact Hv|].
  split; [|split; [|split; reflexivity]].
  - intros Hp. rewrite Hv. unfold Spec.spec_valid_until, Spec.spec_resolve_duration.
    destruct p; try contradiction; destruct (Spec.nonzero days); discriminate.
  - intros ->. exact Hv.
Qed.

Lemma issuance_validity_window_witness :
  let l := Db.mkLicense "LIC-1A2B3C4D" "TK2PT-8EADY-U6YS4" "ann@example.com"
             Db.yearly 3 (Some Example.t0)
             (Some (Example.t0 + Clock.seconds_of_days 400)) (Some "gift")
             Db.active in
  Manager.normalize_plan (Some " Yearly") = Some (Db.plan l)
  /\ Db.valid_until l
     = Spec.spec_valid_until (Manager.now_valid Example.entropy1) (Db.plan l)
         (Spec.nonzero (Some 400))
  /\ (Db.plan l <> Db.lifetime -> Db.valid_until l <> None)
  /\ (Db.plan l = Db.lifetime -> Db.valid_until l = None)
  /\ Db.issued_at l = Some (Manager.now_issued Example.entropy1)
  /\ Db.licenses (Db.with_licenses Db.empty [l]) = Db.licenses Db.empty ++ [l].
Proof.
  intros l.
  apply (issuance_validity_window Db.empty (Db.with_licenses Db.empty [l])
           Example.entropy1 (Some " Yearly") "ann@example.com" 3 (Some 400)
           (Some "gift") l).
  vm_compute. reflexivity.
Defined.

(** C6 as stated fails: with an explicit override of zero days a monthly
    license is issued for the plan default of 31 days. *)
Lemma issuance_zero_override_counterexample :
  exists st' l,
    Manager.generate_license_with_email Db.empty Example.entropy1
      (Some "monthly") "ann@example.com" 5 (Some 0) None
    = (st', Manager.Issued l)
    /\ Db.valid_until l = Some (Example.t0 + Clock.seconds_of_days 31)
    /\ Db.valid_until l
       <> Spec.spec_valid_until (Manager.now_valid Example.entropy1)
            Db.monthly (Some 0).
Proof.
  eexists. eexists. split; [vm_compute; reflexivity|].
  split; [reflexivity | discriminate].
Qed.

(** ** Extension of the validity *)

Section ValidityFacts.
Import Db Api.

(** The statement always finds its first argument non-null when the new
    instant exists, whatever the license had. *)
Lemma extended_valid_until (now days : Z) (l : License) :
  Clock.in_range (now + Clock.seconds_of_days days) = true ->
  valid_until (extended now days l) = Some (now + Clock.seconds_of_days days).
Proof.
  intros H. unfold extended. cbn [valid_until Clock.sql_date_add].
  now rewrite H.
Qed.

End ValidityFacts.

(** C4 on the code: a license that expires 31 days after [t0] is extended
    by 30 days, 10 days after [t0]; the statement stores the instant 40
    days after [t0] (now + 30 days), where the design document and the
    comment above the statement ask for 61 days after [t0] (the former
    expiry + 30 days). *)
Theorem extend_validity_overwrites_expiry :
  let now := Example.t0 + Clock.seconds_of_days 10 in
  let st' := fst (Api.admin_extend_validity Example.store1 now true
                    (Some "LIC-1A2B3C4D") (Some 30)) in
  Db.valid_until Example.lic1 = Some (Example.t0 + Clock.seconds_of_days 31)
  /\ map Db.valid_until (Db.licenses st')
     = [Some (Example.t0 + Clock.seconds_of_days 40)]
  /\ Spec.spec_extend_validity now 30 (Db.valid_until Example.lic1)
     = Some (Example.t0 + Clock.seconds_of_days 61)
  /\ map Db.valid_until (Db.licenses st')
     <> [Spec.spec_extend_validity now 30 (Db.valid_until Example.lic1)].
Proof.
  cbv zeta. repeat split; try reflexivity.
  vm_compute. discriminate.
Qed.

(** ** The device quota *)

Section QuotaFacts.
Import PyStr Db Manager Api Ledger.

Ltac break_match :=
  repeat match goal with
         | |- context [match ?x with _ => _ end] => destruct x eqn:?
         end.

(** No ledger operation writes to table [licenses]. *)
Lemma cancel_licenses (st : Store) (l d r : string) :
  licenses (fst (cancel_device_activation st l d r)) = licenses st.
Proof. unfold cancel_device_activation. now destruct (negb _). Qed.

Lemma cancel_quota (st : Store) (l d r lid : string) :
  count_active (fst (cancel_device_activation st l d r)) lid <= count_active st lid.
Proof.
  unfold cancel_device_activation. destruct (negb _); cbn [fst]; [lia|].
  rewrite count_active_log. apply count_active_delete.
Qed.

Lemma step_licenses (st : Store) (op : Op) :
  licenses (step st op) = licenses st.
Proof.
  destruct op; cbn [step]; try apply cancel_licenses;
    unfold verify_license_with_email, deactivate_device, activate_device,
           suspend_device, restore_device, flip_device, delete_device,
           cancel_activation;
    break_match; try reflexivity;
    match goal with
    | H : cancel_device_activation ?s ?l ?d ?r = (?s', _) |- _ =>
        change s' with (fst (s', true)); cbn [fst];
        replace s' with (fst (cancel_device_activation s l d r))
          by (now rewrite H);
        apply cancel_licenses
    end.
Qed.

Lemma verify_quota (st : Store) (now : Z) (c e : string)
    (d n i : option string) (lid : string) (limit : Z) :
  limit_is st lid limit ->
  count_active st lid <= limit ->
  count_active (fst (verify_license_with_email st now c e d n i)) lid <= limit.
Proof.
  intros Hlim Hle. unfold verify_license_with_email.
  destruct (select_active_license st c) as [result|] eqn:Hsel; [|exact Hle].
  destruct (negb _); [exact Hle|].
  destruct (expired now result); [exact Hle|].
  destruct (truthy d) as [did|]; [|exact Hle].
  destruct (find _ _) as [existing|].
  - destruct (is_active existing); [|exact Hle].
    cbn [fst]. now rewrite count_active_log, count_active_touch.
  - destruct (count_active st (license_id result) >=? device_limit result) eqn:Hq;
      [exact Hle|].
    cbn [fst]. rewrite count_active_log, count_active_insert.
    unfold is_active_of. cbn [da_license_id is_active]. rewrite andb_true_r.
    destruct (String.eqb (license_id result) lid) eqn:E; [|lia].
    apply String.eqb_eq in E.
    apply select_active_license_spec in Hsel as [Hin _].
    rewrite (Hlim result Hin E) in Hq. rewrite E in Hq.
    rewrite Z.geb_leb in Hq. apply Z.leb_gt in Hq. lia.
Qed.

(** Every operation but the two restorations keeps a license within its
    device limit. *)
Lemma step_quota (st : Store) (op : Op) (lid : string) (limit : Z) :
  is_restore op = false ->
  limit_is st lid limit ->
  count_active st lid <= limit ->
  count_active (step st op) lid <= limit.
Proof.
  intros Hop Hlim Hle.
  destruct op; try discriminate Hop; cbn [step].
  - now apply verify_quota.
  - unfold deactivate_device. destruct (negb _); [exact Hle|].
    cbn [fst]. rewrite count_active_log.
    etransitivity; [apply count_active_suspend | exact Hle].
  - etransitivity; [apply cancel_quota | exact Hle].
  - unfold suspend_device, flip_device.
    break_match; cbn [fst]; try exact Hle.
    rewrite count_active_log.
    etransitivity; [apply count_active_suspend | exact Hle].
  - unfold delete_device.
    break_match; cbn [fst]; try exact Hle.
    rewrite count_active_log.
    etransitivity; [apply count_active_delete | exact Hle].
  - unfold cancel_activation.
    break_match; cbn [fst]; try exact Hle;
      match goal with
      | H : cancel_device_activation ?s ?l ?d ?r = (?s', _) |- _ =>
          replace s' with (fst (cancel_device_activation s l d r))
            by (now rewrite H);
          etransitivity; [apply cancel_quota | exact Hle]
      end.
Qed.

(** Without a restoration, no sequence of ledger operations takes a
    license beyond its device limit. *)
Lemma run_quota (ops : list Op) :
  forall (st : Store) (lid : string) (limit : Z),
    forallb (fun op => negb (is_restore op)) ops = true ->
    limit_is st lid limit ->
    count_active st lid <= limit ->
    count_active (run st ops) lid <= limit.
Proof.
  induction ops as [|op ops IH]; intros st lid limit Hops Hlim Hle; [exact Hle|].
  simpl in Hops. apply andb_true_iff in Hops as [Hop Hops].
  apply negb_true_iff in Hop.
  cbn [run fold_left]. apply IH; [exact Hops| |].
  - unfold limit_is. rewrite step_licenses. exact Hlim.
  - now apply step_quota.
Qed.

End QuotaFacts.

(** C1 on the code: on a license with a device limit of 1, the first
    device is activated and suspended, a second device is activated, which
    fills the limit, and the first device is restored: two rows are active.
    The endpoint [restore_device] and the manager's [activate_device] both
    set [is_active] without counting. *)
Theorem restore_exceeds_device_limit :
  Db.device_limit Example.lic1 = 1
  /\ Db.count_active (Ledger.run Example.store1 (firstn 3 Example.trace_restore))
       "LIC-1A2B3C4D" = 1
  /\ Db.count_active (Ledger.run Example.store1 Example.trace_restore)
       "LIC-1A2B3C4D" = 2
  /\ Db.count_active (Ledger.run Example.store1 (firstn 3 Example.trace_activate))
       "LIC-1A2B3C4D" = 1
  /\ Db.count_active (Ledger.run Example.store1 Example.trace_activate)
       "LIC-1A2B3C4D" = 2.
Proof. repeat split; vm_compute; reflexivity. Qed.

(** ** Calls that overlap *)

Section RaceFacts.
Import PyStr Db Manager Ledger Race.

(** A call that runs alone is the function of the manager. *)
Lemma alone_is_verify (st : Store) (c : Call) :
  let s1 := advance st (Start c) in
  let s2 := advance (fst s1) (snd s1) in
  let s3 := advance (fst s2) (snd s2) in
  let s4 := advance (fst s3) (snd s3) in
  s4 = (fst (verify_license_with_email st (c_now c) (c_code c) (c_email c)
               (c_device_id c) (c_name c) (c_ip c)),
        Returned (snd (verify_license_with_email st (c_now c) (c_code c)
                         (c_email c) (c_device_id c) (c_name c) (c_ip c)))).
Proof.
  cbv zeta. unfold verify_license_with_email. cbn [advance].
  destruct (select_active_license st (c_code c)) as [result|]; [|reflexivity].
  destruct (negb _); [reflexivity|].
  destruct (expired (c_now c) result); [reflexivity|].
  destruct (truthy (c_device_id c)) as [did|]; [|reflexivity].
  cbn [advance fst snd].
  destruct (find _ _) as [existing|].
  - destruct (is_active existing); reflexivity.
  - cbn [advance fst snd]. destruct (_ >=? _); reflexivity.
Qed.

Lemma step_at_middle (pre post : list Thread) (t : Thread) (st : Store) :
  step_at (List.length pre) st (pre ++ t :: post)
  = (fst (advance st t), pre ++ snd (advance st t) :: post).
Proof.
  induction pre as [|x pre IH]; cbn [List.length app step_at]; [reflexivity|].
  now rewrite IH.
Qed.

(** A step either finds no call or moves exactly one. *)
Lemma step_at_spec (i : nat) (st : Store) :
  forall pool,
    step_at i st pool = (st, pool)
    \/ exists pre t post,
         pool = pre ++ t :: post
         /\ step_at i st pool
            = (fst (advance st t), pre ++ snd (advance st t) :: post).
Proof.
  induction i as [|j IH]; intros [|t rest]; cbn [step_at]; try (now left).
  - right. now exists [], t, rest.
  - destruct (IH rest) as [E|[pre [x [post [-> E]]]]].
    + left. now rewrite E.
    + right. exists (t :: pre), x, post. split; [reflexivity|]. now rewrite E.
Qed.

Lemma four_steps_alone (pre post : list Thread) (st : Store) (c : Call) :
  interleave (repeat (List.length pre) 4) st (pre ++ Start c :: post)
  = (fst (verify_license_with_email st (c_now c) (c_code c) (c_email c)
            (c_device_id c) (c_name c) (c_ip c)),
     pre ++ Returned (snd (verify_license_with_email st (c_now c) (c_code c)
                             (c_email c) (c_device_id c) (c_name c) (c_ip c)))
         :: post).
Proof.
  unfold interleave. cbn [repeat fold_left fst snd].
  do 4 (rewrite !step_at_middle; cbn [fst snd]).
  pose proof (alone_is_verify st c) as H. cbv zeta in H.
  now rewrite H.
Qed.

Lemma interleave_app (s1 s2 : list nat) (st : Store) (pool : list Thread) :
  interleave (s1 ++ s2) st pool
  = interleave s2 (fst (interleave s1 st pool)) (snd (interleave s1 st pool)).
Proof.
  unfold interleave. rewrite fold_left_app.
  now destruct (fold_left _ s1 (st, pool)).
Qed.

(** The serial schedule is the calls one by one. *)
Lemma serial_is_one_by_one (calls : list Call) :
  forall (st : Store) (pre : list Thread),
    interleave (serial_from (List.length pre) (List.length calls)) st
      (pre ++ map Start calls)
    = (fst (one_by_one st calls),
       pre ++ map Returned (snd (one_by_one st calls))).
Proof.
  induction calls as [|c rest IH]; intros st pre.
  - reflexivity.
  - unfold serial_from. cbn [List.length seq flat_map map one_by_one fst snd].
    rewrite interleave_app, four_steps_alone. cbn [fst snd].
    set (sr := verify_license_with_email _ _ _ _ _ _ _).
    specialize (IH (fst sr) (pre ++ [Returned (snd sr)])).
    rewrite length_app, Nat.add_1_r, <- !app_assoc in IH.
    exact IH.
Qed.

Lemma verify_licenses (st : Store) (now : Z) (c e : string) (d n i : option string) :
  licenses (fst (verify_license_with_email st now c e d n i)) = licenses st.
Proof. exact (step_licenses st (Verify now c e d n i)). Qed.

Lemma one_by_one_quota (calls : list Call) :
  forall (st : Store) (lid : string) (limit : Z),
    limit_is st lid limit ->
    count_active st lid <= limit ->
    count_active (fst (one_by_one st calls)) lid <= limit.
Proof.
  induction calls as [|c rest IH]; intros st lid limit Hlim Hle; [exact Hle|].
  cbn [one_by_one fst]. apply IH.
  - unfold limit_is. rewrite verify_licenses. exact Hlim.
  - now apply verify_quota.
Qed.

Lemma advance_licenses (st : Store) (t : Thread) :
  licenses (fst (advance st t)) = licenses st.
Proof.
  destruct t; cbn [advance]; try reflexivity.
  - destruct (select_active_license _ _); [|reflexivity].
    destruct (negb _); [reflexivity|].
    destruct (expired _ _); [reflexivity|].
    now destruct (truthy _).
  - destruct (find _ _) as [x|]; [now destruct (is_active x) | reflexivity].
  - now destruct (_ >=? _).
Qed.

Lemma advance_knows (st : Store) (t : Thread) (lid : string) (limit : Z) :
  limit_is st lid limit -> Knows lid limit t ->
  Knows lid limit (snd (advance st t)).
Proof.
  intros Hlim Ht. destruct t; cbn [advance].
  - destruct (select_active_license _ _) as [result|] eqn:Hsel;
      [|intros r; discriminate].
    destruct (negb _); [intros r; discriminate|].
    destruct (expired _ _); [intros r; discriminate|].
    destruct (truthy _); [|intros r; discriminate].
    intros r [= <-] Hid.
    apply select_active_license_spec in Hsel as [Hin _].
    exact (Hlim result Hin Hid).
  - destruct (find _ _) as [x|]; [destruct (is_active x)|];
      cbn [snd]; try exact Ht; intros r; discriminate.
  - intros r; discriminate.
  - destruct (_ >=? _); cbn [snd]; [intros r; discriminate | exact Ht].
  - intros r; discriminate.
  - exact Ht.
Qed.

(** A step of a call keeps the sum of the active rows and the calls that
    have counted, unless it is a count that found a free slot. *)
Lemma advance_count (st : Store) (t : Thread) (lid : string) (limit : Z) :
  Knows lid limit t ->
  count_active (fst (advance st t)) lid + pending lid (snd (advance st t))
  = count_active st lid + pending lid t
  \/ (pending lid t = 0
      /\ pending lid (snd (advance st t)) = 1
      /\ count_active (fst (advance st t)) lid = count_active st lid
      /\ count_active st lid < limit).
Proof.
  intros Ht. destruct t; cbn [advance].
  - left. destruct (select_active_license _ _); [|reflexivity].
    destruct (negb _); [reflexivity|].
    destruct (expired _ _); [reflexivity|].
    now destruct (truthy _).
  - left. destruct (find _ _) as [x|]; [now destruct (is_active x) | reflexivity].
  - left. cbn [fst snd pending].
    now rewrite count_active_log, count_active_touch.
  - destruct (count_active st (license_id result) >=? device_limit result) eqn:Q;
      cbn [fst snd pending]; [now left|].
    destruct (String.eqb_spec (license_id result) lid) as [E|_]; [|now left].
    right. repeat split.
    rewrite Z.geb_leb in Q. apply Z.leb_gt in Q.
    rewrite <- (Ht result eq_refl E), <- E. exact Q.
  - left. cbn [fst snd pending].
    rewrite count_active_log, count_active_insert.
    unfold is_active_of. cbn [da_license_id is_active].
    rewrite andb_true_r. destruct (String.eqb (license_id result) lid); lia.
  - now left.
Qed.

Lemma pending_range (lid : string) (t : Thread) : 0 <= pending lid t <= 1.
Proof.
  destruct t; cbn [pending]; try lia.
  destruct (String.eqb _ _); lia.
Qed.

Lemma total_pending_app (lid : string) (a b : list Thread) :
  total_pending lid (a ++ b) = total_pending lid a + total_pending lid b.
Proof.
  induction a as [|t a IH]; cbn [app total_pending fold_right]; [reflexivity|].
  fold (total_pending lid (a ++ b)). fold (total_pending lid a). rewrite IH. lia.
Qed.

Lemma total_pending_range (lid : string) (pool : list Thread) :
  0 <= total_pending lid pool <= Z.of_nat (List.length pool).
Proof.
  induction pool as [|t pool IH]; cbn [total_pending fold_right List.length];
    [lia|].
  fold (total_pending lid pool). pose proof (pending_range lid t). lia.
Qed.

Lemma step_at_length (i : nat) (st : Store) (pool : list Thread) :
  List.length (snd (step_at i st pool)) = List.length pool.
Proof.
  destruct (step_at_spec i st pool) as [->|[pre [t [post [-> ->]]]]];
    [reflexivity|].
  cbn [snd]. now rewrite !length_app.
Qed.

Lemma interleave_length (schedule : list nat) :
  forall (st : Store) (pool : list Thread),
    List.length (snd (interleave schedule st pool)) = List.length pool.
Proof.
  unfold interleave.
  induction schedule as [|i schedule IH]; intros st pool; [reflexivity|].
  cbn [fold_left fst snd].
  rewrite <- (step_at_length i st pool).
  specialize (IH (fst (step_at i st pool)) (snd (step_at i st pool))).
  now destruct (step_at i st pool).
Qed.

Lemma step_at_within (i : nat) (lid : string) (limit : Z) (sp : Store * list Thread) :
  Within lid limit sp -> Within lid limit (step_at i (fst sp) (snd sp)).
Proof.
  destruct sp as [st pool]. cbn [fst snd]. intros [Hlim [Hk Hsum]].
  destruct (step_at_spec i st pool) as [->|[pre [t [post [-> ->]]]]];
    [now repeat split|].
  cbn [fst snd] in *.
  apply Forall_app in Hk as [Hpre Hk].
  inversion Hk as [|? ? Ht Hpost]; subst.
  split; [|split]; cbn [fst snd].
  - rewrite advance_licenses. exact Hlim.
  - apply Forall_app. split; [exact Hpre|].
    constructor; [now apply advance_knows | exact Hpost].
  - rewrite !total_pending_app in *.
    cbn [total_pending fold_right] in *.
    fold (total_pending lid post) in *.
    rewrite !length_app in *. cbn [List.length] in *.
    pose proof (total_pending_range lid pre).
    pose proof (total_pending_range lid post).
    destruct (advance_count st t lid limit Ht) as [E|[E0 [E1 [Ec Hlt]]]]; lia.
Qed.

Lemma interleave_within (schedule : list nat) (lid : string) (limit : Z) :
  forall sp, Within lid limit sp ->
             Within lid limit (interleave schedule (fst sp) (snd sp)).
Proof.
  unfold interleave.
  induction schedule as [|i schedule IH]; intros [st pool] H; [exact H|].
  cbn [fold_left fst snd].
  specialize (IH (step_at i st pool) (step_at_within i lid limit (st, pool) H)).
  now destruct (step_at i st pool).
Qed.

End RaceFacts.

(** C2, as the code has it.  The count and the insert of a first
    activation are two statements of a call, with nothing that keeps
    another call from stepping between them.  Calls that run one after
    the other behave as the function of the manager and keep the active
    devices of a license within its limit.  Calls that overlap, in any
    order of their statements, can take a license beyond its limit, but
    by no more than the number of overlapping calls less one. *)
Theorem overlapping_activations_bound
    (calls : list Race.Call) (st : Db.Store) (lid : string) (limit : Z) :
  Ledger.limit_is st lid limit ->
  Db.count_active st lid <= limit ->
  Race.interleave (Race.serial (List.length calls)) st (map Race.Start calls)
  = (fst (Race.one_by_one st calls),
     map Race.Returned (snd (Race.one_by_one st calls)))
  /\ Db.count_active (fst (Race.one_by_one st calls)) lid <= limit
  /\ forall schedule,
       Db.count_active
         (fst (Race.interleave schedule st (map Race.Start calls))) lid
       <= limit + Z.max 0 (Z.of_nat (List.length calls) - 1).
Proof.
  intros Hlim Hle. split; [|split].
  - exact (serial_is_one_by_one calls st []).
  - now apply one_by_one_quota.
  - intros schedule.
    assert (W : Race.Within lid limit (st, map Race.Start calls)).
    { split; [exact Hlim|]. split.
      - apply Forall_forall. intros t Ht.
        apply in_map_iff in Ht as [c [<- _]]. intros r. discriminate.
      - cbn [fst snd].
        pose proof (total_pending_range lid (map Race.Start calls)) as R.
        assert (Z0 : Race.total_pending lid (map Race.Start calls) = 0).
        { clear. induction calls as [|c r IH]; [reflexivity|].
          cbn [map Race.total_pending fold_right Race.pending].
          exact IH. }
        lia. }
    apply (interleave_within schedule) in W.
    destruct W as [_ [_ W]]. cbn [fst snd] in W.
    pose proof (total_pending_range lid
                  (snd (Race.interleave schedule st (map Race.Start calls)))) as R.
    rewrite interleave_length, length_map in W. lia.
Qed.

Lemma overlapping_activations_bound_witness :
  Race.interleave (Race.serial (List.length Race.racing_calls)) Example.store1
    (map Race.Start Race.racing_calls)
  = (fst (Race.one_by_one Example.store1 Race.racing_calls),
     map Race.Returned (snd (Race.one_by_one Example.store1 Race.racing_calls)))
  /\ Db.count_active (fst (Race.one_by_one Example.store1 Race.racing_calls))
       "LIC-1A2B3C4D" <= 1
  /\ forall schedule,
       Db.count_active
         (fst (Race.interleave schedule Example.store1
                 (map Race.Start Race.racing_calls))) "LIC-1A2B3C4D"
       <= 1 + Z.max 0 (Z.of_nat (List.length Race.racing_calls) - 1).
Proof.
  apply (overlapping_activations_bound Race.racing_calls Example.store1
           "LIC-1A2B3C4D" 1).
  - intros l [<-|[]] _. reflexivity.
  - vm_compute. discriminate.
Defined.

(** C2 as stated fails: on a license with a device limit of 1 and no
    device, two first activations whose counts both come before either
    commit both succeed, and two rows are active. *)
Lemma activation_race_counterexample :
  Db.device_limit Example.lic1 = 1
  /\ Db.count_active Example.store1 "LIC-1A2B3C4D" = 0
  /\ map Race.succeeded
       (snd (Race.interleave Race.racing_schedule Example.store1
               (map Race.Start Race.racing_calls)))
     = [true; true]
  /\ Db.count_active
       (fst (Race.interleave Race.racing_schedule Example.store1
               (map Race.Start Race.racing_calls))) "LIC-1A2B3C4D"
     = 2.
Proof. repeat split; vm_compute; reflexivity. Qed.

(** * Further properties of the code *)

(** ** Shape of the generated codes *)

Section CodeShape.
Import PyStr CodeGen Decode.

Lemma symbol_index_of_byte (b : Z) :
  symbol_index (symbol_of_byte b) = b mod 32.
Proof.
  pose (P := fun i => match py_index CHARSET i with
                      | Some c => symbol_index c =? i
                      | None => false
                      end).
  assert (HP : P (b mod 32) = true).
  { apply (forallb_range P 32); [vm_compute; reflexivity|].
    apply Z.mod_pos_bound. lia. }
  unfold P in HP. unfold symbol_of_byte. rewrite CHARSET_LENGTH_32.
  destruct (py_index CHARSET (b mod 32)) as [c|]; [|discriminate].
  now apply Z.eqb_eq in HP.
Qed.

Lemma short_id_loop_decodes (n : nat) :
  forall combined acc s a,
    short_id_loop n combined acc = Some s ->
    decode_from a s
    = decode_from (a * 32 ^ Z.of_nat n + combined mod 32 ^ Z.of_nat n) acc.
Proof.
  induction n as [|n IH]; intros combined acc s a H.
  - simpl in H. injection H as <-. f_equal. change (32 ^ Z.of_nat 0) with 1.
    rewrite Z.mod_1_r. lia.
  - cbn [short_id_loop] in H.
    rewrite (proj1 (symbol_of_byte_spec combined)) in H.
    rewrite (IH _ _ _ a H). cbn [decode_from].
    rewrite symbol_index_of_byte, CHARSET_LENGTH_32. f_equal.
    rewrite Nat2Z.inj_succ, Z.pow_succ_r by lia.
    rewrite (Z.rem_mul_r combined 32 (32 ^ Z.of_nat n)) by lia.
    ring.
Qed.

Lemma in_charset_unambiguous (c : ascii) :
  in_charset c = true -> unambiguous c = true.
Proof.
  unfold unambiguous. intros H. rewrite H. cbn [andb].
  revert H. destruct c as [[] [] [] [] [] [] [] []]; vm_compute; congruence.
Qed.

Lemma forall_chars_impl (p q : ascii -> bool) (s : string) :
  (forall c, p c = true -> q c = true) ->
  forall_chars p s = true -> forall_chars q s = true.
Proof.
  intros H. induction s as [|c s IH]; simpl; [reflexivity|].
  intros Hs. apply andb_true_iff in Hs as [Hc Hs].
  now rewrite (H c Hc), (IH Hs).
Qed.

End CodeShape.

(** X1. The short identifier has exactly 11 symbols of the alphabet and
    is a number written in base 32: read back symbol by symbol it is the
    combined time and random value modulo [32 ^ 11], so of the [36 ^ 11]
    possible combined values only the low 55 bits reach the identifier. *)
Theorem short_id_decodes (time_ms uuid_int : Z) :
  exists short_id,
    CodeGen.generate_short_id time_ms uuid_int = Some short_id
    /\ String.length short_id = 11%nat
    /\ PyStr.forall_chars CodeGen.in_charset short_id = true
    /\ Decode.decode short_id
       = ((time_ms mod 36 ^ 6) * 36 ^ 5 + uuid_int mod 36 ^ 5) mod 32 ^ 11.
Proof.
  destruct (generate_short_id_total time_ms uuid_int) as [sid [Hsid [Hlen Hall]]].
  exists sid. repeat split; try assumption.
  unfold CodeGen.generate_short_id in Hsid.
  unfold Decode.decode.
  rewrite (short_id_loop_decodes 11 _ _ _ 0 Hsid). reflexivity.
Qed.

(** X2. A generated activation code has 17 characters: three groups of
    five symbols separated by two hyphens; every symbol is one of the 32
    of the alphabet and none is 0, 1, O or I.  The letter L, which the
    comment on the alphabet lists as removed, is one of the symbols. *)
Theorem activation_code_format (time_ms uuid_int : Z) :
  exists a b c,
    CodeGen.generate_activation_code time_ms uuid_int
    = Some (a ++ "-" ++ b ++ "-" ++ c)%string
    /\ String.length a = 5%nat /\ String.length b = 5%nat
    /\ String.length c = 5%nat
    /\ PyStr.forall_chars Decode.unambiguous (a ++ b ++ c)%string = true
    /\ CodeGen.in_charset "L" = true.
Proof.
  destruct (generate_short_id_total time_ms uuid_int) as [sid [Hsid [Hlen Hall]]].
  destruct (spec_checksum_shape sid) as [Hck Hckall].
  pose proof (calculate_checksum_11 sid Hlen) as Hsum.
  exists (PyStr.py_slice 0 5 sid), (PyStr.py_slice 5 10 sid),
         (PyStr.py_slice 10 11 sid ++ CodeGen.spec_checksum sid)%string.
  split.
  { unfold CodeGen.generate_activation_code. now rewrite Hsid, Hsum. }
  assert (Hu : PyStr.forall_chars Decode.unambiguous sid = true).
  { revert Hall. apply forall_chars_impl, in_charset_unambiguous. }
  assert (Hv : PyStr.forall_chars Decode.unambiguous (CodeGen.spec_checksum sid) = true).
  { revert Hckall. apply forall_chars_impl, in_charset_unambiguous. }
  rewrite !forall_chars_app, Hv.
  unfold PyStr.py_slice.
  rewrite !(forall_chars_substring _ _ Hu).
  rewrite length_app_string, Hck.
  clear - Hlen.
  do 11 (destruct sid as [|? sid]; [discriminate Hlen|]).
  destruct sid; [|discriminate Hlen].
  repeat split; reflexivity.
Qed.

(** ** Email syntax *)

Section EmailFacts.
Import PyStr Manager Decode.

Lemma split_first_app (c : ascii) (s p q : string) :
  split_first c s = Some (p, q) ->
  s = (p ++ String c q)%string /\ count_char c p = 0%nat.
Proof.
  revert p q. induction s as [|a s IH]; simpl; intros p q H; [discriminate|].
  destruct (Ascii.eqb a c) eqn:E.
  - apply Ascii.eqb_eq in E. injection H as <- <-. subst. now split.
  - destruct (split_first c s) as [[p' q']|]; [|discriminate].
    injection H as <- <-. destruct (IH p' q' eq_refl) as [-> Hc].
    split; [reflexivity|]. simpl. rewrite Ascii.eqb_sym, E. exact Hc.
Qed.

Lemma split_last_app (c : ascii) (s p q : string) :
  split_last c s = Some (p, q) -> s = (p ++ String c q)%string.
Proof.
  revert p q. induction s as [|a s IH]; simpl; intros p q H; [discriminate|].
  destruct (split_last c s) as [[p' q']|].
  - injection H as <- <-. now rewrite (IH p' q' eq_refl).
  - destruct (Ascii.eqb a c) eqn:E; [|discriminate].
    apply Ascii.eqb_eq in E. injection H as <- <-. now subst.
Qed.

Lemma count_char_app (c : ascii) (a b : string) :
  count_char c (a ++ b)%string = (count_char c a + count_char c b)%nat.
Proof. induction a as [|d a IH]; simpl; [reflexivity | rewrite IH; lia]. Qed.

Lemma count_char_none (c : ascii) (p : ascii -> bool) (s : string) :
  p c = false -> forall_chars p s = true -> count_char c s = 0%nat.
Proof.
  intros Hc. induction s as [|d s IH]; simpl; [reflexivity|].
  intros H. apply andb_true_iff in H as [Hd Hs].
  destruct (Ascii.eqb c d) eqn:E.
  - apply Ascii.eqb_eq in E. subst. congruence.
  - now rewrite (IH Hs).
Qed.

Lemma local_is_address (c : ascii) : is_local_char c = true -> is_address_char c = true.
Proof.
  unfold is_local_char, is_address_char.
  destruct (is_alnum c); [reflexivity|]. cbn [orb].
  destruct c as [[] [] [] [] [] [] [] []]; vm_compute; congruence.
Qed.

Lemma domain_is_address (c : ascii) : is_domain_char c = true -> is_address_char c = true.
Proof.
  unfold is_domain_char, is_address_char.
  destruct (is_alnum c); [reflexivity|]. cbn [orb].
  destruct c as [[] [] [] [] [] [] [] []]; vm_compute; congruence.
Qed.

Lemma alpha_is_domain (c : ascii) : is_alpha c = true -> is_domain_char c = true.
Proof. unfold is_domain_char, is_alnum. now intros ->. Qed.

Lemma drop_final_newline_app (s : string) :
  drop_final_newline (s ++ String (chr 10) "")%string = s.
Proof.
  induction s as [|c s IH]; [reflexivity|].
  destruct s as [|d s]; [reflexivity|].
  cbn [append] in *.
  change (drop_final_newline (String c (String d (s ++ String (chr 10) ""))))
    with (String c (drop_final_newline (String d (s ++ String (chr 10) "")))).
  now rewrite IH.
Qed.

End EmailFacts.

(** X3. An address that [is_valid_email] accepts has, apart from one
    final line feed, exactly one at-sign, a non-empty part before it, a
    last label of at least two letters after a dot, and no character
    other than ASCII letters, digits and the signs [. _ % + - @]. *)
Theorem valid_email_shape (email : string) :
  Manager.is_valid_email email = true ->
  exists local_part domain tld,
    Manager.drop_final_newline email
    = (local_part ++ "@" ++ domain ++ "." ++ tld)%string
    /\ local_part <> "" /\ domain <> ""
    /\ (2 <= String.length tld)%nat
    /\ PyStr.forall_chars Manager.is_alpha tld = true
    /\ Decode.count_char "@" (Manager.drop_final_newline email) = 1%nat
    /\ PyStr.forall_chars Decode.is_address_char
         (Manager.drop_final_newline email) = true.
Proof.
  unfold Manager.is_valid_email. intros H.
  destruct (Manager.split_first "@" _) as [[loc rest]|] eqn:E1; [|discriminate].
  destruct (Manager.split_last "." rest) as [[dom tld]|] eqn:E2; [|discriminate].
  repeat (apply andb_true_iff in H as [H ?]).
  apply split_first_app in E1 as [E1 Hc1]. apply split_last_app in E2.
  exists loc, dom, tld. rewrite E1, E2.
  assert (Hloc : loc <> "") by (intros ->; discriminate).
  assert (Hdom : dom <> "") by (intros ->; discriminate).
  assert (Ht : PyStr.forall_chars Manager.is_domain_char tld = true).
  { eapply forall_chars_impl; [apply alpha_is_domain | assumption]. }
  repeat split; try assumption.
  - now apply Nat.leb_le.
  - change (loc ++ String "@" (dom ++ String "." tld))%string
      with (loc ++ String "@" "" ++ dom ++ String "." "" ++ tld)%string.
    rewrite !count_char_app, Hc1.
    rewrite (count_char_none "@" Manager.is_domain_char dom) by (reflexivity || assumption).
    rewrite (count_char_none "@" Manager.is_domain_char tld) by (reflexivity || assumption).
    reflexivity.
  - change (loc ++ String "@" (dom ++ String "." tld))%string
      with (loc ++ String "@" "" ++ dom ++ String "." "" ++ tld)%string.
    rewrite !forall_chars_app.
    rewrite (forall_chars_impl _ _ loc local_is_address) by assumption.
    rewrite (forall_chars_impl _ _ dom domain_is_address) by assumption.
    rewrite (forall_chars_impl _ _ tld domain_is_address) by assumption.
    reflexivity.
Qed.

Lemma valid_email_shape_witness :
  exists local_part domain tld,
    Manager.drop_final_newline "a.b+c@x-y.z.com"
    = (local_part ++ "@" ++ domain ++ "." ++ tld)%string
    /\ local_part <> "" /\ domain <> ""
    /\ (2 <= String.length tld)%nat
    /\ PyStr.forall_chars Manager.is_alpha tld = true
    /\ Decode.count_char "@" (Manager.drop_final_newline "a.b+c@x-y.z.com") = 1%nat
    /\ PyStr.forall_chars Decode.is_address_char
         (Manager.drop_final_newline "a.b+c@x-y.z.com") = true.
Proof. apply (valid_email_shape "a.b+c@x-y.z.com"). reflexivity. Defined.

(** X4. The end anchor of the pattern lets one final line feed through:
    an address that does not end in a line feed gets the same verdict
    with a line feed appended, so [is_valid_email] accepts a valid
    address followed by a line feed. *)
Theorem valid_email_trailing_newline (email : string) :
  Manager.drop_final_newline email = email ->
  Manager.is_valid_email (email ++ String (PyStr.chr 10) "")%string
  = Manager.is_valid_email email.
Proof.
  intros H. unfold Manager.is_valid_email.
  now rewrite drop_final_newline_app, H.
Qed.

Lemma valid_email_trailing_newline_witness :
  Manager.is_valid_email ("ann@example.com" ++ String (PyStr.chr 10) "")%string
  = Manager.is_valid_email "ann@example.com"
  /\ Manager.is_valid_email "ann@example.com" = true.
Proof.
  split; [|reflexivity].
  apply (valid_email_trailing_newline "ann@example.com"). reflexivity.
Defined.

(** ** Issuance and verification *)

Section IssueVerifyFacts.
Import PyStr Db Manager.

Lemma generate_activation_code_total (t u : Z) :
  exists code, CodeGen.generate_activation_code t u = Some code.
Proof.
  destruct (generate_short_id_total t u) as [sid [Hsid [Hlen _]]].
  unfold CodeGen.generate_activation_code.
  rewrite Hsid, (calculate_checksum_11 sid Hlen). now eexists.
Qed.

Lemma find_app_fresh {A} (p : A -> bool) (l : list A) (x : A) :
  existsb p l = false -> p x = true -> find p (l ++ [x]) = Some x.
Proof.
  intros Hl Hx. induction l as [|y l IH]; simpl in *.
  - now rewrite Hx.
  - destruct (p y); [discriminate|]. now apply IH.
Qed.

Lemma existsb_weaken {A} (p q : A -> bool) (l : list A) :
  (forall x, q x = true -> p x = true) ->
  existsb p l = false -> existsb q l = false.
Proof.
  intros H. induction l as [|y l IH]; simpl; [reflexivity|].
  intros Hp. apply orb_false_iff in Hp as [Hy Hl].
  rewrite (IH Hl), orb_false_r.
  destruct (q y) eqn:E; [|reflexivity]. now rewrite (H y E) in Hy.
Qed.

(** Whatever ends in an error left the database as it was. *)
Lemma verify_invalid_store (st : Store) (now : Z) (c e : string)
    (d n i : option string) (error : string) :
  snd (verify_license_with_email st now c e d n i) = Invalid error ->
  fst (verify_license_with_email st now c e d n i) = st.
Proof.
  unfold verify_license_with_email.
  destruct (select_active_license st c); [|reflexivity].
  destruct (negb _); [reflexivity|].
  destruct (expired now l); [reflexivity|].
  destruct (truthy d); [|reflexivity].
  destruct (find _ _) as [x|].
  - destruct (is_active x); [discriminate | reflexivity].
  - destruct (_ >=? _); [reflexivity | discriminate].
Qed.

(** What a successful issuance says about the database before it. *)
Lemma issuance_outcome_aux (st : Store) (e : Entropy) (plan : option string)
    (email : string) (device_cap : Z) (days : option Z)
    (user_hint : option string) (st' : Store) (l : License) :
  generate_license_with_email st e plan email device_cap days user_hint
  = (st', Issued l) ->
  st' = with_licenses st (licenses st ++ [l])
  /\ existsb (fun x => String.eqb (license_id x) (license_id l)
                       || String.eqb (activation_code x) (activation_code l))
             (licenses st) = false
  /\ Db.email l = email /\ status l = active.
Proof.
  unfold generate_license_with_email.
  destruct (is_valid_email email); [|discriminate]. cbn [negb].
  destruct (normalize_plan plan) as [p|]; [|discriminate].
  destruct (CodeGen.generate_activation_code _ _) as [code|]; [|discriminate].
  destruct (compute_valid_until _ p _) as [v|]; [|discriminate].
  unfold insert_license.
  destruct (existsb _ _) eqn:E; [discriminate|].
  intros [= <- <-]. repeat split; try reflexivity. exact E.
Qed.

End IssueVerifyFacts.

(** X5. An issuance either fails and leaves the database as it was, or
    appends exactly one license row; the row carries the email, the device
    limit and the hint as they were passed (the email is not normalised,
    the device limit is not checked), the generated code and identifier,
    and status [active].  An invalid email is reported before an unknown
    plan, each with its fixed text; every other failure is an exception,
    reported as "generation failed" or "database operation failed"
    followed by a colon and the text of the exception. *)
Theorem issuance_outcome
    (st : Db.Store) (e : Manager.Entropy) (plan : option string)
    (email : string) (device_cap : Z) (days : option Z)
    (user_hint : option string) :
  match Manager.generate_license_with_email st e plan email device_cap days
          user_hint with
  | (st', Manager.Issued l) =>
      st' = Db.with_licenses st (Db.licenses st ++ [l])
      /\ Manager.is_valid_email email = true
      /\ Db.email l = email /\ Db.device_limit l = device_cap
      /\ Db.user_hint l = user_hint /\ Db.status l = Db.active
      /\ Some (Db.activation_code l)
         = CodeGen.generate_activation_code (Manager.time_ms e) (Manager.uuid_code e)
      /\ Db.license_id l = Manager.make_license_id (Manager.uuid_license e)
  | (st', Manager.IssueError error) =>
      st' = st
      /\ (Manager.is_valid_email email = false -> error = Manager.ERR_EMAIL)
      /\ (Manager.is_valid_email email = true ->
          Manager.normalize_plan plan = None -> error = Manager.ERR_PLAN)
      /\ (Manager.is_valid_email email = true ->
          Manager.normalize_plan plan <> None ->
          error = ("生成失败: " ++ Manager.exception_text e)%string
          \/ error = ("数据库操作失败: " ++ Manager.exception_text e)%string)
  end.
Proof.
  unfold Manager.generate_license_with_email.
  destruct (Manager.is_valid_email email) eqn:Hm; cbn [negb].
  2:{ split; [reflexivity|]. split; [reflexivity|]. split; discriminate. }
  destruct (Manager.normalize_plan plan) as [p|].
  2:{ split; [reflexivity|]. split; [discriminate|].
      split; [reflexivity | now intros _ H]. }
  destruct (CodeGen.generate_activation_code _ _) as [code|].
  2:{ split; [reflexivity|]. split; [discriminate|].
      split; [discriminate | intros _ _; now left]. }
  destruct (Manager.compute_valid_until _ p _) as [v|].
  2:{ split; [reflexivity|]. split; [discriminate|].
      split; [discriminate | intros _ _; now left]. }
  unfold Manager.insert_license.
  destruct (existsb _ _).
  { split; [reflexivity|]. split; [discriminate|].
    split; [discriminate | intros _ _; now right]. }
  cbn [Db.licenses Db.email Db.device_limit Db.user_hint Db.status
       Db.activation_code Db.license_id].
  repeat split; reflexivity.
Qed.

(** X6. A license that has just been issued verifies: with its code and
    the email of the issuance in any letter case, at an instant at which
    it has not expired, verification without a device succeeds and changes
    nothing. *)
Theorem issued_license_verifies
    (st st' : Db.Store) (e : Manager.Entropy) (plan : option string)
    (email email' : string) (device_cap : Z) (days : option Z)
    (user_hint : option string) (l : Db.License) (now : Z) :
  Manager.generate_license_with_email st e plan email device_cap days user_hint
  = (st', Manager.Issued l) ->
  PyStr.lower email' = PyStr.lower email ->
  Manager.expired now l = false ->
  Manager.verify_license_with_email st' now (Db.activation_code l) email'
    None None None
  = (st', Manager.Valid (Manager.info_of l None)).
Proof.
  intros Hgen Hmail Hexp.
  pose proof (issuance_outcome_aux st e plan email device_cap days user_hint st' l Hgen)
    as [Hst [Hfresh [He Hs]]].
  unfold Manager.verify_license_with_email.
  assert (Hsel : Manager.select_active_license st' (Db.activation_code l) = Some l).
  { unfold Manager.select_active_license. rewrite Hst. cbn [Db.with_licenses Db.licenses].
    apply find_app_fresh.
    - revert Hfresh. apply existsb_weaken. intros x Hx.
      apply andb_true_iff in Hx as [Hx _]. rewrite Hx. apply orb_true_r.
    - now rewrite String.eqb_refl, Hs. }
  rewrite Hsel, He, Hmail, String.eqb_refl, Hexp. reflexivity.
Qed.

Lemma issued_license_verifies_witness :
  Manager.verify_license_with_email Example.store1 (Example.t0 + 60)
    (Db.activation_code Example.lic1) "ANN@example.COM" None None None
  = (Example.store1, Manager.Valid (Manager.info_of Example.lic1 None)).
Proof.
  apply (issued_license_verifies Db.empty Example.store1 Example.entropy1
           (Some "Monthly") "Ann@Example.com" "ANN@example.COM" 1 None None
           Example.lic1 (Example.t0 + 60)); vm_compute; reflexivity.
Defined.

(** X7. The device limit is compared as it is stored: on a license whose
    device limit is zero or negative, which issuance accepts, the first
    verification of any device is refused with the quota error and nothing
    is written. *)
Theorem nonpositive_limit_admits_no_device
    (st : Db.Store) (now : Z) (code email : string) (lic : Db.License)
    (did : string) (name ip : option string) :
  Manager.select_active_license st code = Some lic ->
  PyStr.lower (Db.email lic) = PyStr.lower email ->
  Manager.expired now lic = false ->
  Db.device_limit lic <= 0 ->
  did <> "" ->
  Manager.has_device st (Db.license_id lic) did = false ->
  Manager.verify_license_with_email st now code email (Some did) name ip
  = (st, Manager.Invalid (Manager.ERR_QUOTA (Db.device_limit lic))).
Proof.
  intros Hsel Hmail Hexp Hlim Hdid Hnew.
  unfold Manager.verify_license_with_email.
  rewrite Hsel, Hmail, String.eqb_refl, Hexp. cbn [negb Manager.truthy].
  rewrite (string_eqb_neq_empty _ Hdid).
  apply find_none_existsb in Hnew. rewrite Hnew.
  assert (Hge : (Db.count_active st (Db.license_id lic) >=? Db.device_limit lic) = true).
  { rewrite Z.geb_leb. apply Z.leb_le. unfold Db.count_active. lia. }
  now rewrite Hge.
Qed.

Lemma nonpositive_limit_admits_no_device_witness :
  Manager.verify_license_with_email
    (Db.mkStore [Admin.set_device_limit 0 Example.lic1] [] [] [])
    (Example.t0 + 60) Example.code1 "ann@example.com" (Some "mac-1") None None
  = (Db.mkStore [Admin.set_device_limit 0 Example.lic1] [] [] [],
     Manager.Invalid
       (Manager.ERR_QUOTA (Db.device_limit (Admin.set_device_limit 0 Example.lic1)))).
Proof.
  apply (nonpositive_limit_admits_no_device
           (Db.mkStore [Admin.set_device_limit 0 Example.lic1] [] [] [])
           (Example.t0 + 60) Example.code1 "ann@example.com"
           (Admin.set_device_limit 0 Example.lic1) "mac-1" None None);
    try reflexivity; try discriminate.
Defined.

(** X8. A verification that ends in an error has written nothing: the
    database is the one the call started from, whatever the error
    (unknown or inactive code, email mismatch, expiry, suspended device,
    quota). *)
Theorem failed_verification_changes_nothing
    (st : Db.Store) (now : Z) (code email : string)
    (device_id device_name ip : option string) (error : string) :
  snd (Manager.verify_license_with_email st now code email device_id device_name ip)
  = Manager.Invalid error ->
  fst (Manager.verify_license_with_email st now code email device_id device_name ip)
  = st.
Proof. apply verify_invalid_store. Qed.

Lemma failed_verification_changes_nothing_witness :
  fst (Manager.verify_license_with_email Example.store_full (Example.t0 + 60)
         Example.code1 "ann@example.com" (Some "mac-2") None None)
  = Example.store_full.
Proof.
  apply (failed_verification_changes_nothing Example.store_full (Example.t0 + 60)
           Example.code1 "ann@example.com" (Some "mac-2") None None
           (Manager.ERR_QUOTA 1)).
  reflexivity.
Defined.

(** X9. Without a device identifier, or with an empty one, verification
    only reads: the database is unchanged, and the answer does not depend
    on the device name and address that were passed. *)
Theorem license_check_mode_only_reads
    (st : Db.Store) (now : Z) (code email : string)
    (name ip name' ip' : option string) :
  fst (Manager.verify_license_with_email st now code email None name ip) = st
  /\ Manager.verify_license_with_email st now code email (Some "") name ip
     = Manager.verify_license_with_email st now code email None name' ip'.
Proof.
  unfold Manager.verify_license_with_email.
  destruct (Manager.select_active_license st code); [|split; reflexivity].
  destruct (negb _); [split; reflexivity|].
  destruct (Manager.expired now l); split; reflexivity.
Qed.

(** ** Filling and freeing slots *)

Section SlotFacts.
Import PyStr Db Manager Scenario.

Lemma first_activation_accepted (st : Store) (now : Z) (code email : string)
    (lic : License) (did : string) (name ip : option string) :
  select_active_license st code = Some lic ->
  lower (Db.email lic) = lower email ->
  expired now lic = false ->
  did <> "" ->
  has_device st (license_id lic) did = false ->
  count_active st (license_id lic) < device_limit lic ->
  verify_license_with_email st now code email (Some did) name ip
  = (mkStore (licenses st)
       (device_activations st ++ [new_row (license_id lic) now name ip did])
       (revoked_licenses st)
       (activation_history st ++ [activate_entry (license_id lic) name ip did]),
     Valid (info_of lic None)).
Proof.
  intros Hsel Hmail Hexp Hdid Hnew Hlt.
  unfold verify_license_with_email.
  rewrite Hsel, Hmail, String.eqb_refl, Hexp. cbn [negb truthy].
  rewrite (string_eqb_neq_empty _ Hdid).
  apply find_none_existsb in Hnew. rewrite Hnew.
  assert (Hq : (count_active st (license_id lic) >=? device_limit lic) = false).
  { rewrite Z.geb_leb. apply Z.leb_gt. exact Hlt. }
  now rewrite Hq.
Qed.

Lemma first_activation_refused (st : Store) (now : Z) (code email : string)
    (lic : License) (did : string) (name ip : option string) :
  select_active_license st code = Some lic ->
  lower (Db.email lic) = lower email ->
  expired now lic = false ->
  did <> "" ->
  has_device st (license_id lic) did = false ->
  device_limit lic <= count_active st (license_id lic) ->
  verify_license_with_email st now code email (Some did) name ip
  = (st, Invalid (ERR_QUOTA (device_limit lic))).
Proof.
  intros Hsel Hmail Hexp Hdid Hnew Hge.
  unfold verify_license_with_email.
  rewrite Hsel, Hmail, String.eqb_refl, Hexp. cbn [negb truthy].
  rewrite (string_eqb_neq_empty _ Hdid).
  apply find_none_existsb in Hnew. rewrite Hnew.
  assert (Hq : (count_active st (license_id lic) >=? device_limit lic) = true).
  { rewrite Z.geb_leb. apply Z.leb_le. exact Hge. }
  now rewrite Hq.
Qed.

Lemma count_active_app (st : Store) (rows : list DeviceActivation) (lid : string) :
  count_active (with_devices st (device_activations st ++ rows)) lid
  = count_active st lid + Z.of_nat (List.length (filter (is_active_of lid) rows)).
Proof.
  unfold count_active. cbn [with_devices device_activations].
  rewrite filter_app, length_app. lia.
Qed.

Lemma new_rows_active (lid : string) (now : Z) (name ip : option string)
    (devices : list string) :
  filter (is_active_of lid) (map (new_row lid now name ip) devices)
  = map (new_row lid now name ip) devices.
Proof.
  induction devices as [|d l IH]; simpl; [reflexivity|].
  unfold is_active_of at 1. cbn [new_row da_license_id is_active].
  rewrite String.eqb_refl. simpl. now rewrite IH.
Qed.

Lemma delete_rows_count (lid did : string) (l : list DeviceActivation) :
  (List.length (filter (is_active_of lid)
                  (filter (fun d => negb (is_device lid did d)) l))
   + List.length (filter (fun d => is_device lid did d && is_active d) l)
   = List.length (filter (is_active_of lid) l))%nat.
Proof.
  induction l as [|d l IH]; [reflexivity|].
  cbn [filter].
  destruct (is_device lid did d) eqn:Hd; cbn [negb andb].
  - assert (E : is_active_of lid d = is_active d).
    { unfold is_active_of. unfold is_device in Hd.
      apply andb_true_iff in Hd as [Hl _]. now rewrite Hl. }
    rewrite E. destruct (is_active d); cbn [List.length]; lia.
  - cbn [filter]. destruct (is_active_of lid d); cbn [List.length]; lia.
Qed.

Lemma count_active_delete_exact (st : Store) (lid did : string) :
  count_active (delete_device_rows lid did st) lid
  = count_active st lid
    - Z.of_nat (List.length (filter (fun d => is_device lid did d && is_active d)
                               (device_activations st))).
Proof.
  unfold count_active, delete_device_rows. cbn [with_devices device_activations].
  pose proof (delete_rows_count lid did (device_activations st)). lia.
Qed.

Lemma filter_both_le {A} (p q : A -> bool) (l : list A) :
  (List.length (filter (fun x => p x && q x) l) <= List.length (filter p l))%nat.
Proof.
  induction l as [|x l IH]; simpl; [lia|].
  destruct (p x), (q x); simpl; lia.
Qed.

Lemma filter_length_pos {A} (p : A -> bool) (l : list A) :
  existsb p l = true -> (1 <= List.length (filter p l))%nat.
Proof.
  induction l as [|x l IH]; simpl; [discriminate|].
  destruct (p x); simpl; [lia | exact IH].
Qed.

Lemma existsb_filter_negb {A} (p : A -> bool) (l : list A) :
  existsb p (filter (fun x => negb (p x)) l) = false.
Proof.
  induction l as [|x l IH]; simpl; [reflexivity|].
  destruct (p x) eqn:E; simpl; [exact IH | now rewrite E].
Qed.

Lemma set_active_back (d : DeviceActivation) :
  is_active d = true -> set_active true (set_active false d) = d.
Proof. destruct d; simpl; now intros ->. Qed.

End SlotFacts.

(** X11. Devices fill a license up to its limit and no further: distinct
    new devices, as many as there are free slots, are all accepted one
    after the other; each adds one active row and one [activate] entry and
    nothing else changes.  Once the active rows have reached the limit,
    the first verification of any further device is refused with the
    quota error. *)
Theorem devices_fill_the_limit
    (devices : list string) (st : Db.Store) (now : Z) (code email : string)
    (lic : Db.License) (name ip : option string) :
  Manager.select_active_license st code = Some lic ->
  PyStr.lower (Db.email lic) = PyStr.lower email ->
  Manager.expired now lic = false ->
  NoDup devices ->
  Forall (fun d => d <> "" /\ Manager.has_device st (Db.license_id lic) d = false)
         devices ->
  Db.count_active st (Db.license_id lic) + Z.of_nat (List.length devices)
  <= Db.device_limit lic ->
  exists st',
    Scenario.activations st now code email devices name ip
    = (st', map (fun _ => Manager.Valid (Manager.info_of lic None)) devices)
    /\ Db.device_activations st'
       = Db.device_activations st
         ++ map (Scenario.new_row (Db.license_id lic) now name ip) devices
    /\ Db.activation_history st'
       = Db.activation_history st
         ++ map (Scenario.activate_entry (Db.license_id lic) name ip) devices
    /\ Db.licenses st' = Db.licenses st
    /\ Db.revoked_licenses st' = Db.revoked_licenses st
    /\ Db.count_active st' (Db.license_id lic)
       = Db.count_active st (Db.license_id lic) + Z.of_nat (List.length devices)
    /\ (forall d, d <> "" ->
          Manager.has_device st' (Db.license_id lic) d = false ->
          Db.count_active st' (Db.license_id lic) = Db.device_limit lic ->
          Manager.verify_license_with_email st' now code email (Some d) name ip
          = (st', Manager.Invalid (Manager.ERR_QUOTA (Db.device_limit lic)))).
Proof.
  intros Hsel Hmail Hexp Hnd Hnew Hroom.
  assert (Hmain : exists st',
    Scenario.activations st now code email devices name ip
    = (st', map (fun _ => Manager.Valid (Manager.info_of lic None)) devices)
    /\ Db.device_activations st'
       = Db.device_activations st
         ++ map (Scenario.new_row (Db.license_id lic) now name ip) devices
    /\ Db.activation_history st'
       = Db.activation_history st
         ++ map (Scenario.activate_entry (Db.license_id lic) name ip) devices
    /\ Db.licenses st' = Db.licenses st
    /\ Db.revoked_licenses st' = Db.revoked_licenses st).
  { revert st Hsel Hnew Hroom.
    induction devices as [|d rest IH]; intros st Hsel Hnew Hroom.
    - exists st. cbn. rewrite !app_nil_r. repeat split; reflexivity.
    - inversion Hnd as [|? ? Hnotin Hnd']; subst.
      inversion Hnew as [|? ? [Hd Hfresh] Hnew']; subst.
      cbn [List.length] in Hroom.
      cbn [Scenario.activations].
      rewrite (first_activation_accepted st now code email lic d name ip
                 Hsel Hmail Hexp Hd Hfresh) by lia.
      set (st1 := Db.mkStore _ _ _ _).
      destruct (IH Hnd' st1) as [st' [Hrun [Hdev [Hhist [Hlic Hrev]]]]].
      + exact Hsel.
      + apply Forall_forall. intros x Hx.
        rewrite Forall_forall in Hnew'. destruct (Hnew' x Hx) as [Hx1 Hx2].
        split; [exact Hx1|].
        unfold Manager.has_device in *. subst st1. cbn [Db.device_activations].
        rewrite existsb_app, Hx2. cbn.
        unfold Db.is_device. cbn [Scenario.new_row Db.da_license_id Db.da_device_id].
        rewrite String.eqb_refl. cbn [andb].
        rewrite orb_false_r. apply String.eqb_neq. intros ->. contradiction.
      + assert (E : Db.count_active st1 (Db.license_id lic)
                    = Db.count_active st (Db.license_id lic) + 1).
        { change st1 with
            (Db.log (Db.with_devices st
                       (Db.device_activations st
                        ++ [Scenario.new_row (Db.license_id lic) now name ip d]))
                    (Scenario.activate_entry (Db.license_id lic) name ip d)).
          rewrite count_active_log, count_active_insert.
          unfold Db.is_active_of. cbn [Scenario.new_row Db.da_license_id Db.is_active].
          now rewrite String.eqb_refl. }
        rewrite E. lia.
      + exists st'. rewrite Hrun. split; [reflexivity|].
        rewrite Hdev, Hhist, Hlic, Hrev. subst st1.
        cbn [Db.device_activations Db.activation_history Db.licenses
             Db.revoked_licenses map].
        rewrite <- !app_assoc. repeat split; reflexivity. }
  destruct Hmain as [st' [Hrun [Hdev [Hhist [Hlic Hrev]]]]].
  exists st'. split; [exact Hrun|]. split; [exact Hdev|]. split; [exact Hhist|].
  split; [exact Hlic|]. split; [exact Hrev|]. split.
  - unfold Db.count_active. rewrite Hdev, filter_app, length_app, new_rows_active.
    rewrite length_map. lia.
  - intros d Hd Hfresh Hfull.
    apply first_activation_refused; try assumption; [|lia].
    unfold Manager.select_active_license in *. now rewrite Hlic.
Qed.

Lemma devices_fill_the_limit_witness :
  exists st',
    Scenario.activations Example.store1 (Example.t0 + 60) Example.code1
      "ann@example.com" ["mac-1"] (Some "MacBook") None
    = (st', map (fun _ => Manager.Valid (Manager.info_of Example.lic1 None)) ["mac-1"])
    /\ Db.device_activations st'
       = Db.device_activations Example.store1
         ++ map (Scenario.new_row (Db.license_id Example.lic1) (Example.t0 + 60)
                   (Some "MacBook") None) ["mac-1"]
    /\ Db.activation_history st'
       = Db.activation_history Example.store1
         ++ map (Scenario.activate_entry (Db.license_id Example.lic1) (Some "MacBook") None)
                ["mac-1"]
    /\ Db.licenses st' = Db.licenses Example.store1
    /\ Db.revoked_licenses st' = Db.revoked_licenses Example.store1
    /\ Db.count_active st' (Db.license_id Example.lic1)
       = Db.count_active Example.store1 (Db.license_id Example.lic1)
         + Z.of_nat (List.length ["mac-1"])
    /\ (forall d, d <> "" ->
          Manager.has_device st' (Db.license_id Example.lic1) d = false ->
          Db.count_active st' (Db.license_id Example.lic1)
          = Db.device_limit Example.lic1 ->
          Manager.verify_license_with_email st' (Example.t0 + 60) Example.code1
            "ann@example.com" (Some d) (Some "MacBook") None
          = (st', Manager.Invalid
                    (Manager.ERR_QUOTA (Db.device_limit Example.lic1)))).
Proof.
  apply (devices_fill_the_limit ["mac-1"] Example.store1 (Example.t0 + 60)
           Example.code1 "ann@example.com" Example.lic1 (Some "MacBook") None).
  - reflexivity.
  - reflexivity.
  - reflexivity.
  - repeat constructor. intros [].
  - repeat constructor. discriminate.
  - vm_compute. discriminate.
Defined.

(** X12. Cancelling frees exactly one slot and a new verification takes
    it again: for a device with one row, active, on a license within its
    limit, [cancel_device_activation] deletes the row and the active count
    drops by one; verifying the same device again binds it as a new
    device and the count is back where it was. *)
Theorem cancel_then_reactivate
    (st : Db.Store) (now : Z) (code email : string) (lic : Db.License)
    (did reason : string) (name ip : option string) :
  Manager.select_active_license st code = Some lic ->
  PyStr.lower (Db.email lic) = PyStr.lower email ->
  Manager.expired now lic = false ->
  did <> "" ->
  Db.matched_rows (Db.license_id lic) did st = 1%nat ->
  existsb (fun d => Db.is_device (Db.license_id lic) did d && Db.is_active d)
          (Db.device_activations st) = true ->
  Db.count_active st (Db.license_id lic) <= Db.device_limit lic ->
  exists st1 st2,
    Manager.cancel_device_activation st (Db.license_id lic) did reason = (st1, true)
    /\ Db.count_active st1 (Db.license_id lic)
       = Db.count_active st (Db.license_id lic) - 1
    /\ Manager.has_device st1 (Db.license_id lic) did = false
    /\ Manager.verify_license_with_email st1 now code email (Some did) name ip
       = (st2, Manager.Valid (Manager.info_of lic None))
    /\ Db.count_active st2 (Db.license_id lic)
       = Db.count_active st (Db.license_id lic)
    /\ Db.matched_rows (Db.license_id lic) did st2 = 1%nat
    /\ existsb (fun d => Db.is_device (Db.license_id lic) did d && Db.is_active d)
               (Db.device_activations st2) = true.
Proof.
  intros Hsel Hmail Hexp Hdid Hone Hact Hle.
  set (lid := Db.license_id lic) in *.
  unfold Manager.cancel_device_activation. rewrite Hact. cbn [negb].
  set (st1 := Db.log (Db.delete_device_rows lid did st) _).
  assert (Hn : List.length (filter (fun d => Db.is_device lid did d && Db.is_active d)
                              (Db.device_activations st)) = 1%nat).
  { pose proof (filter_both_le (Db.is_device lid did) Db.is_active
                  (Db.device_activations st)) as H1.
    pose proof (filter_length_pos _ _ Hact) as H2.
    unfold Db.matched_rows in Hone. lia. }
  assert (Hc1 : Db.count_active st1 lid = Db.count_active st lid - 1).
  { subst st1. rewrite count_active_log, count_active_delete_exact, Hn. lia. }
  assert (Hgone : Manager.has_device st1 lid did = false).
  { unfold Manager.has_device. subst st1.
    cbn [Db.log Db.delete_device_rows Db.with_devices Db.device_activations].
    apply existsb_filter_negb. }
  exists st1. eexists. split; [reflexivity|]. split; [exact Hc1|].
  split; [exact Hgone|].
  rewrite (first_activation_accepted st1 now code email lic did name ip
             Hsel Hmail Hexp Hdid Hgone) by (fold lid; lia).
  split; [reflexivity|].
  fold lid. cbn [Db.device_activations].
  split; [|split].
  - unfold Db.count_active at 1. cbn [Db.device_activations].
    rewrite filter_app, length_app. cbn [filter].
    unfold Db.is_active_of at 2.
    cbn [Scenario.new_row Db.da_license_id Db.is_active].
    rewrite String.eqb_refl. cbn [andb List.length].
    unfold Db.count_active in Hc1 |- *. lia.
  - unfold Db.matched_rows. cbn [Db.device_activations].
    rewrite filter_app, length_app. cbn [filter].
    unfold Db.is_device at 2.
    cbn [Scenario.new_row Db.da_license_id Db.da_device_id].
    rewrite !String.eqb_refl. cbn [andb List.length].
    unfold Manager.has_device in Hgone.
    rewrite (filter_false _ _ Hgone). reflexivity.
  - rewrite existsb_app. apply orb_true_iff. right. cbn.
    unfold Db.is_device. cbn [Scenario.new_row Db.da_license_id Db.da_device_id].
    now rewrite !String.eqb_refl.
Qed.

Lemma cancel_then_reactivate_witness :
  exists st1 st2,
    Manager.cancel_device_activation Example.store_full
      (Db.license_id Example.lic1) "mac-1" "sold"
    = (st1, true)
    /\ Db.count_active st1 (Db.license_id Example.lic1)
       = Db.count_active Example.store_full (Db.license_id Example.lic1) - 1
    /\ Manager.has_device st1 (Db.license_id Example.lic1) "mac-1" = false
    /\ Manager.verify_license_with_email st1 (Example.t0 + 60) Example.code1
         "ann@example.com" (Some "mac-1") (Some "MacBook") None
       = (st2, Manager.Valid (Manager.info_of Example.lic1 None))
    /\ Db.count_active st2 (Db.license_id Example.lic1)
       = Db.count_active Example.store_full (Db.license_id Example.lic1)
    /\ Db.matched_rows (Db.license_id Example.lic1) "mac-1" st2 = 1%nat
    /\ existsb (fun d => Db.is_device (Db.license_id Example.lic1) "mac-1" d
                         && Db.is_active d)
               (Db.device_activations st2) = true.
Proof.
  apply (cancel_then_reactivate Example.store_full (Example.t0 + 60) Example.code1
           "ann@example.com" Example.lic1 "mac-1" "sold" (Some "MacBook") None);
    try reflexivity; discriminate.
Defined.

(** X13. Suspension and restoration by the manager undo each other on the
    rows: when every row of a device is active, [deactivate_device]
    followed by [activate_device] gives back the table of devices as it
    was; both calls succeed, in between every row of the device is
    suspended, and the history has gained a [deactivate] and a [renew]
    entry. *)
Theorem deactivate_then_activate
    (st : Db.Store) (lid did reason1 reason2 : string) :
  Manager.has_device st lid did = true ->
  Scenario.all_active st lid did = true ->
  exists st1 st2,
    Manager.deactivate_device st lid did reason1 = (st1, true)
    /\ Scenario.all_suspended st1 lid did = true
    /\ Manager.activate_device st1 lid did reason2 = (st2, true)
    /\ Db.device_activations st2 = Db.device_activations st
    /\ Db.licenses st2 = Db.licenses st
    /\ Db.revoked_licenses st2 = Db.revoked_licenses st
    /\ map Db.action (Db.activation_history st2)
       = map Db.action (Db.activation_history st) ++ [Db.deactivate; Db.renew].
Proof.
  intros Hhas Hall.
  unfold Manager.deactivate_device. rewrite Hhas. cbn [negb].
  set (st1 := Db.log (Db.update_device (Db.set_active false) lid did st) _).
  assert (Hhas1 : Manager.has_device st1 lid did = true).
  { unfold Manager.has_device in *. subst st1.
    cbn [Db.log Db.update_device Db.with_devices Db.device_activations].
    rewrite existsb_exists in *. destruct Hhas as [d [Hin Hd]].
    exists (Db.set_active false d). split; [|exact Hd].
    apply in_map_iff. exists d. now rewrite Hd. }
  exists st1. eexists. split; [reflexivity|]. split.
  { unfold Scenario.all_suspended. subst st1.
    cbn [Db.log Db.update_device Db.with_devices Db.device_activations].
    rewrite forallb_forall. intros x Hx. apply in_map_iff in Hx as [d [<- _]].
    destruct (Db.is_device lid did d) eqn:E.
    - change (Db.is_device lid did (Db.set_active false d))
        with (Db.is_device lid did d). rewrite E. reflexivity.
    - now rewrite E. }
  unfold Manager.activate_device. rewrite Hhas1. cbn [negb].
  split; [reflexivity|].
  subst st1.
  cbn [Db.log Db.update_device Db.with_devices Db.device_activations Db.licenses
       Db.revoked_licenses Db.activation_history].
  split; [|split; [reflexivity|split; [reflexivity|]]].
  - rewrite map_map. rewrite <- (map_id (Db.device_activations st)) at 2.
    apply map_ext_in. intros d Hd.
    unfold Scenario.all_active in Hall. rewrite forallb_forall in Hall.
    specialize (Hall d Hd).
    destruct (Db.is_device lid did d) eqn:E.
    + change (Db.is_device lid did (Db.set_active false d))
        with (Db.is_device lid did d). rewrite E.
      cbn in Hall. now apply set_active_back.
    + now rewrite E.
  - rewrite !map_app. cbn. now rewrite <- app_assoc.
Qed.

Lemma deactivate_then_activate_witness :
  exists st1 st2,
    Manager.deactivate_device Example.store_full "LIC-1A2B3C4D" "mac-1" "lost"
    = (st1, true)
    /\ Scenario.all_suspended st1 "LIC-1A2B3C4D" "mac-1" = true
    /\ Manager.activate_device st1 "LIC-1A2B3C4D" "mac-1" "found" = (st2, true)
    /\ Db.device_activations st2 = Db.device_activations Example.store_full
    /\ Db.licenses st2 = Db.licenses Example.store_full
    /\ Db.revoked_licenses st2 = Db.revoked_licenses Example.store_full
    /\ map Db.action (Db.activation_history st2)
       = map Db.action (Db.activation_history Example.store_full)
         ++ [Db.deactivate; Db.renew].
Proof.
  apply (deactivate_then_activate Example.store_full "LIC-1A2B3C4D" "mac-1"
           "lost" "found"); reflexivity.
Defined.

(** ** The device endpoints *)

Section DeviceEndpointFacts.
Import PyStr Db Manager Api Scenario.

Lemma verify_check_valid (st : Store) (now : Z) (code email : string) (lic : License) :
  select_active_license st code = Some lic ->
  lower (Db.email lic) = lower email ->
  expired now lic = false ->
  verify_license_with_email st now code email None None None
  = (st, Valid (info_of lic None)).
Proof.
  intros Hsel Hmail Hexp. unfold verify_license_with_email.
  now rewrite Hsel, Hmail, String.eqb_refl, Hexp.
Qed.

Lemma changed_rows_suspended (st : Store) (lid did : string) :
  all_suspended st lid did = true -> changed_rows false lid did st = 0%nat.
Proof.
  unfold all_suspended, changed_rows. intros H.
  rewrite filter_false; [reflexivity|].
  rewrite forallb_forall in H.
  destruct (existsb _ _) eqn:E; [|reflexivity].
  apply existsb_exists in E as [d [Hin Hd]]. specialize (H d Hin).
  destruct (is_device lid did d), (is_active d); discriminate.
Qed.

Lemma matched_rows_pos (st : Store) (lid did : string) :
  has_device st lid did = true -> Nat.eqb (matched_rows lid did st) 0 = false.
Proof.
  intros H. apply Nat.eqb_neq. unfold matched_rows.
  pose proof (filter_length_pos _ _ H). lia.
Qed.

Lemma suspend_suspended_rows (st : Store) (lid did : string) :
  all_suspended st lid did = true ->
  device_activations (update_device (set_active false) lid did st)
  = device_activations st.
Proof.
  unfold all_suspended. intros H. rewrite forallb_forall in H.
  cbn [update_device with_devices device_activations].
  rewrite <- (map_id (device_activations st)) at 2.
  apply map_ext_in. intros d Hd. specialize (H d Hd).
  destruct (is_device lid did d); [|reflexivity].
  destruct d as [a b c e f g]. cbn in *. now destruct g.
Qed.

End DeviceEndpointFacts.

(** X14. The device endpoints of the license holder write nothing without
    valid credentials: when the request lacks the code or the email, or
    the two do not pass verification (unknown or revoked code, other
    email, expired license), suspend, restore, delete and cancel all
    answer 400 and leave the database as it was. *)
Theorem device_endpoints_need_credentials
    (found_rows : bool) (st : Db.Store) (now : Z) (data : Api.Json) :
  Scenario.credentials_ok st now data = false ->
  Forall (fun r : Db.Store * Api.Response =>
            fst r = st /\ Api.http_status (snd r) = 400
            /\ Api.success (snd r) = false)
    [ Api.suspend_device found_rows st now data;
      Api.restore_device found_rows st now data;
      Api.delete_device st now data;
      Api.cancel_activation st now data ].
Proof.
  unfold Scenario.credentials_ok, Api.suspend_device, Api.restore_device,
         Api.flip_device, Api.delete_device, Api.cancel_activation.
  intros H.
  destruct (Manager.truthy (Api.get data "activation_code")) as [code|];
    [|repeat constructor].
  destruct (Manager.truthy (Api.get data "email")) as [email|];
    [|repeat constructor].
  destruct (Manager.truthy (Api.get data "device_id")) as [did|];
    [|repeat constructor].
  destruct (Manager.verify_license_with_email st now code email None None None)
    as [st' [info|err]]; [discriminate H|].
  repeat constructor.
Qed.

Lemma device_endpoints_need_credentials_witness :
  Forall (fun r : Db.Store * Api.Response =>
            fst r = Example.store_revoked /\ Api.http_status (snd r) = 400
            /\ Api.success (snd r) = false)
    [ Api.suspend_device false Example.store_revoked (Example.t0 + 60)
        (Example.credentials "mac-1");
      Api.restore_device false Example.store_revoked (Example.t0 + 60)
        (Example.credentials "mac-1");
      Api.delete_device Example.store_revoked (Example.t0 + 60)
        (Example.credentials "mac-1");
      Api.cancel_activation Example.store_revoked (Example.t0 + 60)
        (Example.credentials "mac-1") ].
Proof.
  apply (device_endpoints_need_credentials false Example.store_revoked
           (Example.t0 + 60) (Example.credentials "mac-1")).
  reflexivity.
Defined.

(** X15. Suspending a device that is already suspended depends on what
    the connection reports as row count.  When it reports changed rows,
    the endpoint answers 500 and writes nothing, not even a history entry,
    and the administrator's endpoint answers 404 "device does not exist"
    for a device that has a row.  When it reports matched rows, the
    endpoint answers 200, the rows stay as they are and one [suspend]
    entry is appended. *)
Theorem repeated_suspension
    (st : Db.Store) (now : Z) (data admin_data : Api.Json)
    (code email did : string) (lic : Db.License) :
  Manager.truthy (Api.get data "activation_code") = Some code ->
  Manager.truthy (Api.get data "email") = Some email ->
  Manager.truthy (Api.get data "device_id") = Some did ->
  Manager.truthy (Api.get admin_data "license_id") = Some (Db.license_id lic) ->
  Manager.truthy (Api.get admin_data "device_id") = Some did ->
  Manager.select_active_license st code = Some lic ->
  PyStr.lower (Db.email lic) = PyStr.lower email ->
  Manager.expired now lic = false ->
  Manager.has_device st (Db.license_id lic) did = true ->
  Scenario.all_suspended st (Db.license_id lic) did = true ->
  Api.suspend_device false st now data
  = (st, Api.failure 500 "设备停用失败" None)
  /\ Admin.admin_deactivate_device false st true admin_data
     = (st, Api.failure 404 Api.MSG_NO_DEVICE None)
  /\ exists st',
       Api.suspend_device true st now data
       = (st', Api.mkResponse 200 true "设备已停用" None None)
       /\ Db.device_activations st' = Db.device_activations st
       /\ map Db.action (Db.activation_history st')
          = map Db.action (Db.activation_history st) ++ [Db.suspend].
Proof.
  intros Hc He Hd Hal Had Hsel Hmail Hexp Hhas Hsus.
  unfold Api.suspend_device, Api.flip_device, Admin.admin_deactivate_device.
  rewrite Hc, He, Hd, Hal, Had.
  rewrite (verify_check_valid st now code email lic Hsel Hmail Hexp).
  cbn [Manager.info_of Manager.r_license_id negb].
  rewrite Hhas. cbn [negb].
  unfold Api.update_rowcount.
  rewrite (changed_rows_suspended _ _ _ Hsus), (matched_rows_pos _ _ _ Hhas).
  cbn [Nat.eqb].
  split; [reflexivity|]. split; [reflexivity|].
  eexists. split; [reflexivity|].
  cbn [Db.log Db.device_activations Db.activation_history].
  split.
  - now apply suspend_suspended_rows.
  - cbn [Db.update_device Db.with_devices Db.activation_history].
    now rewrite map_app.
Qed.

Lemma repeated_suspension_witness :
  Api.suspend_device false Example.store_suspended (Example.t0 + 60)
    (Example.credentials "mac-1")
  = (Example.store_suspended, Api.failure 500 "设备停用失败" None)
  /\ Admin.admin_deactivate_device false Example.store_suspended true
       [("license_id", "LIC-1A2B3C4D"); ("device_id", "mac-1")]
     = (Example.store_suspended, Api.failure 404 Api.MSG_NO_DEVICE None)
  /\ exists st',
       Api.suspend_device true Example.store_suspended (Example.t0 + 60)
         (Example.credentials "mac-1")
       = (st', Api.mkResponse 200 true "设备已停用" None None)
       /\ Db.device_activations st' = Db.device_activations Example.store_suspended
       /\ map Db.action (Db.activation_history st')
          = map Db.action (Db.activation_history Example.store_suspended)
            ++ [Db.suspend].
Proof.
  apply (repeated_suspension Example.store_suspended (Example.t0 + 60)
           (Example.credentials "mac-1")
           [("license_id", "LIC-1A2B3C4D"); ("device_id", "mac-1")]
           Example.code1 "ann@example.com" "mac-1" Example.lic1);
    reflexivity.
Defined.

Section DeleteFacts.
Import Db Scenario.

Lemma delete_suspended_count (st : Store) (lid did lid' : string) :
  all_suspended st lid did = true ->
  count_active (delete_device_rows lid did st) lid' = count_active st lid'.
Proof.
  unfold all_suspended, count_active, delete_device_rows.
  cbn [with_devices device_activations]. intros H. f_equal. f_equal.
  induction (device_activations st) as [|d l IH]; [reflexivity|].
  cbn [forallb] in H. apply andb_true_iff in H as [Hd Hl].
  cbn [filter].
  destruct (is_device lid did d) eqn:E; cbn [negb] in *.
  - assert (F : is_active_of lid' d = false).
    { unfold is_active_of. destruct (is_active d); [discriminate|].
      apply andb_false_r. }
    rewrite F. now apply IH.
  - cbn [filter]. destruct (is_active_of lid' d); [f_equal|]; now apply IH.
Qed.

End DeleteFacts.

(** X16. A suspended device can be deleted but not cancelled: for a device
    whose rows are all suspended, the cancel endpoint answers 400 and
    changes nothing, while the delete endpoint answers 200, removes the
    rows of that device and no other row, leaves every active count as it
    was and appends a [delete] entry. *)
Theorem suspended_device_delete_not_cancel
    (st : Db.Store) (now : Z) (data : Api.Json)
    (code email did : string) (lic : Db.License) :
  Manager.truthy (Api.get data "activation_code") = Some code ->
  Manager.truthy (Api.get data "email") = Some email ->
  Manager.truthy (Api.get data "device_id") = Some did ->
  Manager.select_active_license st code = Some lic ->
  PyStr.lower (Db.email lic) = PyStr.lower email ->
  Manager.expired now lic = false ->
  Manager.has_device st (Db.license_id lic) did = true ->
  Scenario.all_suspended st (Db.license_id lic) did = true ->
  Api.cancel_activation st now data = (st, Api.failure 400 "取消激活失败" None)
  /\ exists st',
       Api.delete_device st now data
       = (st', Api.mkResponse 200 true "设备已删除" None None)
       /\ Manager.has_device st' (Db.license_id lic) did = false
       /\ Db.device_activations st'
          = filter (fun d => negb (Db.is_device (Db.license_id lic) did d))
                   (Db.device_activations st)
       /\ (forall lid, Db.count_active st' lid = Db.count_active st lid)
       /\ map Db.action (Db.activation_history st')
          = map Db.action (Db.activation_history st) ++ [Db.delete].
Proof.
  intros Hc He Hd Hsel Hmail Hexp Hhas Hsus.
  unfold Api.cancel_activation, Api.delete_device.
  rewrite Hc, He, Hd.
  rewrite (verify_check_valid st now code email lic Hsel Hmail Hexp).
  cbn [Manager.info_of Manager.r_license_id].
  split.
  - unfold Manager.cancel_device_activation.
    assert (E : existsb (fun d => Db.is_device (Db.license_id lic) did d
                                  && Db.is_active d)
                        (Db.device_activations st) = false).
    { unfold Scenario.all_suspended in Hsus. rewrite forallb_forall in Hsus.
      destruct (existsb _ _) eqn:E; [|reflexivity].
      apply existsb_exists in E as [d [Hin Hx]]. specialize (Hsus d Hin).
      destruct (Db.is_device _ _ d), (Db.is_active d); discriminate. }
    rewrite E. reflexivity.
  - rewrite Hhas, (matched_rows_pos _ _ _ Hhas). cbn [negb].
    eexists. split; [reflexivity|].
    cbn [Db.log Db.delete_device_rows Db.with_devices Db.device_activations
         Db.activation_history].
    split; [apply existsb_filter_negb|]. split; [reflexivity|]. split.
    + intros lid.
      exact (delete_suspended_count st (Db.license_id lic) did lid Hsus).
    + now rewrite map_app.
Qed.

Lemma suspended_device_delete_not_cancel_witness :
  Api.cancel_activation Example.store_suspended (Example.t0 + 60)
    (Example.credentials "mac-1")
  = (Example.store_suspended, Api.failure 400 "取消激活失败" None)
  /\ exists st',
       Api.delete_device Example.store_suspended (Example.t0 + 60)
         (Example.credentials "mac-1")
       = (st', Api.mkResponse 200 true "设备已删除" None None)
       /\ Manager.has_device st' (Db.license_id Example.lic1) "mac-1" = false
       /\ Db.device_activations st'
          = filter (fun d => negb (Db.is_device (Db.license_id Example.lic1) "mac-1" d))
                   (Db.device_activations Example.store_suspended)
       /\ (forall lid, Db.count_active st' lid
                       = Db.count_active Example.store_suspended lid)
       /\ map Db.action (Db.activation_history st')
          = map Db.action (Db.activation_history Example.store_suspended)
            ++ [Db.delete].
Proof.
  apply (suspended_device_delete_not_cancel Example.store_suspended
           (Example.t0 + 60) (Example.credentials "mac-1")
           Example.code1 "ann@example.com" "mac-1" Example.lic1);
    reflexivity.
Defined.

(** ** Revocation and its reversal *)

Section RevokeRestoreFacts.
Import PyStr Db Manager Api Admin.

Lemma filter_true {A} (p : A -> bool) (l : list A) :
  existsb (fun x => negb (p x)) l = false -> filter p l = l.
Proof.
  induction l as [|x l IH]; simpl; [reflexivity|].
  destruct (p x); simpl; [intros H; now rewrite IH | discriminate].
Qed.

Lemma status_round_trip (lid : string) (l : list License) :
  forallb (fun x => negb (String.eqb (license_id x) lid)
                    || Status_eqb (status x) active) l = true ->
  map (fun x => if String.eqb (license_id x) lid then set_status active x else x)
      (map (fun x => if String.eqb (license_id x) lid then set_status revoked x else x) l)
  = l.
Proof.
  intros H. rewrite forallb_forall in H.
  rewrite map_map. rewrite <- (map_id l) at 2.
  apply map_ext_in. intros x Hx. specialize (H x Hx).
  destruct (String.eqb (license_id x) lid) eqn:E.
  - cbn [set_status license_id]. rewrite E.
    destruct x as [a b c d e f g h st]. cbn in *. now destruct st.
  - now rewrite E.
Qed.

Lemma existsb_map_comp {A B} (p : B -> bool) (f : A -> B) (l : list A) :
  existsb p (map f l) = existsb (fun x => p (f x)) l.
Proof. induction l as [|x l IH]; simpl; [reflexivity | now rewrite IH]. Qed.

Lemma find_filter_head {A} (p : A -> bool) (l : list A) :
  find p l = hd_error (filter p l).
Proof.
  induction l as [|x l IH]; simpl; [reflexivity|].
  now destruct (p x).
Qed.

Lemma filter_and {A} (p q : A -> bool) (l : list A) :
  filter (fun x => p x && q x) l = filter q (filter p l).
Proof.
  induction l as [|x l IH]; simpl; [reflexivity|].
  destruct (p x); simpl; [destruct (q x)|]; now rewrite IH.
Qed.

End RevokeRestoreFacts.

(** X17. Revocation shuts verification off: once a license is revoked,
    every verification with an activation code that belongs to no other
    license is answered with the "code unknown or disabled" error,
    whatever the email, the device and the time, and writes nothing; so a
    device that was bound loses its heartbeat. *)
Theorem revocation_blocks_verification
    (st : Db.Store) (lid reason code : string) (revoked_by : option string)
    (now : Z) (email : string) (device_id device_name ip : option string) :
  Manager.has_license st lid = true ->
  (forall l, In l (Db.licenses st) -> Db.activation_code l = code ->
             Db.license_id l = lid) ->
  exists st1,
    Manager.revoke_license st lid reason revoked_by = (st1, true)
    /\ Manager.verify_license_with_email st1 now code email device_id device_name ip
       = (st1, Manager.Invalid Manager.ERR_CODE_NOT_FOUND).
Proof.
  intros Hhas Hcode.
  unfold Manager.revoke_license. rewrite Hhas. cbn [negb].
  eexists. split; [reflexivity|].
  unfold Manager.verify_license_with_email, Manager.select_active_license.
  cbn [Db.log Db.with_licenses Db.licenses].
  assert (Hlic : Db.licenses (Manager.upsert_revoked st lid reason revoked_by)
                 = Db.licenses st).
  { unfold Manager.upsert_revoked. now destruct (existsb _ _). }
  rewrite Hlic.
  assert (E : find (fun l => String.eqb (Db.activation_code l) code
                             && Db.Status_eqb (Db.status l) Db.active)
                   (map (fun l => if String.eqb (Db.license_id l) lid
                                  then Manager.set_status Db.revoked l else l)
                        (Db.licenses st)) = None).
  { apply find_none_existsb. rewrite existsb_map_comp.
    destruct (existsb _ _) eqn:F; [|reflexivity].
    apply existsb_exists in F as [l [Hin Hl]].
    destruct (String.eqb (Db.license_id l) lid) eqn:El.
    - cbn in Hl. now rewrite andb_false_r in Hl.
    - apply andb_true_iff in Hl as [Hc _]. apply String.eqb_eq in Hc.
      apply String.eqb_neq in El. now specialize (Hcode l Hin Hc). }
  now rewrite E.
Qed.

Lemma revocation_blocks_verification_witness :
  exists st1,
    Manager.revoke_license Example.store_full "LIC-1A2B3C4D" "chargeback"
      (Some "admin") = (st1, true)
    /\ Manager.verify_license_with_email st1 (Example.t0 + 60) Example.code1
         "ann@example.com" (Some "mac-1") (Some "MacBook") None
       = (st1, Manager.Invalid Manager.ERR_CODE_NOT_FOUND).
Proof.
  apply (revocation_blocks_verification Example.store_full "LIC-1A2B3C4D"
           "chargeback" Example.code1 (Some "admin") (Example.t0 + 60)
           "ann@example.com" (Some "mac-1") (Some "MacBook") None).
  - reflexivity.
  - intros l [<-|[]] _. reflexivity.
Defined.

(** X18. The administrator's restore undoes a revocation and leaves no
    trace of itself: on a license whose rows were active and which had no
    revocation record, revoking and then restoring gives back the tables
    of licenses, of revocation records and of devices as they were; the
    history keeps the [revoke] entry and gets no entry for the restore. *)
Theorem restore_undoes_revocation
    (st : Db.Store) (lid reason : string) (revoked_by : option string) :
  lid <> "" ->
  Manager.has_license st lid = true ->
  forallb (fun x => negb (String.eqb (Db.license_id x) lid)
                    || Db.Status_eqb (Db.status x) Db.active)
          (Db.licenses st) = true ->
  existsb (Manager.has_key lid) (Db.revoked_licenses st) = false ->
  exists st1 st2,
    Manager.revoke_license st lid reason revoked_by = (st1, true)
    /\ Admin.admin_restore_license st1 true (Some lid) = (st2, Admin.OK)
    /\ Db.licenses st2 = Db.licenses st
    /\ Db.revoked_licenses st2 = Db.revoked_licenses st
    /\ Db.device_activations st2 = Db.device_activations st
    /\ Db.activation_history st2
       = Db.activation_history st ++ [Scenario.revoke_entry lid reason revoked_by].
Proof.
  intros Hlid Hhas Hact Hnone.
  unfold Manager.revoke_license. rewrite Hhas. cbn [negb].
  eexists. eexists. split; [reflexivity|].
  unfold Admin.admin_restore_license. cbn [negb Manager.truthy].
  rewrite (string_eqb_neq_empty _ Hlid).
  split; [reflexivity|].
  unfold Manager.upsert_revoked. rewrite Hnone.
  cbn [Db.log Db.with_licenses Db.with_revoked Db.licenses Db.revoked_licenses
       Db.device_activations Db.activation_history].
  split; [now apply status_round_trip|]. split; [|split; reflexivity].
  rewrite filter_app. cbn [filter].
  unfold Manager.has_key at 2. cbn [Db.rl_license_id].
  rewrite String.eqb_refl. cbn [negb]. rewrite app_nil_r.
  apply filter_true.
  revert Hnone. apply existsb_weaken. intros r Hr.
  now rewrite negb_involutive in Hr.
Qed.

Lemma restore_undoes_revocation_witness :
  exists st1 st2,
    Manager.revoke_license Example.store_full "LIC-1A2B3C4D" "chargeback"
      (Some "admin") = (st1, true)
    /\ Admin.admin_restore_license st1 true (Some "LIC-1A2B3C4D") = (st2, Admin.OK)
    /\ Db.licenses st2 = Db.licenses Example.store_full
    /\ Db.revoked_licenses st2 = Db.revoked_licenses Example.store_full
    /\ Db.device_activations st2 = Db.device_activations Example.store_full
    /\ Db.activation_history st2
       = Db.activation_history Example.store_full
         ++ [Scenario.revoke_entry "LIC-1A2B3C4D" "chargeback" (Some "admin")].
Proof.
  apply (restore_undoes_revocation Example.store_full "LIC-1A2B3C4D"
           "chargeback" (Some "admin")); try reflexivity.
  discriminate.
Defined.

(** X19. The revocation check follows revocation and restore: for a
    request that names a license and the email stored with it, the check
    answers "revoked" with the reason and the author of the revocation
    once the license is revoked, and "not revoked" again after the
    administrator's restore. *)
Theorem revoke_status_follows_revocation
    (st : Db.Store) (key lid email reason : string) (revoked_by : option string)
    (data : Api.Json) :
  key <> "" -> lid <> "" -> email <> "" ->
  PyStr.strip (Api.get_default data "license_id" "") = lid ->
  PyStr.strip (Api.get_default data "email" "") = email ->
  existsb (fun l => String.eqb lid (Db.license_id l) && String.eqb (Db.email l) email)
          (Db.licenses st) = true ->
  NoDup (map Db.rl_license_id (Db.revoked_licenses st)) ->
  exists st1 st2,
    Manager.revoke_license st lid reason revoked_by = (st1, true)
    /\ Admin.check_revoke_status st1 key (Some key) data
       = Admin.Revoked reason revoked_by
    /\ Admin.admin_restore_license st1 true (Some lid) = (st2, Admin.OK)
    /\ Admin.check_revoke_status st2 key (Some key) data = Admin.NotRevoked.
Proof.
  intros Hkey Hlid Hmail Hdl Hde Hjoin Hnd.
  assert (Hhas : Manager.has_license st lid = true).
  { unfold Manager.has_license. apply existsb_exists.
    apply existsb_exists in Hjoin as [l [Hin Hl]].
    exists l. split; [exact Hin|].
    apply andb_true_iff in Hl as [Hl _]. now rewrite String.eqb_sym. }
  unfold Manager.revoke_license. rewrite Hhas. cbn [negb].
  eexists. eexists. split; [reflexivity|].
  destruct (upsert_revoked_spec st lid reason revoked_by (or_introl Hnd))
    as [Hrow [_ [Hlic _]]].
  set (u := Manager.upsert_revoked st lid reason revoked_by) in *.
  unfold Admin.check_revoke_status, Admin.admin_restore_license.
  cbn [Manager.truthy negb].
  rewrite (string_eqb_neq_empty _ Hkey), String.eqb_refl, Hdl, Hde.
  rewrite (string_eqb_neq_empty _ Hlid), (string_eqb_neq_empty _ Hmail).
  cbn [negb orb].
  cbn [Db.log Db.with_licenses Db.with_revoked Db.licenses Db.revoked_licenses].
  split; [|split; [reflexivity|]].
  - rewrite find_filter_head, filter_and, Hrow. cbn [filter Db.rl_license_id].
    assert (J : existsb (fun l => String.eqb lid (Db.license_id l)
                                  && String.eqb (Db.email l) email)
                  (map (fun l => if String.eqb (Db.license_id l) lid
                                 then Manager.set_status Db.revoked l else l)
                       (Db.licenses u)) = true).
    { rewrite existsb_map_comp, Hlic. rewrite <- Hjoin.
      clear. induction (Db.licenses st) as [|l ls IH]; [reflexivity|].
      cbn [existsb]. rewrite IH. f_equal.
      now destruct (String.eqb (Db.license_id l) lid). }
    rewrite J. reflexivity.
  - match goal with
    | |- match find ?p ?l with _ => _ end = _ =>
        assert (E : find p l = None); [|now rewrite E]
    end.
    apply find_none_existsb.
    match goal with |- ?b = false => destruct b eqn:E; [|reflexivity] end.
    apply existsb_exists in E as [r [Hin Hr]].
    apply filter_In in Hin as [_ Hk]. apply andb_true_iff in Hr as [Hr _].
    rewrite Hr in Hk. discriminate.
Qed.

Lemma revoke_status_follows_revocation_witness :
  exists st1 st2,
    Manager.revoke_license Example.store_full "LIC-1A2B3C4D" "chargeback"
      (Some "admin") = (st1, true)
    /\ Admin.check_revoke_status st1 Example.API_KEY (Some Example.API_KEY)
         [("license_id", "LIC-1A2B3C4D"); ("email", "Ann@Example.com")]
       = Admin.Revoked "chargeback" (Some "admin")
    /\ Admin.admin_restore_license st1 true (Some "LIC-1A2B3C4D") = (st2, Admin.OK)
    /\ Admin.check_revoke_status st2 Example.API_KEY (Some Example.API_KEY)
         [("license_id", "LIC-1A2B3C4D"); ("email", "Ann@Example.com")]
       = Admin.NotRevoked.
Proof.
  apply (revoke_status_follows_revocation Example.store_full Example.API_KEY
           "LIC-1A2B3C4D" "Ann@Example.com" "chargeback" (Some "admin")
           [("license_id", "LIC-1A2B3C4D"); ("email", "Ann@Example.com")]);
    try reflexivity; try discriminate.
  constructor.
Defined.

(** X20. The administrator's delete purges a license from every table:
    afterwards no license row, device row, revocation record or history
    entry names it, so its audit trail is gone as well, and the rows of
    every other license are all still there. *)
Theorem purge_removes_every_trace (st : Db.Store) (lid : string) :
  lid <> "" ->
  exists st',
    Admin.admin_delete_license st true (Some lid) = (st', Admin.OK)
    /\ Manager.has_license st' lid = false
    /\ (forall did, Manager.has_device st' lid did = false)
    /\ existsb (Manager.has_key lid) (Db.revoked_licenses st') = false
    /\ existsb (fun h => String.eqb (Db.h_license_id h) lid)
               (Db.activation_history st') = false
    /\ (forall l, Db.license_id l <> lid ->
                  (In l (Db.licenses st') <-> In l (Db.licenses st)))
    /\ (forall d, Db.da_license_id d <> lid ->
                  (In d (Db.device_activations st') <-> In d (Db.device_activations st)))
    /\ (forall h, Db.h_license_id h <> lid ->
                  (In h (Db.activation_history st') <-> In h (Db.activation_history st)))
    /\ (forall other, other <> lid ->
                      Db.count_active st' other = Db.count_active st other).
Proof.
  intros Hlid. unfold Admin.admin_delete_license. cbn [negb Manager.truthy].
  rewrite (string_eqb_neq_empty _ Hlid).
  eexists. split; [reflexivity|].
  cbn [Db.licenses Db.device_activations Db.revoked_licenses Db.activation_history].
  unfold Manager.has_license, Manager.has_device.
  cbn [Db.licenses Db.device_activations].
  split; [apply existsb_filter_negb|].
  split.
  { intros did. destruct (existsb _ _) eqn:E; [|reflexivity].
    apply existsb_exists in E as [d [Hin Hd]].
    apply filter_In in Hin as [_ Hk].
    unfold Db.is_device in Hd. apply andb_true_iff in Hd as [Hd _].
    rewrite Hd in Hk. discriminate. }
  split; [apply existsb_filter_negb|].
  split; [apply (existsb_filter_negb (fun h => String.eqb (Db.h_license_id h) lid))|].
  split; [|split; [|split]].
  - intros l Hl. rewrite filter_In. apply String.eqb_neq in Hl. rewrite Hl. tauto.
  - intros d Hd. rewrite filter_In. apply String.eqb_neq in Hd. rewrite Hd. tauto.
  - intros h Hh. rewrite filter_In. apply String.eqb_neq in Hh. rewrite Hh. tauto.
  - intros other Hother. unfold Db.count_active. cbn [Db.device_activations].
    f_equal. f_equal.
    induction (Db.device_activations st) as [|d l IH]; [reflexivity|].
    cbn [filter].
    destruct (String.eqb (Db.da_license_id d) lid) eqn:E; cbn [negb].
    + apply String.eqb_eq in E.
      assert (F : Db.is_active_of other d = false).
      { unfold Db.is_active_of. rewrite E.
        apply String.eqb_neq in Hother. rewrite String.eqb_sym, Hother.
        reflexivity. }
      now rewrite F.
    + cbn [filter]. now rewrite IH.
Qed.

Lemma purge_removes_every_trace_witness :
  exists st',
    Admin.admin_delete_license Example.store_revoked true (Some "LIC-1A2B3C4D")
    = (st', Admin.OK)
    /\ st' = Db.empty.
Proof.
  destruct (purge_removes_every_trace Example.store_revoked "LIC-1A2B3C4D")
    as [st' [H _]]; [discriminate|].
  exists st'. split; [exact H|].
  vm_compute in H. now injection H as <-.
Defined.

(** ** Backfilling the expiry *)

Section BackfillFacts.
Import Db Admin Backfill.

Lemma fill_settles (l : License) :
  let x := fill yearly 365 (fill monthly 30 l) in
  fill monthly 30 x = x /\ fill yearly 365 x = x
  /\ fillable monthly 30 x = false /\ fillable yearly 365 x = false.
Proof.
  destruct l as [a b c p e i v h s].
  unfold fill, fillable, lacks_expiry, set_valid_until.
  destruct p, v as [t|]; cbn; auto;
    destruct i as [t0|]; cbn; auto;
    match goal with
    | |- context [Clock.in_range ?z] => destruct (Clock.in_range z) eqn:E
    end; cbn; rewrite ?E; auto.
Qed.

Lemma backfill_licenses (st : Store) :
  licenses (backfill yearly 365 (backfill monthly 30 st))
  = map (fun l => fill yearly 365 (fill monthly 30 l)) (licenses st).
Proof.
  unfold backfill. cbn [with_licenses licenses]. now rewrite map_map.
Qed.

Lemma fill_keeps (p : Plan) (d : Z) (l : License) :
  lacks_expiry p l = false -> fill p d l = l.
Proof. unfold fill. now intros ->. Qed.

Lemma backfill_id (p : Plan) (d : Z) (st : Store) :
  (forall x, In x (licenses st) -> fill p d x = x) -> backfill p d st = st.
Proof.
  intros H. unfold backfill, with_licenses.
  replace (map _ (licenses st)) with (licenses st); [now destruct st|].
  rewrite <- (map_id (licenses st)) at 1.
  apply map_ext_in. intros x Hx. symmetry. exact (H x Hx).
Qed.

End BackfillFacts.

(** X21. The backfill of missing expiries settles in one run: a second
    run changes nothing and, when the connection reports changed rows,
    reports none.  A row with an expiry and a lifetime row are never
    touched; a monthly row without expiry gets its issue instant plus 30
    days, one day less than the 31 days a monthly license gets at
    issuance. *)
Theorem backfill_settles (found_rows : bool) (st : Db.Store) :
  exists st1 m y,
    Admin.admin_backfill_valid_until found_rows st true
    = (st1, Admin.Backfilled m y)
    /\ Admin.admin_backfill_valid_until false st1 true
       = (st1, Admin.Backfilled 0 0)
    /\ fst (Admin.admin_backfill_valid_until true st1 true) = st1
    /\ Db.device_activations st1 = Db.device_activations st
    /\ (forall l, In l (Db.licenses st) ->
                  Db.valid_until l <> None \/ Db.plan l = Db.lifetime ->
                  In l (Db.licenses st1))
    /\ (forall l, In l (Db.licenses st) ->
                  Db.plan l = Db.monthly -> Db.valid_until l = None ->
                  In (Admin.set_valid_until
                        (Clock.sql_date_add (Db.issued_at l) 30) l)
                     (Db.licenses st1))
    /\ Manager.resolve_days Db.monthly None = Some 31.
Proof.
  unfold Admin.admin_backfill_valid_until. cbn [negb].
  exists (Admin.backfill Db.yearly 365 (Admin.backfill Db.monthly 30 st)),
         (Admin.backfill_rowcount found_rows Db.monthly 30 st),
         (Admin.backfill_rowcount found_rows Db.yearly 365
            (Admin.backfill Db.monthly 30 st)).
  split; [reflexivity|].
  set (st1 := Admin.backfill Db.yearly 365 (Admin.backfill Db.monthly 30 st)).
  assert (Hl : Db.licenses st1
               = map (fun l => Backfill.fill Db.yearly 365 (Backfill.fill Db.monthly 30 l))
                     (Db.licenses st)) by apply backfill_licenses.
  assert (Hm1 : Admin.backfill Db.monthly 30 st1 = st1).
  { apply backfill_id. intros x Hx. rewrite Hl in Hx.
    apply in_map_iff in Hx as [l [<- _]].
    now destruct (fill_settles l) as [F1 _]. }
  assert (Hy1 : Admin.backfill Db.yearly 365 st1 = st1).
  { apply backfill_id. intros x Hx. rewrite Hl in Hx.
    apply in_map_iff in Hx as [l [<- _]].
    now destruct (fill_settles l) as [_ [F2 _]]. }
  assert (Hfix : Admin.backfill Db.yearly 365 (Admin.backfill Db.monthly 30 st1) = st1).
  { now rewrite Hm1, Hy1. }
  assert (Hcount : forall p d,
            (p = Db.monthly /\ d = 30) \/ (p = Db.yearly /\ d = 365) ->
            Admin.backfill_rowcount false p d st1 = 0%nat).
  { intros p d Hpd. unfold Admin.backfill_rowcount. cbn [orb].
    rewrite filter_false; [reflexivity|].
    destruct (existsb _ _) eqn:E; [|reflexivity].
    apply existsb_exists in E as [x [Hx Hf]]. rewrite Hl in Hx.
    apply in_map_iff in Hx as [l [<- _]].
    destruct (fill_settles l) as [_ [_ [G1 G2]]]. cbv zeta in G1, G2.
    unfold Backfill.fillable in G1, G2.
    destruct Hpd as [[-> ->]|[-> ->]]; congruence. }
  split.
  { rewrite Hm1, Hy1, !Hcount by auto. reflexivity. }
  split; [cbn [fst]; exact Hfix|].
  split; [reflexivity|].
  split; [|split; [|reflexivity]].
  - intros l Hin Hkeep. rewrite Hl. apply in_map_iff. exists l.
    split; [|exact Hin].
    assert (K : forall p, p <> Db.lifetime -> Admin.lacks_expiry p l = false).
    { intros p Hp. unfold Admin.lacks_expiry.
      destruct Hkeep as [Hv|Hlife].
      - destruct (Db.valid_until l); [apply andb_false_r | contradiction].
      - rewrite Hlife. destruct p; [reflexivity | reflexivity | contradiction]. }
    rewrite (fill_keeps Db.monthly 30 l) by (apply K; discriminate).
    apply fill_keeps, K. discriminate.
  - intros l Hin Hp Hv. rewrite Hl. apply in_map_iff. exists l.
    split; [|exact Hin].
    assert (E1 : Admin.lacks_expiry Db.monthly l = true).
    { unfold Admin.lacks_expiry. now rewrite Hp, Hv. }
    replace (Backfill.fill Db.monthly 30 l)
      with (Admin.set_valid_until (Clock.sql_date_add (Db.issued_at l) 30) l)
      by (unfold Backfill.fill; now rewrite E1).
    apply fill_keeps. unfold Admin.lacks_expiry.
    destruct l as [a b c p e i v h s]. cbn in Hp |- *. now rewrite Hp.
Qed.

(** ** The device limit set by the administrator *)

Section CapFacts.
Import PyStr Db Manager Api Admin.

Lemma find_map_same {A} (p : A -> bool) (f : A -> A) (l : list A) :
  (forall x, p (f x) = p x) -> find p (map f l) = option_map f (find p l).
Proof.
  intros H. induction l as [|x l IH]; simpl; [reflexivity|].
  rewrite H. destruct (p x); [reflexivity | exact IH].
Qed.

Lemma select_after_cap (st : Store) (lid code : string) (cap : Z) (lic : License) :
  select_active_license st code = Some lic ->
  license_id lic = lid ->
  select_active_license
    (with_licenses st
       (map (fun l => if String.eqb (license_id l) lid
                      then set_device_limit cap l else l) (licenses st))) code
  = Some (set_device_limit cap lic).
Proof.
  intros Hsel Hid. unfold select_active_license in *.
  cbn [with_licenses licenses].
  rewrite find_map_same.
  - rewrite Hsel. cbn [option_map]. now rewrite Hid, String.eqb_refl.
  - intros x. now destruct (String.eqb (license_id x) lid).
Qed.

End CapFacts.

(** X10. Lowering the device limit of a license to or below the number of
    its active devices evicts none of them: the device rows stay as they
    are, a device that is already bound keeps verifying, and only a device
    without a row is refused, with the new limit in the message. *)
Theorem lowered_cap_evicts_no_device
    (st : Db.Store) (now : Z) (code email : string) (lic : Db.License)
    (d : Db.DeviceActivation) (did other : string) (name ip : option string)
    (cap : Z) :
  Manager.select_active_license st code = Some lic ->
  PyStr.lower (Db.email lic) = PyStr.lower email ->
  Manager.expired now lic = false ->
  Db.license_id lic <> "" -> did <> "" -> other <> "" ->
  find (Db.is_device (Db.license_id lic) did) (Db.device_activations st) = Some d ->
  Db.is_active d = true ->
  Manager.has_device st (Db.license_id lic) other = false ->
  cap <= Db.count_active st (Db.license_id lic) ->
  exists st',
    Admin.admin_update_device_cap st true (Some (Db.license_id lic)) (Some cap)
    = (st', Admin.OK)
    /\ Db.device_activations st' = Db.device_activations st
    /\ Manager.is_valid
         (snd (Manager.verify_license_with_email st' now code email (Some did)
                 name ip)) = true
    /\ Manager.verify_license_with_email st' now code email (Some other) name ip
       = (st', Manager.Invalid (Manager.ERR_QUOTA cap)).
Proof.
  intros Hsel Hmail Hexp Hlid Hdid Hother Hrow Hact Hnew Hcap.
  unfold Admin.admin_update_device_cap. cbn [negb Manager.truthy].
  rewrite (string_eqb_neq_empty _ Hlid).
  eexists. split; [reflexivity|].
  split; [reflexivity|].
  pose proof (select_after_cap st (Db.license_id lic) code cap lic Hsel eq_refl)
    as Hsel'.
  split.
  - unfold Manager.verify_license_with_email. rewrite Hsel'.
    cbn [Admin.set_device_limit Db.email Db.license_id].
    rewrite Hmail, String.eqb_refl. cbn [negb].
    replace (Manager.expired now (Admin.set_device_limit cap lic)) with false
      by (symmetry; exact Hexp).
    cbn [Manager.truthy]. rewrite (string_eqb_neq_empty _ Hdid).
    cbn [Db.with_licenses Db.device_activations].
    rewrite Hrow, Hact. reflexivity.
  - apply (first_activation_refused _ now code email
             (Admin.set_device_limit cap lic) other name ip Hsel');
      try assumption.
Qed.

Lemma lowered_cap_evicts_no_device_witness :
  exists st',
    Admin.admin_update_device_cap Example.store_full true (Some "LIC-1A2B3C4D")
      (Some 0)
    = (st', Admin.OK)
    /\ Db.device_activations st' = Db.device_activations Example.store_full
    /\ Manager.is_valid
         (snd (Manager.verify_license_with_email st' (Example.t0 + 60)
                 Example.code1 "ann@example.com" (Some "mac-1") None None)) = true
    /\ Manager.verify_license_with_email st' (Example.t0 + 60) Example.code1
         "ann@example.com" (Some "mac-2") None None
       = (st', Manager.Invalid (Manager.ERR_QUOTA 0)).
Proof.
  apply (lowered_cap_evicts_no_device Example.store_full (Example.t0 + 60)
           Example.code1 "ann@example.com" Example.lic1 Example.mac1
           "mac-1" "mac-2" None None 0);
    try reflexivity; try discriminate.
Defined.

(** ** Statistics *)

Section ReportFacts.
Import Db Manager Reports.

Lemma count_by_plan (p : License -> bool) (l : list License) :
  count p l
  = count (fun x => p x && Plan_eqb (plan x) monthly) l
    + count (fun x => p x && Plan_eqb (plan x) yearly) l
    + count (fun x => p x && Plan_eqb (plan x) lifetime) l.
Proof.
  unfold count. induction l as [|x l IH]; [reflexivity|].
  cbn [filter]. destruct (p x); cbn [andb]; [|exact IH].
  destruct (plan x); cbn [Plan_eqb List.length]; lia.
Qed.

Lemma count_bounds {A} (p : A -> bool) (l : list A) :
  0 <= count p l <= Z.of_nat (List.length l).
Proof.
  unfold count. pose proof (filter_length_le p l). lia.
Qed.

End ReportFacts.

(** X22. The statistics are consistent with one another: the numbers per
    plan add up to the number of active licenses, which is at most the
    number of licenses; a plan has an item only with a positive number (a
    plan without active license is absent, not 0), and no plan has two
    items; the active devices are at most the device rows. *)
Theorem statistics_add_up (st : Db.Store) :
  let s := Reports.get_license_statistics st in
  fold_right Z.add 0 (map snd (Reports.plan_statistics s))
  = Reports.active_licenses s
  /\ 0 <= Reports.active_licenses s <= Reports.total_licenses s
  /\ (forall p n, In (p, n) (Reports.plan_statistics s) -> 0 < n)
  /\ NoDup (map fst (Reports.plan_statistics s))
  /\ 0 <= Reports.active_devices s
     <= Z.of_nat (List.length (Db.device_activations st)).
Proof.
  cbv zeta. unfold Reports.get_license_statistics.
  cbn [Reports.plan_statistics Reports.active_licenses Reports.total_licenses
       Reports.active_devices].
  split; [|split; [apply count_bounds|split; [|split; [|apply count_bounds]]]].
  - rewrite (count_by_plan Reports.is_active_license (Db.licenses st)).
    unfold Reports.plan_counts. cbn [map filter snd].
    pose proof (count_bounds
                  (fun l => Reports.is_active_license l
                            && Db.Plan_eqb (Db.plan l) Db.monthly)
                  (Db.licenses st)) as [Hm _].
    pose proof (count_bounds
                  (fun l => Reports.is_active_license l
                            && Db.Plan_eqb (Db.plan l) Db.yearly)
                  (Db.licenses st)) as [Hy _].
    pose proof (count_bounds
                  (fun l => Reports.is_active_license l
                            && Db.Plan_eqb (Db.plan l) Db.lifetime)
                  (Db.licenses st)) as [Hl _].
    repeat match goal with
           | |- context [0 <? ?c] => destruct (Z.ltb_spec 0 c)
           end; cbn [map snd fold_right]; lia.
  - intros p n Hin. unfold Reports.plan_counts in Hin.
    apply filter_In in Hin as [_ Hpos]. now apply Z.ltb_lt in Hpos.
  - unfold Reports.plan_counts. cbn [map filter snd].
    repeat match goal with
           | |- context [0 <? ?c] => destruct (0 <? c)
           end; cbn [map fst];
      repeat constructor; cbn [In]; intuition discriminate.
Qed.

(** ** Issuing in batches *)

Section BatchFacts.
Import PyStr Db Manager Reports.

Lemma issued_row (st : Store) (e : Entropy) (plan : option string)
    (email : string) (device_cap : Z) (days : option Z)
    (user_hint : option string) (st' : Store) (l : License) :
  generate_license_with_email st e plan email device_cap days user_hint
  = (st', Issued l) ->
  st' = with_licenses st (licenses st ++ [l])
  /\ is_valid_email email = true
  /\ normalize_plan plan <> None
  /\ Db.email l = email /\ device_limit l = device_cap /\ status l = active.
Proof.
  unfold generate_license_with_email.
  destruct (is_valid_email email); [|discriminate]. cbn [negb].
  destruct (normalize_plan plan) as [p|]; [|discriminate].
  destruct (CodeGen.generate_activation_code _ _) as [code|]; [|discriminate].
  destruct (compute_valid_until _ p _) as [v|]; [|discriminate].
  unfold insert_license.
  destruct (existsb _ _); [discriminate|].
  intros [= <- <-]. repeat split; try reflexivity. discriminate.
Qed.

Lemma issue_error_store (st : Store) (e : Entropy) (plan : option string)
    (email : string) (device_cap : Z) (days : option Z)
    (user_hint : option string) (st' : Store) (error : string) :
  generate_license_with_email st e plan email device_cap days user_hint
  = (st', IssueError error) ->
  st' = st.
Proof.
  unfold generate_license_with_email.
  destruct (negb _); [now intros [= <- _]|].
  destruct (normalize_plan plan) as [p|]; [|now intros [= <- _]].
  destruct (CodeGen.generate_activation_code _ _) as [code|]; [|now intros [= <- _]].
  destruct (compute_valid_until _ p _) as [v|]; [|now intros [= <- _]].
  destruct (insert_license _ _); [discriminate | now intros [= <- _]].
Qed.

(** What the loop of a batch leaves behind. *)
Lemma batch_loop_outcome (entropy : nat -> Entropy) (plan : option string)
    (device_cap : Z) (days : option Z) (user_hint : option string)
    (emails : list string) :
  forall (st : Store) (i : nat) (st' : Store) (ls : list License),
    batch_loop st entropy i plan emails device_cap days user_hint = (st', ls) ->
    st' = with_licenses st (licenses st ++ ls)
    /\ (List.length ls <= List.length emails)%nat
    /\ (normalize_plan plan = None -> ls = [])
    /\ Forall (fun l => In (Db.email l) emails
                        /\ is_valid_email (Db.email l) = true
                        /\ device_limit l = device_cap
                        /\ status l = active) ls.
Proof.
  induction emails as [|email rest IH]; intros st i st' ls.
  - cbn [batch_loop]. intros [= <- <-]. rewrite app_nil_r.
    split; [now destruct st|]. split; [apply Nat.le_refl|].
    split; [reflexivity | constructor].
  - cbn [batch_loop].
    destruct (generate_license_with_email st (entropy i) plan email device_cap
                days user_hint) as [st1 [l|error]] eqn:G.
    + destruct (batch_loop st1 entropy (S i) plan rest device_cap days user_hint)
        as [st2 ls2] eqn:B.
      intros [= <- <-].
      apply issued_row in G as [-> [Hv [Hp [He [Hc Hs]]]]].
      apply IH in B as [-> [Hlen [_ Hall]]].
      cbn [with_licenses licenses device_activations revoked_licenses
           activation_history List.length].
      split; [|split; [|split]].
      * now rewrite <- app_assoc.
      * lia.
      * intros Hnone. contradiction.
      * constructor.
        -- cbn [In]. rewrite He. auto.
        -- eapply Forall_impl; [|exact Hall]. cbn [In]. intuition.
    + intros B. apply issue_error_store in G as ->.
      apply IH in B as [-> [Hlen [Hnone Hall]]].
      cbn [List.length]. split; [reflexivity|].
      split; [lia|]. split; [exact Hnone|].
      eapply Forall_impl; [|exact Hall]. cbn [In]. intuition.
Qed.

End BatchFacts.

(** X23. A batch whose number of emails differs from the count issues
    nothing and returns the one error.  Otherwise the batch never fails as
    a whole: the emails that cannot be served are skipped, so the result
    can be shorter than the count and is empty for an unknown plan; the
    database gains exactly the returned licenses, in their order, each
    with a well-formed email of the list, the requested device limit and
    status [active]. *)
Theorem batch_generate_outcome
    (st : Db.Store) (entropy : nat -> Manager.Entropy) (plan : option string)
    (count : Z) (emails : list string) (device_cap : Z) (days : option Z)
    (user_hint : option string) :
  match Reports.batch_generate st entropy plan count emails device_cap days
          user_hint with
  | (st', Reports.BatchError error) =>
      st' = st
      /\ Z.of_nat (List.length emails) <> count
      /\ error = Reports.ERR_BATCH (Z.of_nat (List.length emails)) count
  | (st', Reports.Batch issued) =>
      Z.of_nat (List.length emails) = count
      /\ st' = Db.with_licenses st (Db.licenses st ++ issued)
      /\ Z.of_nat (List.length issued) <= count
      /\ (Manager.normalize_plan plan = None -> issued = [])
      /\ Forall (fun l => In (Db.email l) emails
                          /\ Manager.is_valid_email (Db.email l) = true
                          /\ Db.device_limit l = device_cap
                          /\ Db.status l = Db.active) issued
  end.
Proof.
  unfold Reports.batch_generate.
  destruct (Z.eqb_spec (Z.of_nat (List.length emails)) count) as [E|E]; cbn [negb].
  - destruct (Reports.batch_loop st entropy 1 plan emails device_cap days user_hint)
      as [st' ls] eqn:B.
    apply batch_loop_outcome in B as [-> [Hlen [Hnone Hall]]].
    split; [exact E|]. split; [reflexivity|].
    split; [lia|]. split; [exact Hnone | exact Hall].
  - split; [reflexivity|]. split; [exact E | reflexivity].
Qed.

(** ** The device limit over sequences of calls *)

Section RunFacts.
Import Db Ledger.

Lemma run_licenses (ops : list Op) :
  forall st : Store, licenses (run st ops) = licenses st.
Proof.
  induction ops as [|op ops IH]; intros st; [reflexivity|].
  cbn [run fold_left]. fold (run (step st op) ops).
  now rewrite IH, step_licenses.
Qed.

End RunFacts.

(** X24. The device limit is an invariant of every sequence of calls that
    holds no restoration: verification with or without a device, the
    suspension of a device by the manager or by the license holder, the
    cancellation and the deletion of a device, in any order and with any
    arguments, never take the active devices of a license beyond its
    limit, and none of them changes a license row. *)
Theorem quota_kept_without_restore
    (ops : list Ledger.Op) (st : Db.Store) (lid : string) (limit : Z) :
  forallb (fun op => negb (Ledger.is_restore op)) ops = true ->
  Ledger.limit_is st lid limit ->
  Db.count_active st lid <= limit ->
  Db.count_active (Ledger.run st ops) lid <= limit
  /\ Db.licenses (Ledger.run st ops) = Db.licenses st.
Proof.
  intros Hops Hlim Hle. split; [|apply run_licenses].
  now apply run_quota.
Qed.

Lemma quota_kept_without_restore_witness :
  Db.count_active
    (Ledger.run Example.store1 (firstn 3 Example.trace_restore))
    "LIC-1A2B3C4D" <= 1
  /\ Db.licenses (Ledger.run Example.store1 (firstn 3 Example.trace_restore))
     = Db.licenses Example.store1.
Proof.
  apply (quota_kept_without_restore (firstn 3 Example.trace_restore)
           Example.store1 "LIC-1A2B3C4D" 1).
  - reflexivity.
  - intros l [<-|[]] _. reflexivity.
  - vm_compute. discriminate.
Defined.

(** ** Payment signatures *)

(** MD5 against the test suite of its specification. *)

Example md5_empty :
  Md5.hexdigest (PyStr.encode_utf8 "") = "d41d8cd98f00b204e9800998ecf8427e".
Proof. vm_compute. reflexivity. Qed.

Example md5_abc :
  Md5.hexdigest (PyStr.encode_utf8 "abc") = "900150983cd24fb0d6963f7d28e17f72".
Proof. vm_compute. reflexivity. Qed.

Example md5_two_blocks :
  Md5.hexdigest
    (PyStr.encode_utf8
       "12345678901234567890123456789012345678901234567890123456789012345678901234567890")
  = "57edf4a22be3c955ac49da2e2107b67a".
Proof. vm_compute. reflexivity. Qed.

Section PaymentFacts.
Import PyStr Payment.

Lemma get_set (params : Params) (k v : string) :
  get (set params k v) k = Some v.
Proof.
  induction params as [|[k' v'] r IH]; cbn [set get].
  - now rewrite String.eqb_refl.
  - destruct (String.eqb k' k) eqn:E; cbn [get]; rewrite E; [reflexivity | exact IH].
Qed.

Lemma filter_set (keep : string * string -> bool) (params : Params) (k v : string) :
  (forall x, keep (k, x) = false) ->
  filter keep (set params k v) = filter keep params.
Proof.
  intros H. induction params as [|[k' v'] r IH]; cbn [set filter].
  - now rewrite H.
  - destruct (String.eqb_spec k' k) as [->|N]; cbn [filter].
    + now rewrite !H.
    + now rewrite IH.
Qed.

Lemma yipay_drops_sign (x : string) : yipay_keeps ("sign", x) = false.
Proof. unfold yipay_keeps. cbn [fst snd]. apply andb_false_r. Qed.

Lemma zpay_drops_sign (x : string) : zpay_keeps ("sign", x) = false.
Proof. unfold zpay_keeps. cbn [fst snd]. apply andb_false_r. Qed.

(** The order of the keys. *)
Lemma leb_trans (s1 : string) :
  forall s2 s3, String.leb s1 s2 = true -> String.leb s2 s3 = true ->
                String.leb s1 s3 = true.
Proof.
  unfold String.leb.
  induction s1 as [|c1 s1 IH]; intros [|c2 s2] [|c3 s3];
    cbn [String.compare]; try easy.
  unfold Ascii.compare.
  destruct (N.compare_spec (N_of_ascii c1) (N_of_ascii c2));
    destruct (N.compare_spec (N_of_ascii c2) (N_of_ascii c3));
    destruct (N.compare_spec (N_of_ascii c1) (N_of_ascii c3));
    intros L1 L2; try discriminate; try reflexivity; try lia.
  now apply (IH s2 s3).
Qed.

Ltac order_contra :=
  match goal with
  | N : fst ?a <> fst ?b, H1 : String.leb (fst ?a) (fst ?b) = true,
    H2 : String.leb (fst ?b) (fst ?a) = true |- _ =>
      exfalso; exact (N (String.leb_antisym _ _ H1 H2))
  | H1 : String.leb ?a ?b = false, H2 : String.leb ?b ?a = false |- _ =>
      exfalso; destruct (String.leb_total a b); congruence
  | H1 : String.leb ?a ?b = true, H2 : String.leb ?b ?c = true,
    H3 : String.leb ?a ?c = false |- _ =>
      exfalso; rewrite (leb_trans _ _ _ H1 H2) in H3; discriminate
  end.

Ltac order_cases :=
  repeat match goal with
         | |- context [String.leb ?x ?y] =>
             let E := fresh "E" in destruct (String.leb x y) eqn:E; cbn [insert]
         end.

Lemma insert_comm (a b : string * string) (l : Params) :
  fst a <> fst b -> insert a (insert b l) = insert b (insert a l).
Proof.
  intros N. induction l as [|x l IH]; cbn [insert].
  - order_cases; try reflexivity; try congruence; order_contra.
  - order_cases; try reflexivity; try congruence; try (now rewrite IH);
      order_contra.
Qed.

Lemma keys_of_filter (keep : string * string -> bool) (l : Params) (k : string) :
  In k (map fst (filter keep l)) -> In k (map fst l).
Proof.
  intros H. apply in_map_iff in H as [x [<- Hx]].
  apply filter_In in Hx as [Hx _]. now apply in_map.
Qed.

Lemma NoDup_filter_keys (keep : string * string -> bool) (l : Params) :
  NoDup (map fst l) -> NoDup (map fst (filter keep l)).
Proof.
  induction l as [|x l IH]; cbn [map filter]; [easy|].
  intros H. inversion H as [|? ? Hx Hl]; subst.
  destruct (keep x); cbn [map]; [|now apply IH].
  constructor; [|now apply IH].
  intros Hin. apply Hx. now apply keys_of_filter in Hin.
Qed.

Lemma Permutation_filter_params (keep : string * string -> bool) (l l' : Params) :
  Permutation l l' -> Permutation (filter keep l) (filter keep l').
Proof.
  induction 1 as [|x l l' _ IH|x y l|l l' l'' _ IH1 _ IH2]; cbn [filter].
  - constructor.
  - destruct (keep x); [now constructor | exact IH].
  - destruct (keep x), (keep y); try apply Permutation_refl; apply perm_swap.
  - now transitivity (filter keep l').
Qed.

Lemma sorted_permutation (l l' : Params) :
  Permutation l l' -> NoDup (map fst l) -> sorted l = sorted l'.
Proof.
  induction 1 as [|x l l' _ IH|x y l|l l' l'' P1 IH1 _ IH2]; cbn [sorted map].
  - reflexivity.
  - intros H. inversion H; subst. now rewrite IH.
  - intros H. inversion H as [|? ? Hy Hl]; subst.
    apply insert_comm. intros E. apply Hy. left. symmetry. exact E.
  - intros H. rewrite (IH1 H). apply IH2.
    eapply Permutation_NoDup; [|exact H]. now apply Permutation_map.
Qed.

Lemma sign_string_permutation (keep : string * string -> bool)
    (params params' : Params) (key : string) :
  NoDup (map fst params) -> Permutation params params' ->
  sign_string keep params key = sign_string keep params' key.
Proof.
  intros Hn Hp. unfold sign_string.
  rewrite (sorted_permutation (filter keep params) (filter keep params'));
    [reflexivity | now apply Permutation_filter_params | now apply NoDup_filter_keys].
Qed.

Lemma append_assoc (a b c : string) : ((a ++ b) ++ c = a ++ (b ++ c))%string.
Proof. induction a as [|x a IH]; cbn; [reflexivity | now rewrite IH]. Qed.

Lemma hex_digit_lower (v : Z) :
  0 <= v < 16 -> lower_char (Sha256.hex_digit v) = Sha256.hex_digit v.
Proof.
  intros Hv.
  set (P := fun v => Ascii.eqb (lower_char (Sha256.hex_digit v)) (Sha256.hex_digit v)).
  assert (H : P v = true)
    by (apply (forallb_range P 16); [vm_compute; reflexivity | exact Hv]).
  now apply Ascii.eqb_eq in H.
Qed.

Lemma hex_lower (l : list Z) :
  Forall (fun x => 0 <= x < 256) l ->
  lower (Sha256.hex_of_bytes l) = Sha256.hex_of_bytes l.
Proof.
  unfold lower. induction 1 as [|x l Hx _ IH]; [reflexivity|].
  cbn [Sha256.hex_of_bytes map_chars]. rewrite IH.
  rewrite !hex_digit_lower; [reflexivity | |].
  - apply Z.mod_pos_bound. lia.
  - split; [apply Z.div_pos; lia | apply Z.div_lt_upper_bound; lia].
Qed.

Lemma hex_length (l : list Z) :
  String.length (Sha256.hex_of_bytes l) = (2 * List.length l)%nat.
Proof.
  induction l as [|x l IH]; [reflexivity|].
  cbn [Sha256.hex_of_bytes String.length List.length]. rewrite IH. lia.
Qed.

Lemma le_bytes_bytes (n : nat) (x : Z) :
  Forall (fun b => 0 <= b < 256) (Md5.le_bytes n x)
  /\ List.length (Md5.le_bytes n x) = n.
Proof.
  unfold Md5.le_bytes. split.
  - apply Forall_map, Forall_forall. intros i _. apply Z.mod_pos_bound. lia.
  - now rewrite length_map, length_seq.
Qed.

Lemma md5_digest_bytes (msg : list Z) :
  Forall (fun b => 0 <= b < 256) (Md5.digest msg)
  /\ List.length (Md5.digest msg) = 16%nat.
Proof.
  unfold Md5.digest. cbv zeta.
  split.
  - repeat (apply Forall_app; split); apply le_bytes_bytes.
  - rewrite !length_app, !(proj2 (le_bytes_bytes _ _)). reflexivity.
Qed.

Lemma zpay_filter (params : Params) :
  filter yipay_keeps
    (filter (fun kv => negb (String.eqb (fst kv) "sign_type")) params)
  = filter zpay_keeps params.
Proof.
  induction params as [|[k v] r IH]; [reflexivity|].
  cbn [filter fst]. unfold zpay_keeps at 1. cbn [fst snd].
  destruct (String.eqb k "sign_type") eqn:E; cbn [negb filter].
  - rewrite orb_true_r, andb_false_r. exact IH.
  - rewrite orb_false_r. unfold yipay_keeps at 1. cbn [fst snd].
    destruct (negb (String.eqb v "") && negb (String.eqb k "sign"));
      now rewrite IH.
Qed.

End PaymentFacts.

(** X25. A request signed the way the server signs it passes the server's
    own check: putting the signature into the parameters under [sign]
    does not change the signature, in the YiPay and in the ZPAY variant,
    whether or not the parameters held a [sign] before. *)
Theorem signed_request_verifies (params : Payment.Params) (key : string) :
  Payment.verify_yipay_sign
    (Payment.set params "sign" (Payment.generate_yipay_sign params key)) key
  = true
  /\ Payment.generate_zpay_sign
       (Payment.set params "sign" (Payment.generate_zpay_sign params key)) key
     = Payment.generate_zpay_sign params key.
Proof.
  split.
  - unfold Payment.verify_yipay_sign. rewrite get_set.
    unfold Payment.generate_yipay_sign at 2. unfold Payment.sign_string.
    rewrite (filter_set _ _ _ _ yipay_drops_sign).
    apply String.eqb_refl.
  - unfold Payment.generate_zpay_sign at 1. unfold Payment.sign_string.
    now rewrite (filter_set _ _ _ _ zpay_drops_sign).
Qed.

Section DictFacts.
Import PyStr Payment.

Lemma set_keys (d : Params) (k v : string) :
  map fst (set d k v)
  = if existsb (String.eqb k) (map fst d) then map fst d else map fst d ++ [k].
Proof.
  induction d as [|[k' v'] r IH]; cbn [set map fst existsb]; [reflexivity|].
  rewrite (String.eqb_sym k k').
  destruct (String.eqb k' k); cbn [map fst orb]; [reflexivity|].
  rewrite IH. now destruct (existsb _ _).
Qed.

Lemma set_NoDup (d : Params) (k v : string) :
  NoDup (map fst d) -> NoDup (map fst (set d k v)).
Proof.
  intros H. rewrite set_keys.
  destruct (existsb (String.eqb k) (map fst d)) eqn:E; [exact H|].
  apply NoDup_app; [exact H | repeat constructor; intros [] |].
  intros x Hx [Ex|[]]. subst x.
  assert (T : existsb (String.eqb k) (map fst d) = true)
    by (apply existsb_exists; exists k; split; [exact Hx | apply String.eqb_refl]).
  congruence.
Qed.

(** The keys of a dict are pairwise distinct. *)
Lemma dict_NoDup (items : list (string * string)) :
  NoDup (map fst (dict items)).
Proof.
  unfold dict.
  assert (G : forall d, NoDup (map fst d) ->
                NoDup (map fst (fold_left (fun d kv => set d (fst kv) (snd kv))
                                  items d))).
  { induction items as [|kv r IH]; intros d Hd; [exact Hd|].
    cbn [fold_left]. apply IH. now apply set_NoDup. }
  apply G. constructor.
Qed.

Lemma get_In (d : Params) (k v : string) :
  NoDup (map fst d) -> (In (k, v) d <-> get d k = Some v).
Proof.
  induction d as [|[k' v'] r IH]; cbn [map fst get In]; intros H.
  - split; [contradiction | discriminate].
  - inversion H as [|? ? Hk Hr]; subst.
    destruct (String.eqb_spec k' k) as [->|N].
    + split.
      * intros [E|Hin]; [now inversion E|].
        exfalso. apply Hk. now apply (in_map fst) in Hin.
      * intros [= ->]. now left.
    + rewrite <- (IH Hr). split; [|tauto].
      intros [E|Hin]; [inversion E; contradiction | exact Hin].
Qed.

(** Two dicts that map the same keys to the same values hold the same
    items. *)
Lemma same_mapping_Permutation (d d' : Params) :
  NoDup (map fst d) -> NoDup (map fst d') ->
  (forall k, get d k = get d' k) -> Permutation d d'.
Proof.
  intros H H' E.
  apply NoDup_Permutation; try (eapply NoDup_map_inv; eassumption).
  intros [k v]. now rewrite (get_In d k v H), (get_In d' k v H'), E.
Qed.

Lemma insert_In (kv x : string * string) (l : Params) :
  In x (insert kv l) <-> x = kv \/ In x l.
Proof.
  induction l as [|y l IH]; cbn [insert In]; [intuition|].
  destruct (String.leb (fst kv) (fst y)); cbn [In]; [intuition|].
  rewrite IH. intuition.
Qed.

Lemma sorted_In (x : string * string) (l : Params) :
  In x (sorted l) <-> In x l.
Proof.
  induction l as [|kv l IH]; cbn [sorted In]; [tauto|].
  rewrite insert_In, IH. intuition.
Qed.

Lemma insert_item_by_key (kv : string * string) (l : Params) :
  ~ In (fst kv) (map fst l) -> insert_item kv l = insert kv l.
Proof.
  induction l as [|x l IH]; cbn [insert_item insert map In]; intros H;
    [reflexivity|].
  unfold item_leb.
  destruct (String.eqb_spec (fst kv) (fst x)) as [E|_];
    [exfalso; apply H; left; now symmetry|].
  rewrite IH by tauto. reflexivity.
Qed.

(** On a dict, the sort by key is Python's sort of the items. *)
Lemma sorted_items_by_key (l : Params) :
  NoDup (map fst l) -> sorted_items l = sorted l.
Proof.
  induction l as [|kv l IH]; cbn [sorted_items sorted map]; intros H;
    [reflexivity|].
  inversion H as [|? ? Hk Hl]; subst.
  rewrite (IH Hl). apply insert_item_by_key.
  intros Hin. apply Hk.
  apply in_map_iff in Hin as [x [Ex Hx]].
  apply (proj1 (sorted_In x l)) in Hx. rewrite <- Ex. now apply in_map.
Qed.

End DictFacts.

(** X26. The signature does not depend on the order in which the
    parameters were put into the dict: two dicts that map the same keys
    to the same values, however they were built, give the same YiPay and
    the same ZPAY signature.  The keys of a dict being distinct, the
    sort by key that is signed is Python's sort of the items. *)
Theorem signature_ignores_order
    (items items' : list (string * string)) (key : string) :
  (forall k, Payment.get (Payment.dict items) k
             = Payment.get (Payment.dict items') k) ->
  Payment.generate_yipay_sign (Payment.dict items) key
  = Payment.generate_yipay_sign (Payment.dict items') key
  /\ Payment.generate_zpay_sign (Payment.dict items) key
     = Payment.generate_zpay_sign (Payment.dict items') key
  /\ (forall keep,
        Payment.sorted (filter keep (Payment.dict items))
        = Payment.sorted_items (filter keep (Payment.dict items))).
Proof.
  intros Hsame.
  assert (Hp : Permutation (Payment.dict items) (Payment.dict items'))
    by (apply same_mapping_Permutation; [apply dict_NoDup .. | exact Hsame]).
  unfold Payment.generate_yipay_sign, Payment.generate_zpay_sign.
  rewrite !(sign_string_permutation _ _ _ key (dict_NoDup items) Hp).
  split; [reflexivity|]. split; [reflexivity|].
  intros keep. symmetry. apply sorted_items_by_key, NoDup_filter_keys, dict_NoDup.
Qed.

Lemma signature_ignores_order_witness :
  Payment.generate_yipay_sign
    (Payment.dict [("pid", "1001"); ("money", "9.90")]) "k3y"
  = Payment.generate_yipay_sign
      (Payment.dict [("money", "9.90"); ("pid", "1001")]) "k3y"
  /\ Payment.generate_zpay_sign
       (Payment.dict [("pid", "1001"); ("money", "9.90")]) "k3y"
     = Payment.generate_zpay_sign
         (Payment.dict [("money", "9.90"); ("pid", "1001")]) "k3y"
  /\ (forall keep,
        Payment.sorted
          (filter keep (Payment.dict [("pid", "1001"); ("money", "9.90")]))
        = Payment.sorted_items
            (filter keep (Payment.dict [("pid", "1001"); ("money", "9.90")]))).
Proof.
  apply (signature_ignores_order [("pid", "1001"); ("money", "9.90")]
           [("money", "9.90"); ("pid", "1001")] "k3y").
  intros k.
  change (Payment.dict [("pid", "1001"); ("money", "9.90")])
    with [("pid", "1001"); ("money", "9.90")].
  change (Payment.dict [("money", "9.90"); ("pid", "1001")])
    with [("money", "9.90"); ("pid", "1001")].
  cbn [Payment.get].
  destruct (String.eqb_spec "pid" k) as [<-|_]; [reflexivity|].
  reflexivity.
Defined.

(** X27. The signed text does not delimit its parts.  The values are
    joined unescaped, so one parameter whose value continues with an
    ampersand and a further [key=value] has the signature of two
    parameters; and the merchant key follows the last value without a
    separator, so a suffix of the value can move into the key. *)
Theorem signed_text_is_ambiguous (k1 v1 k2 v2 s key : string) :
  k1 <> "sign" -> k2 <> "sign" -> v1 <> "" -> v2 <> "" ->
  String.leb k1 k2 = true ->
  Payment.generate_yipay_sign [(k1, (v1 ++ "&" ++ k2 ++ "=" ++ v2)%string)] key
  = Payment.generate_yipay_sign [(k1, v1); (k2, v2)] key
  /\ Payment.generate_yipay_sign [(k1, (v1 ++ s)%string)] key
     = Payment.generate_yipay_sign [(k1, v1)] (s ++ key)%string.
Proof.
  intros Hk1 Hk2 Hv1 Hv2 Hle.
  assert (K : forall k v, k <> "sign" -> v <> "" -> Payment.yipay_keeps (k, v) = true).
  { intros k v Hk Hv. unfold Payment.yipay_keeps. cbn [fst snd].
    apply String.eqb_neq in Hk, Hv. now rewrite Hk, Hv. }
  assert (N : forall x, (v1 ++ x)%string <> "").
  { intros x E. destruct v1; [contradiction | discriminate]. }
  unfold Payment.generate_yipay_sign, Payment.sign_string.
  cbn [filter]. rewrite !K by auto.
  cbn [Payment.sorted Payment.insert fst]. rewrite Hle.
  cbn [map Payment.join Payment.pair_text fst snd].
  unfold Payment.pair_text. cbn [fst snd].
  split; f_equal; f_equal; now rewrite !append_assoc.
Qed.

Lemma signed_text_is_ambiguous_witness :
  Payment.generate_yipay_sign [("money", "1&name=pro")] "k3y"
  = Payment.generate_yipay_sign [("money", "1"); ("name", "pro")] "k3y"
  /\ Payment.generate_yipay_sign [("money", "19")] "k3y"
     = Payment.generate_yipay_sign [("money", "1")] "9k3y".
Proof.
  apply (signed_text_is_ambiguous "money" "1" "name" "pro" "9" "k3y");
    try discriminate; reflexivity.
Defined.

(** X28. The ZPAY signature of a request is the YiPay signature of the
    request without its [sign_type].  A signature is 32 characters that
    lower-casing leaves as they are, so the [lower()] of the ZPAY variant
    has no effect. *)
Theorem zpay_sign_is_yipay_sign (params : Payment.Params) (key : string) :
  Payment.generate_zpay_sign params key
  = Payment.generate_yipay_sign
      (filter (fun kv => negb (String.eqb (fst kv) "sign_type")) params) key
  /\ String.length (Payment.generate_yipay_sign params key) = 32%nat
  /\ PyStr.lower (Payment.generate_yipay_sign params key)
     = Payment.generate_yipay_sign params key.
Proof.
  unfold Payment.generate_zpay_sign, Payment.generate_yipay_sign, Md5.hexdigest.
  split; [|split].
  - rewrite hex_lower by apply md5_digest_bytes.
    unfold Payment.sign_string. now rewrite zpay_filter.
  - rewrite hex_length, (proj2 (md5_digest_bytes _)). reflexivity.
  - apply hex_lower, md5_digest_bytes.
Qed.
